(** * Client state controller and stream reader of the chat front end

    The development embeds the TypeScript of
    [frontend/src/hooks/useChat.ts] (the [useChat] hook), of the API
    client (types, [truncateMessages], [streamChat], [streamFork]) and
    of the [canEdit] expression of [ChatWindow], and states the
    behaviour of sending, forking, editing, checkpoint preview and
    server-sent-event parsing over it.

    Conventions.
    - A JavaScript string is the list of its UTF-16 code units.
    - A value produced by [JSON.parse] is a [JsValue]; [JSON.parse] and
      [JSON.stringify] belong to the platform and are parameters of the
      model (section variables); a concrete parser is supplied for the
      worked examples.
    - The answers of the server (HTTP responses, the clock) are inputs
      of every operation, gathered in the record [World]; the requests
      an operation issues are returned as a trace.
    - An operation of the hook is modelled as the sequence of state
      updates it performs itself, in program order. The effect on
      [currentThreadId] is the operation [thread_changed], which runs
      once the operation that changed the cell is over; a send that
      creates its thread is still reading its stream when the effect
      runs, so there the effect is part of the send
      ([send_stream_created]). *)

From Stdlib Require Import String Ascii.
From Stdlib Require Import List NArith ZArith Bool Lia.
Import ListNotations.

Local Open Scope list_scope.
Set Warnings "-register-all".

(* ------------------------------------------------------------------ *)
(** * JavaScript strings *)
(* ------------------------------------------------------------------ *)

Module JsString.

(** A string is its sequence of UTF-16 code units. *)
Definition jstring : Type := list N.

(** A literal of the source, written with 8-bit characters. *)
Definition str (s : string) : jstring :=
  map N_of_ascii (list_ascii_of_string s).

Definition LF : N := 10%N.
Definition QUOTE : N := 34%N.
Definition BACKSLASH : N := 92%N.

Fixpoint jeqb (a b : jstring) : bool :=
  match a, b with
  | [], [] => true
  | x :: a', y :: b' => N.eqb x y && jeqb a' b'
  | _, _ => false
  end.

(** [s.startsWith(p)] *)
Fixpoint startsWith (p s : jstring) : bool :=
  match p, s with
  | [], _ => true
  | x :: p', y :: s' => N.eqb x y && startsWith p' s'
  | _ :: _, [] => false
  end.

(** [s.slice(n)] for [0 <= n]. *)
Definition slice_from (n : nat) (s : jstring) : jstring := skipn n s.

(** WhiteSpace and LineTerminator code units, the ones [trim] strips. *)
Definition isWhiteSpace (c : N) : bool :=
  existsb (N.eqb c)
    [9; 10; 11; 12; 13; 32; 160; 5760; 8232; 8233; 8239; 8287; 12288; 65279]%N
  || (N.leb 8192 c && N.leb c 8202).

Fixpoint trimStart (s : jstring) : jstring :=
  match s with
  | [] => []
  | c :: t => if isWhiteSpace c then trimStart t else s
  end.

Definition trimEnd (s : jstring) : jstring := rev (trimStart (rev s)).

(** [s.trim()] *)
Definition trim (s : jstring) : jstring := trimEnd (trimStart s).

(** Truthiness of a string: the empty string is falsy. *)
Definition nonEmpty (s : jstring) : bool :=
  match s with [] => false | _ :: _ => true end.

(** [cons_head c l] puts [c] in front of the first piece of [l]. *)
Definition cons_head (c : N) (l : list jstring) : list jstring :=
  match l with
  | [] => [[c]]
  | p :: ps => (c :: p) :: ps
  end.

(** [split_from sep skip s]: the pieces of [s], where the first [skip]
    code units of [s] still belong to a separator already matched. *)
Fixpoint split_from (sep : jstring) (skip : nat) (s : jstring) : list jstring :=
  match s with
  | [] => [[]]
  | c :: t =>
      match skip with
      | S k => split_from sep k t
      | O =>
          if startsWith sep s
          then [] :: split_from sep (length sep - 1) t
          else cons_head c (split_from sep 0 t)
      end
  end.

(** [s.split(sep)] for a non-empty separator: the occurrences of [sep]
    are found from left to right and do not overlap. *)
Definition split (sep s : jstring) : list jstring := split_from sep 0 s.

(** [l.join(sep)] *)
Fixpoint join (sep : jstring) (l : list jstring) : jstring :=
  match l with
  | [] => []
  | [p] => p
  | p :: ps => p ++ sep ++ join sep ps
  end.

Fixpoint uint_digits (d : Decimal.uint) : jstring :=
  match d with
  | Decimal.Nil => []
  | Decimal.D0 d => 48%N :: uint_digits d
  | Decimal.D1 d => 49%N :: uint_digits d
  | Decimal.D2 d => 50%N :: uint_digits d
  | Decimal.D3 d => 51%N :: uint_digits d
  | Decimal.D4 d => 52%N :: uint_digits d
  | Decimal.D5 d => 53%N :: uint_digits d
  | Decimal.D6 d => 54%N :: uint_digits d
  | Decimal.D7 d => 55%N :: uint_digits d
  | Decimal.D8 d => 56%N :: uint_digits d
  | Decimal.D9 d => 57%N :: uint_digits d
  end.

(** Template interpolation [`${n}`] of a non-negative integer. *)
Definition number_to_string (n : N) : jstring := uint_digits (N.to_uint n).

End JsString.

Import JsString.

(* ------------------------------------------------------------------ *)
(** * JavaScript values and exceptions *)
(* ------------------------------------------------------------------ *)

Module Js.

(** What [JSON.parse] can return, plus [undefined]. A number is kept as
    the decimal [mantissa * 10 ^ exponent] its literal denotes. An
    object lists its own properties; a later binding of a key overrides
    an earlier one. *)
Inductive JsValue : Type :=
| JUndefined
| JNull
| JBool (b : bool)
| JNum (mantissa exponent : Z)
| JStr (s : jstring)
| JArr (items : list JsValue)
| JObj (props : list (jstring * JsValue)).

Inductive JsError : Type := SyntaxError | TypeError | NetworkError.

(** Outcome of evaluating an expression that may throw. *)
Inductive Exn (A : Type) : Type :=
| Ok (a : A)
| Raise (e : JsError).
Arguments Ok {A} a.
Arguments Raise {A} e.

Fixpoint own_prop (k : jstring) (props : list (jstring * JsValue)) : option JsValue :=
  match props with
  | [] => None
  | (k', v) :: rest =>
      match own_prop k rest with
      | Some w => Some w
      | None => if jeqb k' k then Some v else None
      end
  end.

(** [v.k] for a property name [k] that no built-in prototype defines
    (the source reads [type], [content] and [Progress] only): reading a
    property of [null] or [undefined] throws a [TypeError]; a missing
    property is [undefined]. *)
Definition get_prop (v : JsValue) (k : jstring) : Exn JsValue :=
  match v with
  | JUndefined | JNull => Raise TypeError
  | JObj props =>
      match own_prop k props with
      | Some w => Ok w
      | None => Ok JUndefined
      end
  | _ => Ok JUndefined
  end.

(** [v?.k] *)
Definition get_prop_opt (v : JsValue) (k : jstring) : JsValue :=
  match get_prop v k with
  | Ok w => w
  | Raise _ => JUndefined
  end.

(** [v === "lit"] *)
Definition is_string (lit : jstring) (v : JsValue) : bool :=
  match v with
  | JStr s => jeqb s lit
  | _ => false
  end.

(** A decimal [m * 10 ^ e] converts to the double [0] when it is zero
    or not above half of the least positive double, [2 ^ -1075]. *)
Definition number_is_zero (m e : Z) : bool :=
  Z.eqb m 0
  || (Z.ltb e 0 && Z.leb (Z.abs m * 2 ^ 1075) (10 ^ (- e))).

(** ToBoolean. *)
Definition truthy (v : JsValue) : bool :=
  match v with
  | JUndefined | JNull => false
  | JBool b => b
  | JNum m e => negb (number_is_zero m e)
  | JStr s => nonEmpty s
  | JArr _ | JObj _ => true
  end.

(** [a || b] *)
Definition js_or (a b : JsValue) : JsValue := if truthy a then a else b.

(** [typeof v === 'string' ? v : dflt] *)
Definition string_or (v : JsValue) (dflt : jstring) : jstring :=
  match v with
  | JStr s => s
  | _ => dflt
  end.

End Js.

Import Js.

(* ------------------------------------------------------------------ *)
(** * A JSON reader and writer for the worked examples *)
(* ------------------------------------------------------------------ *)

(** The model takes [JSON.parse] and [JSON.stringify] as parameters.
    The examples below instantiate them with [Json.parse], a reader of
    the JSON grammar, and [Json.stringify], a writer that spells every
    number in scientific form. *)
Module Json.

Definition is_json_space (c : N) : bool :=
  N.eqb c 32 || N.eqb c 9 || N.eqb c 10 || N.eqb c 13.

Fixpoint skip_ws (s : jstring) : jstring :=
  match s with
  | c :: t => if is_json_space c then skip_ws t else s
  | [] => []
  end.

Definition is_digit (c : N) : bool := N.leb 48 c && N.leb c 57.

(** Reads digits: the value of [acc] followed by them, how many were
    read, and the rest. *)
Fixpoint read_digits (acc : Z) (count : nat) (s : jstring) : Z * nat * jstring :=
  match s with
  | c :: t =>
      if is_digit c
      then read_digits (acc * 10 + Z.of_N (c - 48)) (S count) t
      else (acc, count, s)
  | [] => (acc, count, s)
  end.

Definition hex_value (c : N) : option N :=
  if is_digit c then Some (c - 48)%N
  else if N.leb 97 c && N.leb c 102 then Some (c - 87)%N
  else if N.leb 65 c && N.leb c 70 then Some (c - 55)%N
  else None.

Definition hex4 (a b c d : N) : option N :=
  match hex_value a, hex_value b, hex_value c, hex_value d with
  | Some x, Some y, Some z, Some w => Some (((x * 16 + y) * 16 + z) * 16 + w)%N
  | _, _, _, _ => None
  end.

(** The characters of a string literal after its opening quote. *)
Fixpoint read_string (s : jstring) : option (jstring * jstring) :=
  match s with
  | [] => None
  | 34%N :: t => Some ([], t)
  | 92%N :: e :: t =>
      let simple (c : N) :=
        match read_string t with
        | Some (body, rest) => Some (c :: body, rest)
        | None => None
        end in
      if N.eqb e 34 then simple 34%N
      else if N.eqb e 92 then simple 92%N
      else if N.eqb e 47 then simple 47%N
      else if N.eqb e 98 then simple 8%N
      else if N.eqb e 102 then simple 12%N
      else if N.eqb e 110 then simple 10%N
      else if N.eqb e 114 then simple 13%N
      else if N.eqb e 116 then simple 9%N
      else if N.eqb e 117 then
        match t with
        | a :: b :: c :: d :: t' =>
            match hex4 a b c d, read_string t' with
            | Some u, Some (body, rest) => Some (u :: body, rest)
            | _, _ => None
            end
        | _ => None
        end
      else None
  | c :: t =>
      if N.ltb c 32 then None
      else
        match read_string t with
        | Some (body, rest) => Some (c :: body, rest)
        | None => None
        end
  end.

Definition read_exponent (s : jstring) : option (Z * jstring) :=
  match s with
  | c :: t =>
      if N.eqb c 101 || N.eqb c 69 then
        let '(negative, t1) :=
          match t with
          | 45%N :: t' => (true, t')
          | 43%N :: t' => (false, t')
          | _ => (false, t)
          end in
        match read_digits 0 0 t1 with
        | (_, O, _) => None
        | (v, S _, rest) => Some ((if negative then - v else v)%Z, rest)
        end
      else Some (0%Z, s)
  | [] => Some (0%Z, s)
  end.

Definition read_fraction (m : Z) (s : jstring) : option (Z * Z * jstring) :=
  match s with
  | 46%N :: t =>
      match read_digits m 0 t with
      | (_, O, _) => None
      | (m', S k, rest) => Some (m', (- Z.of_nat (S k))%Z, rest)
      end
  | _ => Some (m, 0%Z, s)
  end.

Definition read_number (s : jstring) : option (JsValue * jstring) :=
  let '(negative, s1) :=
    match s with
    | 45%N :: t => (true, t)
    | _ => (false, s)
    end in
  let integer :=
    match s1 with
    | 48%N :: t => Some (0%Z, t)
    | c :: _ =>
        if is_digit c then
          match read_digits 0 0 s1 with
          | (v, _, rest) => Some (v, rest)
          end
        else None
    | [] => None
    end in
  match integer with
  | None => None
  | Some (i, s2) =>
      match read_fraction i s2 with
      | None => None
      | Some (m, e1, s3) =>
          match read_exponent s3 with
          | None => None
          | Some (e2, s4) =>
              Some (JNum (if negative then - m else m)%Z (e1 + e2)%Z, s4)
          end
      end
  end.

(** Defining a property: a key already present keeps its place. *)
Fixpoint set_prop (k : jstring) (v : JsValue) (props : list (jstring * JsValue))
  : list (jstring * JsValue) :=
  match props with
  | [] => [(k, v)]
  | (k', v') :: rest =>
      if jeqb k' k then (k', v) :: rest else (k', v') :: set_prop k v rest
  end.

Fixpoint read_value (fuel : nat) (s : jstring) : option (JsValue * jstring) :=
  match fuel with
  | O => None
  | S f =>
      match skip_ws s with
      | 34%N :: t =>
          match read_string t with
          | Some (body, rest) => Some (JStr body, rest)
          | None => None
          end
      | 91%N :: t =>
          match skip_ws t with
          | 93%N :: rest => Some (JArr [], rest)
          | _ => read_elements f t []
          end
      | 123%N :: t =>
          match skip_ws t with
          | 125%N :: rest => Some (JObj [], rest)
          | _ => read_members f t []
          end
      | s' =>
          if startsWith (str "true") s' then Some (JBool true, skipn 4 s')
          else if startsWith (str "false") s' then Some (JBool false, skipn 5 s')
          else if startsWith (str "null") s' then Some (JNull, skipn 4 s')
          else read_number s'
      end
  end
with read_elements (fuel : nat) (s : jstring) (acc : list JsValue)
  : option (JsValue * jstring) :=
  match fuel with
  | O => None
  | S f =>
      match read_value f s with
      | Some (v, rest) =>
          match skip_ws rest with
          | 44%N :: t => read_elements f t (v :: acc)
          | 93%N :: t => Some (JArr (rev (v :: acc)), t)
          | _ => None
          end
      | None => None
      end
  end
with read_members (fuel : nat) (s : jstring) (acc : list (jstring * JsValue))
  : option (JsValue * jstring) :=
  match fuel with
  | O => None
  | S f =>
      match skip_ws s with
      | 34%N :: t =>
          match read_string t with
          | Some (key, rest) =>
              match skip_ws rest with
              | 58%N :: t1 =>
                  match read_value f t1 with
                  | Some (v, rest1) =>
                      match skip_ws rest1 with
                      | 44%N :: t2 => read_members f t2 (set_prop key v acc)
                      | 125%N :: t2 => Some (JObj (set_prop key v acc), t2)
                      | _ => None
                      end
                  | None => None
                  end
              | _ => None
              end
          | None => None
          end
      | _ => None
      end
  end.

(** One JSON text, surrounded by optional white space. *)
Definition parse (s : jstring) : Exn JsValue :=
  match read_value (2 * length s + 2) s with
  | Some (v, rest) =>
      match skip_ws rest with
      | [] => Ok v
      | _ :: _ => Raise SyntaxError
      end
  | None => Raise SyntaxError
  end.

Definition hex_digit (n : N) : N :=
  if N.ltb n 10 then (n + 48)%N else (n + 87)%N.

Definition escape_unit (c : N) : jstring :=
  if N.eqb c 34 then [92; 34]%N
  else if N.eqb c 92 then [92; 92]%N
  else if N.eqb c 8 then [92; 98]%N
  else if N.eqb c 12 then [92; 102]%N
  else if N.eqb c 10 then [92; 110]%N
  else if N.eqb c 13 then [92; 114]%N
  else if N.eqb c 9 then [92; 116]%N
  else if N.ltb c 32
       then [92; 117; 48; 48; hex_digit (c / 16); hex_digit (c mod 16)]%N
  else [c].

Definition quote (s : jstring) : jstring :=
  QUOTE :: flat_map escape_unit s ++ [QUOTE].

Definition int_digits (z : Z) : jstring :=
  (if Z.ltb z 0 then [45%N] else []) ++ number_to_string (Z.to_N (Z.abs z)).

Fixpoint write (v : JsValue) : jstring :=
  match v with
  | JUndefined | JNull => str "null"
  | JBool true => str "true"
  | JBool false => str "false"
  | JNum m e => int_digits m ++ [101%N] ++ int_digits e
  | JStr s => quote s
  | JArr items => [91%N] ++ join [44%N] (map write items) ++ [93%N]
  | JObj props =>
      [123%N]
      ++ join [44%N] (map (fun kv => quote (fst kv) ++ [58%N] ++ write (snd kv)) props)
      ++ [125%N]
  end.

(** [JSON.stringify(v)]: [undefined] has no JSON text. *)
Definition stringify (v : JsValue) : JsValue :=
  match v with
  | JUndefined => JUndefined
  | _ => JStr (write v)
  end.

End Json.

(* ------------------------------------------------------------------ *)
(** * The API client: types, requests and the stream readers *)
(* ------------------------------------------------------------------ *)

Module Api.

Inductive Role : Type := human | ai.

Record Thread : Type := {
  thread_id_of : jstring;               (* id *)
  thread_user_id : jstring;             (* user_id *)
  thread_title : option jstring;
  thread_created_at : option jstring;
  thread_updated_at : option jstring
}.

Record MessageAttachment : Type := {
  filename : jstring;
  size : N;
  s3_key : option jstring;
  content_type : option jstring
}.

(** A row of the Message table as [fetchMessages] returns it. *)
Record Message : Type := {
  msg_id : N;                           (* id *)
  msg_thread_id : jstring;
  msg_user_id : option jstring;
  msg_role : Role;
  msg_content : jstring;
  msg_message_id : option jstring;
  msg_attachments : list MessageAttachment;
  msg_created_at : option jstring
}.

Record CheckpointMessage : Type := {
  cm_role : jstring;                    (* role: string *)
  cm_content : jstring
}.

Record Checkpoint : Type := {
  checkpoint_id : jstring;
  cp_thread_id : jstring;
  checkpoint_ns : jstring;
  parent_checkpoint_id : option jstring;
  cp_created_at : option jstring;
  step : Z;
  cp_messages : list CheckpointMessage  (* messages *)
}.

(** The HTTP requests of the client, by end point and payload. *)
Inductive Request : Type :=
| GetThreads (user_id : jstring)
| PostThread (user_id : jstring) (title : option jstring)
| DeleteThread (thread_id : jstring)
| GetMessages (thread_id : jstring)
| PostTruncate (thread_id : jstring) (keep_count : nat)
| GetHistory (thread_id : jstring)
| PostChat (message thread_id user_id : jstring)
    (attachments : list MessageAttachment)
| PostFork (message thread_id user_id checkpoint_id : jstring)
    (attachments : list MessageAttachment).

(** [truncateMessages(threadId, keepCount)] posts [{keep_count}] to the
    truncate end point of the thread. *)
Definition truncateMessages (threadId : jstring) (keepCount : nat) : Request :=
  PostTruncate threadId keepCount.

(** How the body of a streamed response ends: the reader reports
    [done], or a read is rejected. *)
Inductive StreamEnd : Type := EndOfStream | ReadFailure.

(** What [fetch] of a streaming end point produces. The chunks of a
    body are given as the text the [TextDecoder] makes of them. *)
Inductive HttpResponse : Type :=
| FetchRejected
| NotOk (status : N) (text_read : bool)
| NoBody
| Body (chunks : list jstring) (ending : StreamEnd).

(** How a run of a generator finishes. *)
Inductive Completion : Type := Returned | Threw (e : JsError).

(** [arr || []] for an optional array argument. *)
Definition or_empty {A : Type} (o : option (list A)) : list A :=
  match o with
  | Some l => l
  | None => []
  end.

Definition error_event (content : jstring) : JsValue :=
  JObj [(str "type", JStr (str "error")); (str "content", JStr content)].

Definition DATA_PREFIX : jstring := str "data: ".
Definition BLANK_LINE : jstring := [LF; LF].

(** ** Statements of a generator body

    A statement of a generator yields values and then completes
    normally, by [return], or by a thrown exception. *)

Inductive Outcome (A : Type) : Type :=
| Normal (a : A)
| Returns
| Throws (e : JsError).
Arguments Normal {A} a.
Arguments Returns {A}.
Arguments Throws {A} e.

Definition gen (A : Type) : Type := (list JsValue * Outcome A)%type.

Definition ret {A : Type} (a : A) : gen A := ([], Normal a).

Definition bind {A B : Type} (m : gen A) (k : A -> gen B) : gen B :=
  match snd m with
  | Normal a => (fst m ++ fst (k a), snd (k a))
  | Returns => (fst m, Returns)
  | Throws e => (fst m, Throws e)
  end.

Declare Scope gen_scope.
Delimit Scope gen_scope with gen.
Bind Scope gen_scope with gen.
Notation "x <- m ;; k" := (bind m (fun x => k))
  (at level 61, m at next level, right associativity) : gen_scope.
Notation "m ;; k" := (bind m (fun _ => k))
  (at level 61, right associativity) : gen_scope.
Local Open Scope gen_scope.

(** [yield v] *)
Definition yield (v : JsValue) : gen unit := ([v], Normal tt).

(** [return] *)
Definition leave {A : Type} : gen A := ([], Returns).

(** [throw e] *)
Definition throw {A : Type} (e : JsError) : gen A := ([], Throws e).

(** An expression that may throw, evaluated inside a statement. *)
Definition eval {A : Type} (x : Exn A) : gen A :=
  match x with
  | Ok a => ret a
  | Raise e => throw e
  end.

(** [try { body } catch (e) { handler }] *)
Definition try_catch {A : Type} (body : gen A) (handler : JsError -> gen A) : gen A :=
  match snd body with
  | Throws e => (fst body ++ fst (handler e), snd (handler e))
  | _ => body
  end.

(** [try { body } finally { cleanup }] *)
Definition try_finally {A : Type} (body : gen A) (cleanup : gen unit) : gen A :=
  match snd cleanup with
  | Normal _ => (fst body ++ fst cleanup, snd body)
  | Returns => (fst body ++ fst cleanup, Returns)
  | Throws e => (fst body ++ fst cleanup, Throws e)
  end.

(** [for (const x of l) { body }]; [continue] is the normal completion
    of the body. *)
Fixpoint for_of {A : Type} (l : list A) (body : A -> gen unit) : gen unit :=
  match l with
  | [] => ret tt
  | x :: rest => body x ;; for_of rest body
  end.

(** The values yielded by the body of a generator function and how the
    call finishes. *)
Definition run_generator (body : gen unit) : list JsValue * Completion :=
  (fst body,
   match snd body with
   | Normal _ | Returns => Returned
   | Throws e => Threw e
   end).

Section StreamReader.

(** [JSON.parse] of the platform. *)
Variable JSON_parse : jstring -> Exn JsValue.

(** The body of the loop over the lines of a frame. The [try] block
    parses the payload, yields the value and reads its [type]; the
    [catch] block logs the error. *)
Definition on_line (line : jstring) : gen unit :=
  if startsWith DATA_PREFIX line then
    let data := slice_from 6 line in
    try_catch
      (event <- eval (JSON_parse data) ;;
       yield event ;;
       ty <- eval (get_prop event (str "type")) ;;
       if is_string (str "done") ty || is_string (str "error") ty
       then leave
       else ret tt)
      (fun _ => ret tt)
  else ret tt.

(** The body of the loop over the complete frames of the buffer. *)
Definition on_message (message : jstring) : gen unit :=
  let trimmed := trim message in
  if negb (nonEmpty trimmed) then ret tt
  else
    let lines := split [LF] trimmed in
    for_of lines on_line.

(** The branch taken when the reader reports [done]: what is left in
    the buffer is treated as one record. *)
Definition on_done (buffer : jstring) : gen unit :=
  if nonEmpty (trim buffer) then
    let remaining := trim buffer in
    if startsWith DATA_PREFIX remaining then
      try_catch
        (event <- eval (JSON_parse (slice_from 6 remaining)) ;;
         yield event)
        (fun _ => ret tt)
    else ret tt
  else ret tt.

(** The [while (true)] loop: one iteration per chunk read; it is left
    by [break] when the reader reports [done], and by an exception when
    a read is rejected. *)
Fixpoint read_loop (buffer : jstring) (chunks : list jstring) (ending : StreamEnd)
  : gen unit :=
  match chunks with
  | [] =>
      match ending with
      | EndOfStream => on_done buffer
      | ReadFailure => throw NetworkError
      end
  | value :: later =>
      let buffer1 := buffer ++ value in
      let messages := split BLANK_LINE buffer1 in
      (* buffer = messages.pop() || "" *)
      let buffer2 := last messages [] in
      for_of (removelast messages) on_message ;;
      read_loop buffer2 later ending
  end.

(** The body of the two generators after the request is sent; they
    differ in the text of the first error event only. *)
Definition read_response (failure : jstring) (response : HttpResponse) : gen unit :=
  match response with
  | FetchRejected => throw NetworkError
  | NotOk status text_read =>
      (if text_read then ret tt else throw NetworkError) ;;
      yield (error_event (failure ++ number_to_string status)) ;;
      leave
  | NoBody =>
      yield (error_event (str "No response body")) ;;
      leave
  | Body chunks ending =>
      (* finally: reader.releaseLock() *)
      try_finally (read_loop [] chunks ending) (ret tt)
  end.

(** [streamChat(message, threadId, userId, attachments)]: the request
    it sends and, for a response, the values it yields and how it
    finishes. *)
Definition streamChat (message threadId userId : jstring)
  (attachments : option (list MessageAttachment)) (response : HttpResponse)
  : Request * (list JsValue * Completion) :=
  (PostChat message threadId userId (or_empty attachments),
   run_generator (read_response (str "Failed to send message: ") response)).

(** [streamFork(message, threadId, userId, checkpointId, attachments)]. *)
Definition streamFork (message threadId userId checkpointId : jstring)
  (attachments : option (list MessageAttachment)) (response : HttpResponse)
  : Request * (list JsValue * Completion) :=
  (PostFork message threadId userId checkpointId (or_empty attachments),
   run_generator (read_response (str "Failed to fork: ") response)).

End StreamReader.

End Api.

Import Api.

(* ------------------------------------------------------------------ *)
(** * The [useChat] hook *)
(* ------------------------------------------------------------------ *)

Module UseChat.

Record ChatMessage : Type := {
  id : jstring;
  role : Role;
  content : jstring;
  attachments : option (list MessageAttachment);
  isStreaming : option bool
}.

(** The state cells of the hook. *)
Record State : Type := {
  messages : list ChatMessage;
  isLoading : bool;
  threads : list Thread;
  currentThreadId : option jstring;
  progressStatus : JsValue;
  checkpoints : list Checkpoint;
  selectedCheckpoint : option Checkpoint;
  isHistoryLoading : bool;
  showTimeline : bool
}.

Definition initial : State := {|
  messages := []; isLoading := false; threads := []; currentThreadId := None;
  progressStatus := JNull; checkpoints := []; selectedCheckpoint := None;
  isHistoryLoading := false; showTimeline := false |}.

Definition setMessages (v : list ChatMessage) (st : State) : State := {|
  messages := v; isLoading := isLoading st; threads := threads st;
  currentThreadId := currentThreadId st; progressStatus := progressStatus st;
  checkpoints := checkpoints st; selectedCheckpoint := selectedCheckpoint st;
  isHistoryLoading := isHistoryLoading st; showTimeline := showTimeline st |}.

Definition setIsLoading (v : bool) (st : State) : State := {|
  messages := messages st; isLoading := v; threads := threads st;
  currentThreadId := currentThreadId st; progressStatus := progressStatus st;
  checkpoints := checkpoints st; selectedCheckpoint := selectedCheckpoint st;
  isHistoryLoading := isHistoryLoading st; showTimeline := showTimeline st |}.

Definition setThreads (v : list Thread) (st : State) : State := {|
  messages := messages st; isLoading := isLoading st; threads := v;
  currentThreadId := currentThreadId st; progressStatus := progressStatus st;
  checkpoints := checkpoints st; selectedCheckpoint := selectedCheckpoint st;
  isHistoryLoading := isHistoryLoading st; showTimeline := showTimeline st |}.

Definition setCurrentThreadId (v : option jstring) (st : State) : State := {|
  messages := messages st; isLoading := isLoading st; threads := threads st;
  currentThreadId := v; progressStatus := progressStatus st;
  checkpoints := checkpoints st; selectedCheckpoint := selectedCheckpoint st;
  isHistoryLoading := isHistoryLoading st; showTimeline := showTimeline st |}.

Definition setProgressStatus (v : JsValue) (st : State) : State := {|
  messages := messages st; isLoading := isLoading st; threads := threads st;
  currentThreadId := currentThreadId st; progressStatus := v;
  checkpoints := checkpoints st; selectedCheckpoint := selectedCheckpoint st;
  isHistoryLoading := isHistoryLoading st; showTimeline := showTimeline st |}.

Definition setCheckpoints (v : list Checkpoint) (st : State) : State := {|
  messages := messages st; isLoading := isLoading st; threads := threads st;
  currentThreadId := currentThreadId st; progressStatus := progressStatus st;
  checkpoints := v; selectedCheckpoint := selectedCheckpoint st;
  isHistoryLoading := isHistoryLoading st; showTimeline := showTimeline st |}.

Definition setSelectedCheckpoint (v : option Checkpoint) (st : State) : State := {|
  messages := messages st; isLoading := isLoading st; threads := threads st;
  currentThreadId := currentThreadId st; progressStatus := progressStatus st;
  checkpoints := checkpoints st; selectedCheckpoint := v;
  isHistoryLoading := isHistoryLoading st; showTimeline := showTimeline st |}.

Definition setIsHistoryLoading (v : bool) (st : State) : State := {|
  messages := messages st; isLoading := isLoading st; threads := threads st;
  currentThreadId := currentThreadId st; progressStatus := progressStatus st;
  checkpoints := checkpoints st; selectedCheckpoint := selectedCheckpoint st;
  isHistoryLoading := v; showTimeline := showTimeline st |}.

(** The answers of the outside world to one operation of the hook. An
    API call that throws answers [None]. *)
Record World : Type := {
  created_thread : option Thread;            (* createThread *)
  fetched_threads : option (list Thread);    (* fetchThreads *)
  first_history : option (list Checkpoint);  (* fetchThreadHistory in editMessage *)
  later_history : option (list Checkpoint);  (* fetchThreadHistory in loadHistory *)
  now_user : N;                              (* Date.now() for the user message *)
  now_ai : N;                                (* Date.now() for the placeholder *)
  stream : HttpResponse;                     (* the answer to the chat or fork request *)
  thread_rows : option (list Message);       (* fetchMessages in the effect fired by a
                                                send that creates its thread *)
  rows_after : nat                           (* the events of the stream handled before
                                                that answer arrives *)
}.

(** The truthy thread id, if any: [null] and the empty string are
    falsy. *)
Definition active_thread (st : State) : option jstring :=
  match currentThreadId st with
  | Some t => if nonEmpty t then Some t else None
  | None => None
  end.

(** [!content.trim()] *)
Definition blank (content : jstring) : bool := negb (nonEmpty (trim content)).

Definition FAILED_TEXT : jstring := str "Failed to get response. Please try again.".

(** The element of [loadMessages] for one row of the Message table. *)
Definition message_of_row (msg : Message) : ChatMessage := {|
  id := str "db-" ++ number_to_string (msg_id msg);
  role := msg_role msg;
  content := msg_content msg;
  attachments := Some (msg_attachments msg);
  isStreaming := None |}.

(** [checkpoint.messages.map((msg, idx) => ...)] of [selectCheckpoint],
    from index [idx] on. *)
Fixpoint checkpoint_messages_from (cpid : jstring) (idx : nat)
  (l : list CheckpointMessage) : list ChatMessage :=
  match l with
  | [] => []
  | msg :: rest =>
      {| id := str "checkpoint-" ++ cpid ++ str "-" ++ number_to_string (N.of_nat idx);
         role := if jeqb (cm_role msg) (str "human") then human else ai;
         content := cm_content msg;
         attachments := None;
         isStreaming := None |}
      :: checkpoint_messages_from cpid (S idx) rest
  end.

Definition placeholder (aiMessageId : jstring) : ChatMessage := {|
  id := aiMessageId; role := ai; content := []; attachments := None;
  isStreaming := Some true |}.

(** [prev.map(msg => msg.id === aiMessageId ? f(msg) : msg)] *)
Definition update_message (aiMessageId : jstring) (f : ChatMessage -> ChatMessage)
  (st : State) : State :=
  setMessages
    (map (fun msg => if jeqb (id msg) aiMessageId then f msg else msg) (messages st))
    st.

(** [{ ...msg, content: c }] *)
Definition with_content (c : jstring) (msg : ChatMessage) : ChatMessage := {|
  id := id msg; role := role msg; content := c;
  attachments := attachments msg; isStreaming := isStreaming msg |}.

(** [{ ...msg, isStreaming: false }] *)
Definition not_streaming (msg : ChatMessage) : ChatMessage := {|
  id := id msg; role := role msg; content := content msg;
  attachments := attachments msg; isStreaming := Some false |}.

(** [isPreviewingCheckpoint], as the page passes it to [ChatWindow]. *)
Definition isPreviewingCheckpoint (st : State) : bool :=
  match selectedCheckpoint st with
  | Some _ => true
  | None => false
  end.

(** [canEdit] of the message bubble, as [ChatWindow] computes it. *)
Definition canEdit (st : State) (message : ChatMessage) : bool :=
  match role message with
  | human => negb (isLoading st) && negb (isPreviewingCheckpoint st)
  | ai => false
  end.

Section Hook.

Variable userId : jstring.
Variable JSON_parse : jstring -> Exn JsValue.
Variable JSON_stringify : JsValue -> JsValue.

Definition refreshThreads (answer : option (list Thread)) (st : State)
  : State * list Request :=
  (match answer with
   | Some fetchedThreads => setThreads fetchedThreads st
   | None => st
   end,
   [GetThreads userId]).

Definition loadMessages (threadId : jstring) (answer : option (list Message))
  (st : State) : State * list Request :=
  (match answer with
   | Some fetchedMessages => setMessages (map message_of_row fetchedMessages) st
   | None => st
   end,
   [GetMessages threadId]).

(** The effect that runs when [currentThreadId] has changed. *)
Definition thread_changed (answer : option (list Message)) (st : State)
  : State * list Request :=
  match active_thread st with
  | Some t => loadMessages t answer st
  | None => (setMessages [] st, [])
  end.

Definition createNewThread (answer : option Thread) (st : State)
  : State * list Request :=
  (match answer with
   | Some thread =>
       setMessages []
         (setCurrentThreadId (Some (thread_id_of thread))
            (setThreads (thread :: threads st) st))
   | None => st
   end,
   [PostThread userId None]).

Definition selectThread (threadId : jstring) (st : State) : State :=
  setCurrentThreadId (Some threadId) st.

(** [currentThreadId === threadId] *)
Definition is_current (st : State) (threadId : jstring) : bool :=
  match currentThreadId st with
  | Some t => jeqb t threadId
  | None => false
  end.

(** [deleteThread(threadId)]; [deleted] says that [deleteThreadApi]
    did not throw. *)
Definition deleteThread (threadId : jstring) (deleted : bool) (st : State)
  : State * list Request :=
  (if deleted then
     let st1 :=
       setThreads
         (filter (fun t => negb (jeqb (thread_id_of t) threadId)) (threads st)) st in
     if is_current st threadId
     then setMessages [] (setCurrentThreadId None st1)
     else st1
   else st,
   [DeleteThread threadId]).

Definition loadHistory (answer : option (list Checkpoint)) (st : State)
  : State * list Request :=
  match active_thread st with
  | None => (st, [])
  | Some t =>
      let st1 := setIsHistoryLoading true st in
      let st2 :=
        match answer with
        | Some history => setCheckpoints history st1
        | None => st1
        end in
      (setIsHistoryLoading false st2, [GetHistory t])
  end.

Definition selectCheckpoint (checkpoint : option Checkpoint)
  (answer : option (list Message)) (st : State) : State * list Request :=
  let st1 := setSelectedCheckpoint checkpoint st in
  match checkpoint with
  | Some c =>
      (setMessages (checkpoint_messages_from (checkpoint_id c) 0 (cp_messages c)) st1,
       [])
  | None =>
      match active_thread st with
      | Some t => loadMessages t answer st1
      | None => (st1, [])
      end
  end.

(** The user message and the placeholder that the three streaming
    operations add before they open the stream; the result carries
    [aiMessageId]. *)
Definition add_optimistic (text : jstring) (files : list MessageAttachment)
  (w : World) (st : State) : State * jstring :=
  let userMessage := {|
    id := str "user-" ++ number_to_string (now_user w);
    role := human; content := text; attachments := Some files;
    isStreaming := None |} in
  let st1 := setMessages (messages st ++ [userMessage]) st in
  let st2 := setIsLoading true st1 in
  let aiMessageId := str "ai-" ++ number_to_string (now_ai w) in
  (setMessages (messages st2 ++ [placeholder aiMessageId]) st2, aiMessageId).

(** [progressData?.Progress || JSON.stringify(progressData)] *)
Definition progress_text (progressData : JsValue) : JsValue :=
  js_or (get_prop_opt progressData (str "Progress")) (JSON_stringify progressData).

(** The body of the [for await] loop of [sendMessage]. Reading
    [event.type] throws when the value yielded is [null]. *)
Definition send_on_event (aiMessageId : jstring) (event : JsValue) (st : State)
  : Exn State :=
  match get_prop event (str "type"), get_prop event (str "content") with
  | Raise e, _ | _, Raise e => Raise e
  | Ok ty, Ok c =>
      if is_string (str "progress") ty then
        Ok (setProgressStatus (progress_text c) st)
      else if is_string (str "token") ty then
        let tokenContent := string_or c [] in
        Ok (update_message aiMessageId
              (fun msg => with_content (content msg ++ tokenContent) msg) st)
      else if is_string (str "message") ty then
        let messageContent := string_or c [] in
        Ok (update_message aiMessageId
              (fun msg => not_streaming (with_content messageContent msg)) st)
      else if is_string (str "done") ty then
        Ok (update_message aiMessageId not_streaming (setProgressStatus JNull st))
      else if is_string (str "error") ty then
        let errorContent := string_or c (str "Something went wrong") in
        Ok (update_message aiMessageId
              (fun msg => not_streaming (with_content (str "Error: " ++ errorContent) msg))
              (setProgressStatus JNull st))
      else Ok st
  end.

(** The body of the [for await] loop of [forkFromCheckpoint]. *)
Definition fork_on_event (aiMessageId : jstring) (event : JsValue) (st : State)
  : Exn State :=
  match get_prop event (str "type"), get_prop event (str "content") with
  | Raise e, _ | _, Raise e => Raise e
  | Ok ty, Ok c =>
      if is_string (str "progress") ty then
        Ok (setProgressStatus (progress_text c) st)
      else if is_string (str "token") ty then
        let tokenContent := string_or c [] in
        Ok (update_message aiMessageId
              (fun msg => with_content (content msg ++ tokenContent) msg) st)
      else if is_string (str "done") ty then
        Ok (update_message aiMessageId not_streaming (setProgressStatus JNull st))
      else if is_string (str "error") ty then
        let errorContent := string_or c (str "Something went wrong") in
        Ok (update_message aiMessageId
              (fun msg => not_streaming (with_content (str "Error: " ++ errorContent) msg))
              (setProgressStatus JNull st))
      else Ok st
  end.

(** The body of the [for await] loop of the second branch of
    [editMessage]. *)
Definition edit_on_event (aiMessageId : jstring) (event : JsValue) (st : State)
  : Exn State :=
  match get_prop event (str "type"), get_prop event (str "content") with
  | Raise e, _ | _, Raise e => Raise e
  | Ok ty, Ok c =>
      if is_string (str "progress") ty then
        Ok (setProgressStatus (progress_text c) st)
      else if is_string (str "token") ty then
        let tokenContent := string_or c [] in
        Ok (update_message aiMessageId
              (fun msg => with_content (content msg ++ tokenContent) msg) st)
      else if is_string (str "done") ty then
        Ok (update_message aiMessageId not_streaming (setProgressStatus JNull st))
      else if is_string (str "error") ty then
        let errorContent := string_or c (str "Something went wrong") in
        Ok (update_message aiMessageId
              (fun msg => not_streaming (with_content (str "Error: " ++ errorContent) msg))
              (setProgressStatus JNull st))
      else Ok st
  end.

(** [for await (const event of ...)]: the values are handled in the
    order they are yielded; when the body throws, the loop is left with
    the state reached so far. *)
Fixpoint for_await (on_event : JsValue -> State -> Exn State)
  (events : list JsValue) (st : State) : State * option JsError :=
  match events with
  | [] => (st, None)
  | event :: rest =>
      match on_event event st with
      | Ok st' => for_await on_event rest st'
      | Raise e => (st, Some e)
      end
  end.

(** The [catch] block of the three streaming operations. *)
Definition on_failure (aiMessageId : jstring) (st : State) : State :=
  update_message aiMessageId
    (fun msg => not_streaming (with_content FAILED_TEXT msg))
    (setProgressStatus JNull st).

(** The [finally] block of the three streaming operations. *)
Definition finally (st : State) : State :=
  setProgressStatus JNull (setIsLoading false st).

(** The [try] statement of [sendMessage]. *)
Definition send_stream (text threadId : jstring)
  (files : option (list MessageAttachment)) (aiMessageId : jstring)
  (w : World) (st : State) : State * list Request :=
  let run := streamChat JSON_parse text threadId userId files (stream w) in
  let looped := for_await (send_on_event aiMessageId) (fst (snd run)) st in
  match snd looped, snd (snd run) with
  | None, Returned =>
      let refreshed := refreshThreads (fetched_threads w) (fst looped) in
      (finally (fst refreshed), fst run :: snd refreshed)
  | _, _ => (finally (on_failure aiMessageId (fst looped)), [fst run])
  end.

(** The thread a send goes to and the state it starts from: the
    current thread, or a thread created for it and made current; no
    thread when [createThread] throws. *)
Definition send_thread (w : World) (st : State)
  : option (jstring * State) * list Request :=
  match active_thread st with
  | Some threadId => (Some (threadId, st), [])
  | None =>
      (match created_thread w with
       | Some thread =>
           Some (thread_id_of thread,
                 setCurrentThreadId (Some (thread_id_of thread))
                   (setThreads (thread :: threads st) st))
       | None => None
       end,
       [PostThread userId None])
  end.

(** [Object.is] on two values of the cell [currentThreadId]. *)
Definition same_thread (a b : option jstring) : bool :=
  match a, b with
  | Some x, Some y => jeqb x y
  | None, None => true
  | _, _ => false
  end.

(** The [try] statement of [sendMessage] when the send has changed
    [currentThreadId]. The hook is rendered again once the chat request
    is sent, and the effect on [currentThreadId] runs: it is
    [thread_changed]. For a thread id that is not empty the update of
    its [loadMessages] is made when the rows arrive, after
    [rows_after w] events of the stream have been handled, or after the
    loop when it handles fewer; when the loop is left by an exception
    before, the [catch] and [finally] blocks have run by then. For the
    empty thread id the effect empties the display at once. *)
Definition send_stream_created (text threadId : jstring)
  (files : option (list MessageAttachment)) (aiMessageId : jstring)
  (w : World) (st : State) : State * list Request :=
  let run := streamChat JSON_parse text threadId userId files (stream w) in
  let arrival := if nonEmpty threadId then rows_after w else 0 in
  let asked := fst run :: snd (thread_changed (thread_rows w) st) in
  let early :=
    for_await (send_on_event aiMessageId) (firstn arrival (fst (snd run))) st in
  match snd early with
  | Some _ =>
      (fst (thread_changed (thread_rows w)
              (finally (on_failure aiMessageId (fst early)))),
       asked)
  | None =>
      let loaded := fst (thread_changed (thread_rows w) (fst early)) in
      let late :=
        for_await (send_on_event aiMessageId) (skipn arrival (fst (snd run))) loaded in
      match snd late, snd (snd run) with
      | None, Returned =>
          let refreshed := refreshThreads (fetched_threads w) (fst late) in
          (finally (fst refreshed), asked ++ snd refreshed)
      | _, _ => (finally (on_failure aiMessageId (fst late)), asked)
      end
  end.

Definition sendMessage (text : jstring) (files : option (list MessageAttachment))
  (w : World) (st : State) : State * list Request :=
  if blank text || isLoading st then (st, [])
  else
    match send_thread w st with
    | (None, asked) => (st, asked)
    | (Some (threadId, st0), asked) =>
        let o := add_optimistic text (or_empty files) w st0 in
        let r :=
          if same_thread (currentThreadId st0) (currentThreadId st)
          then send_stream text threadId files (snd o) w (fst o)
          else send_stream_created text threadId files (snd o) w (fst o) in
        (fst r, asked ++ snd r)
    end.

(** The [try] statement of [forkFromCheckpoint]. *)
Definition fork_stream (text threadId checkpointId : jstring)
  (files : option (list MessageAttachment)) (aiMessageId : jstring)
  (w : World) (st : State) : State * list Request :=
  let run := streamFork JSON_parse text threadId userId checkpointId files (stream w) in
  let looped := for_await (fork_on_event aiMessageId) (fst (snd run)) st in
  match snd looped, snd (snd run) with
  | None, Returned =>
      let reloaded := loadHistory (later_history w) (fst looped) in
      let refreshed := refreshThreads (fetched_threads w) (fst reloaded) in
      (finally (fst refreshed), fst run :: snd reloaded ++ snd refreshed)
  | _, _ => (finally (on_failure aiMessageId (fst looped)), [fst run])
  end.

Definition forkFromCheckpoint (text checkpointId : jstring)
  (files : option (list MessageAttachment)) (w : World) (st : State)
  : State * list Request :=
  if blank text || isLoading st then (st, [])
  else
    match active_thread st with
    | None => (st, [])
    | Some threadId =>
        let st1 := setSelectedCheckpoint None st in
        let o := add_optimistic text (or_empty files) w st1 in
        fork_stream text threadId checkpointId files (snd o) w (fst o)
    end.

(** The [try] statement of the second branch of [editMessage]. *)
Definition edit_stream (text threadId : jstring)
  (files : list MessageAttachment) (aiMessageId : jstring)
  (w : World) (st : State) : State * list Request :=
  let run := streamChat JSON_parse text threadId userId (Some files) (stream w) in
  let looped := for_await (edit_on_event aiMessageId) (fst (snd run)) st in
  match snd looped, snd (snd run) with
  | None, Returned =>
      let reloaded := loadHistory (later_history w) (fst looped) in
      let refreshed := refreshThreads (fetched_threads w) (fst reloaded) in
      (finally (fst refreshed), fst run :: snd reloaded ++ snd refreshed)
  | _, _ => (finally (on_failure aiMessageId (fst looped)), [fst run])
  end.

(** [originalMessage?.attachments || []] *)
Definition original_attachments (st : State) (messageIndex : nat)
  : list MessageAttachment :=
  match nth_error (messages st) messageIndex with
  | Some originalMessage => or_empty (attachments originalMessage)
  | None => []
  end.

(** The checkpoint list that [editMessage] searches, the state after
    it was obtained, and the request made to obtain it. *)
Definition edit_history (threadId : jstring) (w : World) (st : State)
  : list Checkpoint * State * list Request :=
  if Nat.eqb (length (checkpoints st)) 0 then
    match first_history w with
    | Some history => (history, setCheckpoints history st, [GetHistory threadId])
    | None => (checkpoints st, st, [GetHistory threadId])
    end
  else (checkpoints st, st, []).

(** [history.find(cp => cp.messages.length === targetMessageCount)] *)
Definition find_checkpoint (targetMessageCount : nat) (history : list Checkpoint)
  : option Checkpoint :=
  find (fun cp => Nat.eqb (length (cp_messages cp)) targetMessageCount) history.

(** [editMessage(newContent, messageIndex)]. The answer to the
    truncation request is not used: a failure is logged and the
    function goes on. *)
Definition editMessage (newContent : jstring) (messageIndex : nat)
  (w : World) (st : State) : State * list Request :=
  if blank newContent || isLoading st then (st, [])
  else
    match active_thread st with
    | None => (st, [])
    | Some threadId =>
        let originalAttachments := original_attachments st messageIndex in
        let truncation := truncateMessages threadId messageIndex in
        let '(history, st1, asked) := edit_history threadId w st in
        let targetMessageCount := messageIndex in
        let truncatedMessages := firstn messageIndex (messages st) in
        match find_checkpoint targetMessageCount history with
        | Some targetCheckpoint =>
            let st2 := setMessages truncatedMessages st1 in
            let r :=
              forkFromCheckpoint newContent (checkpoint_id targetCheckpoint)
                (Some originalAttachments) w st2 in
            (fst r, truncation :: asked ++ snd r)
        | None =>
            let st2 := setMessages truncatedMessages st1 in
            let o := add_optimistic newContent originalAttachments w st2 in
            let r :=
              edit_stream newContent threadId originalAttachments (snd o) w (fst o) in
            (fst r, truncation :: asked ++ snd r)
        end
    end.

End Hook.

End UseChat.

Import UseChat.

(* ------------------------------------------------------------------ *)
(** * The specification's vocabulary *)
(* ------------------------------------------------------------------ *)

(** The definitions of this part follow the words of the
    specification, or name what the proofs keep track of; the theorems
    compare them with the code above. *)
Module Spec.

(** A [done] or [error] event: a value whose [type] is one of the two
    strings. *)
Definition is_terminal (v : JsValue) : bool :=
  match get_prop v (str "type") with
  | Ok ty => is_string (str "done") ty || is_string (str "error") ty
  | Raise _ => false
  end.

(** The events up to and including the first [done] or [error]. *)
Fixpoint until_terminal (events : list JsValue) : list JsValue :=
  match events with
  | [] => []
  | v :: rest => if is_terminal v then [v] else v :: until_terminal rest
  end.

(** The shape shared by the loop bodies of the readers: the events
    [events] are yielded up to the first terminal one, after which the
    generator returns. *)
Definition cut (events : list JsValue) : gen unit :=
  (until_terminal events,
   if existsb is_terminal events then Returns else Normal tt).

(** [event] is an event of kind [kind]: its [type] is that string. *)
Definition has_kind (kind : jstring) (event : JsValue) : Prop :=
  get_prop event (str "type") = Ok (JStr kind).

(** The content of [event] is the string [text]. *)
Definition has_text (text : jstring) (event : JsValue) : Prop :=
  get_prop event (str "content") = Ok (JStr text).

Section Framing.

Variable JSON_parse : jstring -> Exn JsValue.

(** A line prefixed with [data: ] gives the value of its payload; a
    payload that does not parse, or a line without the prefix, gives
    nothing. *)
Definition line_events (line : jstring) : list JsValue :=
  if startsWith DATA_PREFIX line then
    match JSON_parse (slice_from 6 line) with
    | Ok v => [v]
    | Raise _ => []
    end
  else [].

(** The events of the lines of a frame, in order. *)
Definition frame_events (frame : jstring) : list JsValue :=
  flat_map line_events (split [LF] (trim frame)).

(** What is read from the text left after the last blank line, by
    the way the body ends. *)
Definition tail_events (ending : StreamEnd) (buffer : jstring) : list JsValue :=
  match ending with
  | EndOfStream => fst (on_done JSON_parse buffer)
  | ReadFailure => []
  end.

(** The events of a response text: its frames are the pieces between
    blank lines. *)
Definition body_events (text : jstring) : list JsValue :=
  flat_map frame_events (split BLANK_LINE text).

End Framing.

(** The name of a display role, as checkpoints record roles. *)
Definition role_name (r : Role) : jstring :=
  match r with
  | human => str "human"
  | ai => str "ai"
  end.

(** [shown] displays the recorded messages [recorded]: same length,
    and position by position the same role and content. *)
Definition displays_exactly (recorded : list CheckpointMessage)
  (shown : list ChatMessage) : Prop :=
  Forall2
    (fun cm m => role_name (role m) = cm_role cm /\ content m = cm_content cm)
    recorded shown.

(** As [displays_exactly], with a recorded role other than [human]
    shown as [ai]. *)
Definition displays_normalised (recorded : list CheckpointMessage)
  (shown : list ChatMessage) : Prop :=
  Forall2
    (fun cm m =>
       role m = (if jeqb (cm_role cm) (str "human") then human else ai)
       /\ content m = cm_content cm)
    recorded shown.

(** [now] is [base] after stream events were applied for the
    placeholder [aiMessageId]: the same messages in the same order,
    where only the content and the streaming flag of a message carrying
    that id may differ. *)
Definition evolved (aiMessageId : jstring) (base now : list ChatMessage) : Prop :=
  Forall2
    (fun b m =>
       id m = id b /\ role m = role b /\ attachments m = attachments b
       /\ (id b <> aiMessageId -> m = b))
    base now.

(** An update of a message that keeps its id, role and attachments. *)
Definition keeps_shape (f : ChatMessage -> ChatMessage) : Prop :=
  forall m, id (f m) = id m /\ role (f m) = role m
            /\ attachments (f m) = attachments m.

(** What every step of a streaming operation keeps: the messages only
    evolve, and the checkpoint selection stays. *)
Definition steady (aiMessageId : jstring) (st st' : State) : Prop :=
  evolved aiMessageId (messages st) (messages st')
  /\ selectedCheckpoint st' = selectedCheckpoint st.


(** The chat and fork requests of a trace. *)
Definition is_stream_request (r : Request) : bool :=
  match r with
  | PostChat _ _ _ _ | PostFork _ _ _ _ _ => true
  | _ => false
  end.

Definition stream_requests (trace : list Request) : list Request :=
  filter is_stream_request trace.

End Spec.

Import Spec.

(* ------------------------------------------------------------------ *)
(** * Data of the worked examples *)
(* ------------------------------------------------------------------ *)

Module Sample.

Definition USER : jstring := str "user_demo".
Definition THREAD : jstring := str "thread-1".

Definition event (kind : string) (payload : option JsValue) : JsValue :=
  JObj ((str "type", JStr (str kind))
        :: match payload with
           | Some c => [(str "content", c)]
           | None => []
           end).

Definition token (text : string) : JsValue := event "token" (Some (JStr (str text))).
Definition full_message (text : string) : JsValue :=
  event "message" (Some (JStr (str text))).
Definition done : JsValue := event "done" None.

(** The [data: ] line of an event and the frame made of it. *)
Definition data_line (v : JsValue) : jstring := DATA_PREFIX ++ Json.write v.
Definition frame (v : JsValue) : jstring := data_line v ++ BLANK_LINE.

Definition world (response : HttpResponse) : World := {|
  created_thread := None;
  fetched_threads := Some [];
  first_history := None;
  later_history := None;
  now_user := 1700000000000%N;
  now_ai := 1700000000001%N;
  stream := response;
  thread_rows := None;
  rows_after := 0 |}.

(** The same answers, for a hook that has no thread yet: the server
    creates [thread-9], and the rows of the new thread, none so far,
    arrive after the first event of the stream. *)
Definition world_creating (response : HttpResponse) : World := {|
  created_thread := Some {|
    thread_id_of := str "thread-9"; thread_user_id := USER; thread_title := None;
    thread_created_at := None; thread_updated_at := None |};
  fetched_threads := None;
  first_history := None;
  later_history := None;
  now_user := 1700000000000%N;
  now_ai := 1700000000001%N;
  stream := response;
  thread_rows := Some [];
  rows_after := 1 |}.

Definition row (n : N) (r : Role) (text : string) : Message := {|
  msg_id := n; msg_thread_id := THREAD; msg_user_id := Some USER;
  msg_role := r; msg_content := str text; msg_message_id := None;
  msg_attachments := []; msg_created_at := None |}.

(** A Message table of one exchange and the checkpoint taken after
    it. *)
Definition table : list Message := [row 1 human "H1"; row 2 ai "A1"].

Definition recorded (r text : string) : CheckpointMessage :=
  {| cm_role := str r; cm_content := str text |}.

Definition checkpoint (cid : string) (st : Z) (l : list CheckpointMessage)
  : Checkpoint := {|
  checkpoint_id := str cid; cp_thread_id := THREAD; checkpoint_ns := [];
  parent_checkpoint_id := None; cp_created_at := None; step := st;
  cp_messages := l |}.

Definition cp0 : Checkpoint :=
  checkpoint "cp-0" 0 [recorded "human" "H1"; recorded "ai" "A1"].

(** A checkpoint whose history starts with a system message. *)
Definition cp_system : Checkpoint :=
  checkpoint "cp-s" 0 [recorded "system" "be brief"; recorded "human" "H1"].

(** The hook after the thread was opened from the side bar, its
    messages were loaded and the timeline was opened. *)
Definition live : State :=
  fst (loadHistory (Some [cp0])
         (fst (thread_changed (Some table) (selectThread THREAD initial)))).

(** The hook with [cp0] selected for preview. *)
Definition previewing : State := fst (selectCheckpoint (Some cp0) None live).

Definition thread (tid : string) : Thread := {|
  thread_id_of := str tid; thread_user_id := USER; thread_title := None;
  thread_created_at := None; thread_updated_at := None |}.

(** The same with two threads in the side bar. *)
Definition two_threads : State :=
  fst (refreshThreads USER (Some [thread "thread-1"; thread "thread-2"]) live).

Definition send (text : string) (w : World) (st : State) : State * list Request :=
  sendMessage USER Json.parse Json.stringify (str text) None w st.

Definition fork (text : string) (cp : Checkpoint) (w : World) (st : State)
  : State * list Request :=
  forkFromCheckpoint USER Json.parse Json.stringify (str text) (checkpoint_id cp)
    None w st.

Definition edit (text : string) (i : nat) (w : World) (st : State)
  : State * list Request :=
  editMessage USER Json.parse Json.stringify (str text) i w st.

(** An answer streamed in two tokens. *)
Definition hello : HttpResponse :=
  Body [frame (token "Hel"); frame (token "lo") ++ frame done] EndOfStream.

(** The hook after the message [H2] was sent from [live] and answered,
    and the Message table as it is then. *)
Definition after_send : State := fst (send "H2" (world hello) live).

Definition table_after_send : list Message :=
  table ++ [row 3 human "H2"; row 4 ai "Hello"].

End Sample.

(* ------------------------------------------------------------------ *)
(** * The components around the hook

    The parts below embed more of the front end: the timeline switch
    of the hook, the page's handler for a thread
    created by an upload, the editing state and the size format of
    [MessageBubble.tsx], the item handlers of [TimelinePanel.tsx], and
    the file list of [InputArea.tsx]. An operation of a component is
    modelled like one of the hook: the answers of the outside are
    inputs, and the calls it makes are returned as a trace. *)
(* ------------------------------------------------------------------ *)

(* ------------------------------------------------------------------ *)
(** * The hook: the timeline switch *)
(* ------------------------------------------------------------------ *)

Module Timeline.

Definition setShowTimeline (v : bool) (st : State) : State := {|
  messages := messages st; isLoading := isLoading st; threads := threads st;
  currentThreadId := currentThreadId st; progressStatus := progressStatus st;
  checkpoints := checkpoints st; selectedCheckpoint := selectedCheckpoint st;
  isHistoryLoading := isHistoryLoading st; showTimeline := v |}.

(** [toggleTimeline()]: the updater flips the flag and, when the
    timeline opens on a thread, starts [loadHistory]. *)
Definition toggleTimeline (answer : option (list Checkpoint)) (st : State)
  : State * list Request :=
  let newValue := negb (showTimeline st) in
  match active_thread st with
  | Some _ =>
      if newValue then
        let r := loadHistory answer st in
        (setShowTimeline newValue (fst r), snd r)
      else (setShowTimeline newValue st, [])
  | None => (setShowTimeline newValue st, [])
  end.

End Timeline.

(* ------------------------------------------------------------------ *)
(** * The page: a thread created by an upload *)
(* ------------------------------------------------------------------ *)

Module Page.

(** [handleThreadCreatedFromUpload(threadId)] of the page: the thread
    is selected and the thread list is asked for again. *)
Definition handleThreadCreatedFromUpload (userId threadId : jstring)
  (answer : option (list Thread)) (st : State) : State * list Request :=
  refreshThreads userId answer (selectThread threadId st).

End Page.

(* ------------------------------------------------------------------ *)
(** * The message bubble *)
(* ------------------------------------------------------------------ *)

Module MessageBubble.

(** [(num / den).toFixed(1)] where [den] is a power of two and [num] an
    integer below [2 ^ 53], so that the quotient is computed exactly:
    the tenths nearest to the quotient, the larger one on a tie,
    written with one digit after the point. *)
Definition toFixed1 (num den : N) : jstring :=
  let n := ((20 * num + den) / (2 * den))%N in
  number_to_string (n / 10) ++ str "." ++ number_to_string (n mod 10).

(** [formatFileSize(bytes)] for a size that is a non-negative integer
    below [2 ^ 53]. *)
Definition formatFileSize (bytes : N) : jstring :=
  if (bytes <? 1024)%N then number_to_string bytes ++ str " B"
  else if (bytes <? 1024 * 1024)%N then toFixed1 bytes 1024 ++ str " KB"
  else toFixed1 bytes (1024 * 1024) ++ str " MB".

(** The two state cells of a bubble. *)
Record EditState : Type := {
  isEditing : bool;
  editedContent : jstring
}.

(** The state of a bubble when it is mounted for [content]. *)
Definition mounted (content : jstring) : EditState :=
  {| isEditing := false; editedContent := content |}.

Definition setEditedContent (v : jstring) (es : EditState) : EditState :=
  {| isEditing := isEditing es; editedContent := v |}.

Definition handleStartEdit (content : jstring) (es : EditState) : EditState :=
  {| isEditing := true; editedContent := content |}.

(** [handleSaveEdit()]: the arguments of the call of [onEdit], if it is
    called, and the state after. [onEdit] says whether the property is
    given. *)
Definition handleSaveEdit (content : jstring) (messageIndex : nat) (onEdit : bool)
  (es : EditState) : option (jstring * nat) * EditState :=
  (if nonEmpty (trim (editedContent es))
      && negb (jeqb (editedContent es) content)
      && onEdit
   then Some (trim (editedContent es), messageIndex)
   else None,
   {| isEditing := false; editedContent := editedContent es |}).

End MessageBubble.

(* ------------------------------------------------------------------ *)
(** * The timeline panel *)
(* ------------------------------------------------------------------ *)

Module TimelinePanel.

(** [selectedCheckpoint?.checkpoint_id === checkpoint.checkpoint_id] *)
Definition isSelected (selected : option Checkpoint) (checkpoint : Checkpoint) : bool :=
  match selected with
  | Some s => jeqb (checkpoint_id s) (checkpoint_id checkpoint)
  | None => false
  end.

(** The argument that a click on the item of [checkpoint] passes to
    [onSelectCheckpoint]. *)
Definition onSelect (selected : option Checkpoint) (checkpoint : Checkpoint)
  : option Checkpoint :=
  if isSelected selected checkpoint then None else Some checkpoint.

(** [handleFork]: the arguments of the call of [onFork], if it is
    called; [answer] is what [window.prompt] returns, [None] for
    [null]. *)
Definition handleFork (answer : option jstring) (checkpoint : Checkpoint)
  : option (jstring * jstring) :=
  match answer with
  | Some message =>
      if nonEmpty (trim message)
      then Some (message, checkpoint_id checkpoint)
      else None
  | None => None
  end.

End TimelinePanel.

(* ------------------------------------------------------------------ *)
(** * The input area *)
(* ------------------------------------------------------------------ *)

Module InputArea.

(** [status] of a selected file. *)
Inductive FileStatus : Type :=
| pending | uploading | processing | ready | failed (* "error" *) | deleting.

Definition status_eqb (a b : FileStatus) : bool :=
  match a, b with
  | pending, pending | uploading, uploading | processing, processing
  | ready, ready | failed, failed | deleting, deleting => true
  | _, _ => false
  end.

(** What the component reads of a [File]. *)
Record File : Type := {
  file_name : jstring;                  (* name *)
  file_size : N;                        (* size *)
  file_type : jstring                   (* type *)
}.

Record SelectedFile : Type := {
  file : File;
  status : FileStatus;
  progress : N;
  error_text : option jstring;          (* error *)
  file_key : option jstring             (* s3_key *)
}.

(** What the component reads of an entry of the answer to an upload. *)
Record UploadedFile : Type := {
  up_filename : jstring;                (* filename *)
  up_key : option jstring;              (* key *)
  up_error : option jstring             (* error *)
}.

(** The state cells of the component and the keys of the map of
    polling timers. *)
Record State : Type := {
  input : jstring;
  selectedFiles : list SelectedFile;
  isUploading : bool;
  overallProgress : N;
  polling : list jstring                (* pollingIntervalsRef.current *)
}.

Definition initial : State := {|
  input := []; selectedFiles := []; isUploading := false; overallProgress := 0%N;
  polling := [] |}.

Definition setInput (v : jstring) (st : State) : State := {|
  input := v; selectedFiles := selectedFiles st; isUploading := isUploading st;
  overallProgress := overallProgress st; polling := polling st |}.

Definition setSelectedFiles (v : list SelectedFile) (st : State) : State := {|
  input := input st; selectedFiles := v; isUploading := isUploading st;
  overallProgress := overallProgress st; polling := polling st |}.

Definition setIsUploading (v : bool) (st : State) : State := {|
  input := input st; selectedFiles := selectedFiles st; isUploading := v;
  overallProgress := overallProgress st; polling := polling st |}.

Definition setOverallProgress (v : N) (st : State) : State := {|
  input := input st; selectedFiles := selectedFiles st; isUploading := isUploading st;
  overallProgress := v; polling := polling st |}.

Definition setPolling (v : list jstring) (st : State) : State := {|
  input := input st; selectedFiles := selectedFiles st; isUploading := isUploading st;
  overallProgress := overallProgress st; polling := v |}.

(** What the component asks of the outside: calls of the API client,
    calls of its callback properties, and timers. *)
Inductive Call : Type :=
| CreateThread (user_id : jstring)
| ThreadCreated (thread_id : jstring)                  (* onThreadCreated *)
| UploadFiles (files : list File) (user_id thread_id : jstring)
| PollLater (filenames : list jstring) (thread_id : jstring) (* setTimeout *)
| GetStatus (user_id thread_id filename : jstring)
| DeleteFile (user_id thread_id filename : jstring)
| Send (message : jstring) (attachments : option (list MessageAttachment)).
                                                       (* onSend *)

(** The answers of the outside world to one operation of the
    component. An API call that throws answers [None]. *)
Record Server : Type := {
  created : option Thread;                   (* createThread *)
  reports : list N;                          (* the calls of the progress callback *)
  uploaded : option (list UploadedFile);     (* uploadFiles *)
  processed : jstring -> option bool         (* getFileProcessingStatus, by file name *)
}.

(** Truthiness of an optional string property. *)
Definition given (o : option jstring) : bool :=
  match o with
  | Some s => nonEmpty s
  | None => false
  end.

(** [{ ...f, status: s }] *)
Definition with_status (s : FileStatus) (f : SelectedFile) : SelectedFile := {|
  file := file f; status := s; progress := progress f;
  error_text := error_text f; file_key := file_key f |}.

(** [pollingIntervalsRef.current.has(filename)] *)
Definition is_polling (filename : jstring) (st : State) : bool :=
  existsb (jeqb filename) (polling st).

(** The timer of [filename], if there is one, is cleared and its entry
    deleted. *)
Definition stop_polling (filename : jstring) (st : State) : State :=
  setPolling (filter (fun k => negb (jeqb k filename)) (polling st)) st.

Definition ALLOWED_EXTENSIONS : list jstring := [str ".pdf"; str ".pptx"].
Definition MAX_FILE_SIZE : N := (500 * 1024 * 1024)%N.

(** The effect that runs when the [threadId] property has changed. *)
Definition thread_changed (st : State) : State :=
  setPolling [] (setOverallProgress 0 (setIsUploading false (setSelectedFiles [] st))).

Section Component.

(** The properties [userId] and [threadId] of the component. *)
Variable userId : jstring.
Variable threadId : option jstring.

(** [String.prototype.toLowerCase] of the platform. *)
Variable toLowerCase : jstring -> jstring.

(** The thread of the property, when it is truthy. *)
Definition thread_given : option jstring :=
  match threadId with
  | Some t => if nonEmpty t then Some t else None
  | None => None
  end.

(** One run of [pollStatus] for [filename]; [answer] is the
    [processed] field of the status, [None] when the request fails. *)
Definition pollStatus (filename : jstring) (answer : option bool) (st : State)
  : State :=
  match answer with
  | Some true =>
      stop_polling filename
        (setSelectedFiles
           (map (fun f =>
                   if jeqb (file_name (file f)) filename
                      && status_eqb (status f) processing
                   then with_status ready f
                   else f)
              (selectedFiles st))
           st)
  | _ => st
  end.

(** [startProcessingPoll(filename, currentThreadId)]: the first poll is
    sent at once and the timer is registered before its answer
    arrives. *)
Definition startProcessingPoll (filename currentThreadId : jstring)
  (answer : option bool) (st : State) : State * list Call :=
  if is_polling filename st then (st, [])
  else
    (pollStatus filename answer (setPolling (polling st ++ [filename]) st),
     [GetStatus userId currentThreadId filename]).

(** The callback of the timer set by [uploadFilesAuto]. *)
Fixpoint start_polls (filenames : list jstring) (currentThreadId : jstring)
  (answers : jstring -> option bool) (st : State) : State * list Call :=
  match filenames with
  | [] => (st, [])
  | filename :: rest =>
      let r := startProcessingPoll filename currentThreadId (answers filename) st in
      let r' := start_polls rest currentThreadId answers (fst r) in
      (fst r', snd r ++ snd r')
  end.

(** [validateFile(file)]: the error message, or [None] for [null]. *)
Definition validateFile (f : File) : option jstring :=
  let ext := str "." ++ toLowerCase (last (split (str ".") (file_name f)) []) in
  if negb (existsb (jeqb ext) ALLOWED_EXTENSIONS) then
    Some (str "Invalid file type. Allowed: " ++ join (str ", ") ALLOWED_EXTENSIONS)
  else if (MAX_FILE_SIZE <? file_size f)%N then
    Some (str "File too large. Max size: "
          ++ number_to_string (MAX_FILE_SIZE / 1024 / 1024) ++ str "MB")
  else None.

(** The entry of the list for one file of the selection. *)
Definition selected_entry (f : File) : SelectedFile :=
  match validateFile f with
  | Some message =>
      {| file := f; status := failed; progress := 0%N;
         error_text := Some message; file_key := None |}
  | None =>
      {| file := f; status := pending; progress := 0%N;
         error_text := None; file_key := None |}
  end.

Definition is_valid (f : File) : bool :=
  match validateFile f with
  | Some _ => false
  | None => true
  end.

(** The update of the list when [createThread] has thrown. *)
Definition thread_failed (f : SelectedFile) : SelectedFile :=
  if status_eqb (status f) pending
  then {| file := file f; status := failed; progress := progress f;
          error_text := Some (str "Failed to create thread"); file_key := file_key f |}
  else f.

(** The update of the list before the upload starts. *)
Definition mark_uploading (fileNames : list jstring) (f : SelectedFile)
  : SelectedFile :=
  if status_eqb (status f) pending && existsb (jeqb (file_name (file f))) fileNames
  then with_status uploading f
  else f.

(** The update of the list from the answer to the upload. *)
Definition mark_uploaded (result : list UploadedFile) (f : SelectedFile)
  : SelectedFile :=
  if negb (status_eqb (status f) uploading) then f
  else
    let uploadResult :=
      find (fun r => jeqb (up_filename r) (file_name (file f))) result in
    match uploadResult with
    | Some r =>
        if given (up_error r)
        then {| file := file f; status := failed; progress := 100%N;
                error_text := up_error r; file_key := file_key f |}
        else {| file := file f; status := processing; progress := 100%N;
                error_text := error_text f; file_key := up_key r |}
    | None =>
        {| file := file f; status := processing; progress := 100%N;
           error_text := error_text f; file_key := None |}
    end.

(** The update of the list when the upload has thrown. *)
Definition upload_failed (f : SelectedFile) : SelectedFile :=
  if status_eqb (status f) uploading
  then {| file := file f; status := failed; progress := 0%N;
          error_text := Some (str "Upload failed"); file_key := file_key f |}
  else f.

(** The names pushed to [filesToPoll]. *)
Definition files_to_poll (result : list UploadedFile) : list jstring :=
  map up_filename
    (filter (fun r => negb (given (up_error r)) && given (up_key r)) result).

(** [uploadFilesAuto] from [setIsUploading(true)] on, for the thread
    [currentThreadId]. *)
Definition upload_to (filesToUpload : list File) (currentThreadId : jstring)
  (sv : Server) (st : State) : State * list Call :=
  let st1 := setOverallProgress 0 (setIsUploading true st) in
  let fileNames := map file_name filesToUpload in
  let st2 := setSelectedFiles (map (mark_uploading fileNames) (selectedFiles st1)) st1 in
  let st3 := fold_left (fun s p => setOverallProgress p s) (reports sv) st2 in
  let request := UploadFiles filesToUpload userId currentThreadId in
  match uploaded sv with
  | Some result =>
      let filesToPoll := files_to_poll result in
      let st4 := setSelectedFiles (map (mark_uploaded result) (selectedFiles st3)) st3 in
      (setIsUploading false st4,
       request
       :: if nonEmpty currentThreadId && negb (Nat.eqb (length filesToPoll) 0)
          then [PollLater filesToPoll currentThreadId]
          else [])
  | None =>
      (setIsUploading false
         (setSelectedFiles (map upload_failed (selectedFiles st3)) st3),
       [request])
  end.

Definition uploadFilesAuto (filesToUpload : list File) (sv : Server) (st : State)
  : State * list Call :=
  match filesToUpload with
  | [] => (st, [])
  | _ :: _ =>
      match thread_given with
      | Some currentThreadId => upload_to filesToUpload currentThreadId sv st
      | None =>
          match created sv with
          | Some newThread =>
              let r := upload_to filesToUpload (thread_id_of newThread) sv st in
              (fst r,
               CreateThread userId :: ThreadCreated (thread_id_of newThread) :: snd r)
          | None =>
              (setSelectedFiles (map thread_failed (selectedFiles st)) st,
               [CreateThread userId])
          end
      end
  end.

(** [handleFileSelect(e)]; [files] is [e.target.files], [None] for
    [null]. *)
Definition handleFileSelect (files : option (list File)) (sv : Server) (st : State)
  : State * list Call :=
  match files with
  | None | Some [] => (st, [])
  | Some files =>
      let newFiles := map selected_entry files in
      let validFiles := filter is_valid files in
      let st1 := setSelectedFiles (selectedFiles st ++ newFiles) st in
      match validFiles with
      | [] => (st1, [])
      | _ :: _ => uploadFilesAuto validFiles sv st1
      end
  end.

(** [prev.filter((_, i) => i !== index)] *)
Fixpoint remove_at {A : Type} (index : nat) (l : list A) : list A :=
  match l, index with
  | [], _ => []
  | _ :: rest, O => rest
  | x :: rest, S i => x :: remove_at i rest
  end.

(** [prev.map((f, i) => i === index ? g(f) : f)] *)
Fixpoint update_at {A : Type} (index : nat) (g : A -> A) (l : list A) : list A :=
  match l, index with
  | [], _ => []
  | x :: rest, O => g x :: rest
  | x :: rest, S i => x :: update_at i g rest
  end.

(** [removeFile(index)]; [answer] is [None] when [deleteFile] resolves
    and the message of the error when it throws. Reading the file of an
    index outside the list throws a [TypeError]. *)
Definition removeFile (index : nat) (answer : option jstring) (st : State)
  : Exn (State * list Call) :=
  match nth_error (selectedFiles st) index with
  | None => Raise TypeError
  | Some fileToRemove =>
      let st1 := stop_polling (file_name (file fileToRemove)) st in
      match status fileToRemove, thread_given with
      | ready, Some t =>
          let st2 :=
            setSelectedFiles (update_at index (with_status deleting) (selectedFiles st1))
              st1 in
          let request := DeleteFile userId t (file_name (file fileToRemove)) in
          match answer with
          | None =>
              Ok (setSelectedFiles (remove_at index (selectedFiles st2)) st2, [request])
          | Some errorMessage =>
              Ok (setSelectedFiles
                    (update_at index
                       (fun f =>
                          {| file := file f; status := failed; progress := progress f;
                             error_text := Some errorMessage; file_key := file_key f |})
                       (selectedFiles st2))
                    st2,
                  [request])
          end
      | _, _ => Ok (setSelectedFiles (remove_at index (selectedFiles st1)) st1, [])
      end
  end.

Definition is_unready (f : SelectedFile) : bool :=
  status_eqb (status f) pending || status_eqb (status f) uploading
  || status_eqb (status f) processing.

Definition hasUnreadyFiles (st : State) : bool :=
  existsb is_unready (selectedFiles st).

Definition is_ready (f : SelectedFile) : bool := status_eqb (status f) ready.

(** The attachment made of a ready file; [f.file.type || undefined]. *)
Definition attachment_of (f : SelectedFile) : MessageAttachment := {|
  filename := file_name (file f);
  size := file_size (file f);
  s3_key := file_key f;
  content_type := if nonEmpty (file_type (file f)) then Some (file_type (file f)) else None |}.

(** [handleSubmit()], with the properties [isLoading] and [disabled]:
    the call of [onSend], if any, and the state after. *)
Definition handleSubmit (isLoading disabled : bool) (st : State)
  : State * list Call :=
  if nonEmpty (trim (input st)) && negb isLoading && negb disabled
     && negb (hasUnreadyFiles st)
  then
    let attachments := map attachment_of (filter is_ready (selectedFiles st)) in
    let call :=
      Send (trim (input st))
        (if negb (Nat.eqb (length attachments) 0) then Some attachments else None) in
    let st1 := setInput [] st in
    let readyFiles := filter is_ready (selectedFiles st) in
    let st2 :=
      fold_left (fun s f => stop_polling (file_name (file f)) s) readyFiles st1 in
    (setSelectedFiles (filter (fun f => negb (is_ready f)) (selectedFiles st2)) st2,
     [call])
  else (st, []).

End Component.

(** Neither uploading nor being deleted. *)
Definition idle (f : SelectedFile) : Prop :=
  status f <> uploading /\ status f <> deleting.

(** Between two operations no upload and no deletion is under way. *)
Definition settled (st : State) : Prop :=
  isUploading st = false /\ Forall idle (selectedFiles st).

End InputArea.

(* ------------------------------------------------------------------ *)
(** * Vocabulary for the display of a streamed answer *)
(* ------------------------------------------------------------------ *)

Module Display.

(** The user message that a streaming operation adds. *)
Definition user_message (w : World) (text : jstring) (files : list MessageAttachment)
  : ChatMessage := {|
  id := str "user-" ++ number_to_string (now_user w); role := human;
  content := text; attachments := Some files; isStreaming := None |}.

(** The id of the placeholder that a streaming operation adds. *)
Definition ai_id (w : World) : jstring := str "ai-" ++ number_to_string (now_ai w).

(** The placeholder of a streaming operation with the content [c] and
    the streaming flag [flag]. *)
Definition answer (w : World) (c : jstring) (flag : bool) : ChatMessage := {|
  id := ai_id w; role := ai; content := c; attachments := None;
  isStreaming := Some flag |}.

(** No message of [l] carries the id of the placeholder. *)
Definition fresh (w : World) (l : list ChatMessage) : Prop :=
  Forall (fun m => id m <> ai_id w) l.

(** [tokens] are token events carrying the texts [texts], in order. *)
Definition tokens_of (texts : list jstring) (tokens : list JsValue) : Prop :=
  Forall2 (fun t event => has_kind (str "token") event /\ has_text t event)
    texts tokens.

(** What the three loop bodies have in common on a [token] and on a
    [done] event. *)
Definition handles_tokens (on_event : jstring -> JsValue -> State -> Exn State)
  : Prop :=
  (forall a event t st,
     has_kind (str "token") event -> has_text t event ->
     on_event a event st
     = Ok (update_message a (fun msg => with_content (content msg ++ t) msg) st))
  /\ (forall a event st,
        has_kind (str "done") event ->
        on_event a event st
        = Ok (update_message a not_streaming (setProgressStatus JNull st))).

End Display.

(* ------------------------------------------------------------------ *)
(** * More data for the worked examples *)
(* ------------------------------------------------------------------ *)

Module SampleFiles.

(** Lower case of the letters A to Z, which is what [toLowerCase] does
    on a string of 7-bit characters. *)
Definition ascii_lower (s : jstring) : jstring :=
  map (fun c => if N.leb 65 c && N.leb c 90 then (c + 32)%N else c) s.

Definition pdf (name : string) (bytes : N) : InputArea.File := {|
  InputArea.file_name := str name; InputArea.file_size := bytes;
  InputArea.file_type := str "application/pdf" |}.

Definition server (answer : option (list InputArea.UploadedFile)) : InputArea.Server := {|
  InputArea.created := Some (Sample.thread "thread-9");
  InputArea.reports := [40; 100]%N;
  InputArea.uploaded := answer;
  InputArea.processed := fun _ => Some true |}.

Definition stored (name key : string) : InputArea.UploadedFile := {|
  InputArea.up_filename := str name; InputArea.up_key := Some (str key);
  InputArea.up_error := None |}.

End SampleFiles.

(* ------------------------------------------------------------------ *)
(** * Facts about strings *)
(* ------------------------------------------------------------------ *)

Lemma jeqb_eq (a b : jstring) : jeqb a b = true <-> a = b.
Proof.
  revert b; induction a as [|x a IH]; intros [|y b]; simpl; split;
    try discriminate; try reflexivity.
  - intros H. apply andb_true_iff in H as [Hx Hab].
    apply N.eqb_eq in Hx. apply IH in Hab. now subst.
  - intros H. inversion H; subst. rewrite N.eqb_refl. simpl. now apply IH.
Qed.

Lemma jeqb_refl (a : jstring) : jeqb a a = true.
Proof. now apply jeqb_eq. Qed.

Lemma jeqb_neq (a b : jstring) : jeqb a b = false <-> a <> b.
Proof.
  split.
  - intros H E. apply jeqb_eq in E. congruence.
  - intros H. destruct (jeqb a b) eqn:E; [|reflexivity].
    apply jeqb_eq in E. contradiction.
Qed.

Section SplitFacts.

Variable sep : jstring.

Lemma split_from_skipn (s : jstring) :
  forall k, split_from sep k s = split_from sep 0 (skipn k s).
Proof.
  induction s as [|c t IH]; intros [|k]; simpl; try reflexivity.
  apply IH.
Qed.

(** The unfolding of [split] at a code unit: either a separator starts
    here, or the code unit joins the first piece of the rest. *)
Lemma split_cons (c : N) (t : jstring) :
  split sep (c :: t) =
  if startsWith sep (c :: t)
  then [] :: split sep (skipn (length sep - 1) t)
  else cons_head c (split sep t).
Proof.
  unfold split. cbn [split_from].
  destruct (startsWith sep (c :: t)); [|reflexivity].
  now rewrite split_from_skipn.
Qed.

Lemma split_not_nil (s : jstring) : split sep s <> [].
Proof.
  destruct s as [|c t]; [discriminate|].
  rewrite split_cons. destruct (startsWith sep (c :: t)); [discriminate|].
  destruct (split sep t); discriminate.
Qed.

Lemma startsWith_length (p s : jstring) :
  startsWith p s = true -> length p <= length s.
Proof.
  revert s; induction p as [|x p IH]; intros [|y s]; simpl; try lia; try discriminate.
  intros H. apply andb_true_iff in H as [_ H]. apply IH in H. lia.
Qed.

Lemma startsWith_app (p s y : jstring) :
  startsWith p s = true -> startsWith p (s ++ y) = true.
Proof.
  revert s; induction p as [|x p IH]; intros [|z s]; simpl;
    try reflexivity; try discriminate.
  intros H. apply andb_true_iff in H as [H1 H2].
  rewrite H1. simpl. now apply IH.
Qed.

(** A separator that starts in [s] and ends in [y]: [s] is shorter
    than the separator. *)
Lemma startsWith_straddle (p s y : jstring) :
  startsWith p s = false -> startsWith p (s ++ y) = true -> length s < length p.
Proof.
  revert s; induction p as [|x p IH]; intros [|z s]; simpl;
    try discriminate; try lia.
  intros H1 H2. apply andb_true_iff in H2 as [Hx H2]. rewrite Hx in H1.
  simpl in H1. specialize (IH _ H1 H2). lia.
Qed.

Lemma split_short (s : jstring) : length s < length sep -> split sep s = [s].
Proof.
  induction s as [|c t IH]; intros Hlen; [reflexivity|].
  rewrite split_cons.
  destruct (startsWith sep (c :: t)) eqn:E.
  - apply startsWith_length in E. lia.
  - rewrite IH by (simpl in Hlen; lia). reflexivity.
Qed.

Lemma split_single (s p : jstring) : split sep s = [p] -> p = s.
Proof.
  revert p; induction s as [|c t IH]; intros p.
  - intros H. now inversion H.
  - rewrite split_cons. destruct (startsWith sep (c :: t)).
    + intros H. inversion H as [[Hp Hnil]]. now apply split_not_nil in Hnil.
    + destruct (split sep t) as [|q qs] eqn:E; [now apply split_not_nil in E|].
      simpl. intros H. inversion H; subst. f_equal. now apply IH.
Qed.

Lemma split_app_bounded (n : nat) :
  forall x y, length x <= n ->
  split sep (x ++ y) =
  removelast (split sep x) ++ split sep (last (split sep x) [] ++ y).
Proof.
  induction n as [|n IH]; intros [|c t] y Hlen; try reflexivity.
  - simpl in Hlen. lia.
  - simpl in Hlen. rewrite (split_cons c t).
    destruct (startsWith sep (c :: t)) eqn:E.
    + rewrite <- app_comm_cons, split_cons, app_comm_cons, (startsWith_app _ _ y E).
      pose proof (startsWith_length _ _ E) as Hl. simpl in Hl.
      rewrite skipn_app.
      replace (length sep - 1 - length t) with 0 by lia. rewrite skipn_O.
      rewrite IH by (rewrite length_skipn; lia).
      pose proof (split_not_nil (skipn (length sep - 1) t)) as Hne.
      destruct (split sep (skipn (length sep - 1) t)) as [|q qs]; [easy|].
      reflexivity.
    + destruct (split sep t) as [|p [|q qs]] eqn:Et.
      * now apply split_not_nil in Et.
      * apply split_single in Et. now subst p.
      * rewrite <- app_comm_cons, split_cons.
        destruct (startsWith sep (c :: t ++ y)) eqn:E2.
        -- pose proof (startsWith_straddle _ (c :: t) y E E2) as Hshort.
           rewrite split_short in Et by (simpl in Hshort; lia). discriminate.
        -- rewrite IH by lia. rewrite Et. reflexivity.
Qed.

(** Splitting does not depend on where the text was cut: the pieces
    of [x ++ y] are the complete pieces of [x], then the pieces of the
    last piece of [x] followed by [y]. *)
Lemma split_app (x y : jstring) :
  split sep (x ++ y) =
  removelast (split sep x) ++ split sep (last (split sep x) [] ++ y).
Proof. now apply (split_app_bounded (length x)). Qed.

(** The last piece holds no separator. *)
Lemma split_last_piece (s : jstring) :
  split sep (last (split sep s) []) = [last (split sep s) []].
Proof.
  pose proof (split_app s []) as H. rewrite !app_nil_r in H.
  rewrite (app_removelast_last [] (split_not_nil s)) in H at 1.
  now apply app_inv_head in H.
Qed.

End SplitFacts.

Lemma last_app_ne {A : Type} (l l' : list A) (d : A) :
  l' <> [] -> last (l ++ l') d = last l' d.
Proof.
  intros H. induction l as [|a l IH]; [reflexivity|].
  simpl. destruct (l ++ l') eqn:E; [|exact IH].
  apply app_eq_nil in E. now destruct E.
Qed.

Lemma flat_map_removelast_last {A B : Type} (f : A -> list B) (l : list A) (d : A) :
  l <> [] -> flat_map f l = flat_map f (removelast l) ++ f (last l d).
Proof.
  intros H. rewrite (app_removelast_last d H) at 1.
  rewrite flat_map_app. cbn [flat_map]. now rewrite app_nil_r.
Qed.

(* ------------------------------------------------------------------ *)
(** * The stream readers *)
(* ------------------------------------------------------------------ *)

Lemma until_terminal_app (a b : list JsValue) :
  until_terminal (a ++ b) =
  if existsb is_terminal a then until_terminal a else a ++ until_terminal b.
Proof.
  induction a as [|v a IH]; simpl; [reflexivity|].
  destruct (is_terminal v); simpl; [reflexivity|].
  rewrite IH. now destruct (existsb is_terminal a).
Qed.

Lemma until_terminal_none (l : list JsValue) :
  existsb is_terminal l = false -> until_terminal l = l.
Proof.
  induction l as [|v l IH]; simpl; [reflexivity|].
  destruct (is_terminal v); simpl; [discriminate|].
  intros H. now rewrite IH.
Qed.

Lemma until_terminal_short (l : list JsValue) :
  length l <= 1 -> until_terminal l = l.
Proof.
  destruct l as [|v [|w l]]; simpl; try reflexivity; [|lia].
  now destruct (is_terminal v).
Qed.

(** Nothing follows a terminal event in a list cut by
    [until_terminal]. *)
Lemma until_terminal_stops (events pre post : list JsValue) (v : JsValue) :
  until_terminal events = pre ++ v :: post -> is_terminal v = true -> post = [].
Proof.
  revert pre; induction events as [|e events IH]; intros pre; simpl.
  - now destruct pre.
  - destruct (is_terminal e) eqn:E.
    + destruct pre as [|p [|p' pre]]; simpl; intros H Hv; inversion H; subst;
        reflexivity.
    + destruct pre as [|p pre]; simpl; intros H Hv; inversion H; subst.
      * congruence.
      * now apply (IH pre).
Qed.

Ltac gen_simpl :=
  cbv [try_catch try_finally bind eval ret yield leave throw];
  cbn [fst snd app].

Lemma for_of_cut {A : Type} (body : A -> gen unit) (f : A -> list JsValue) :
  (forall x, body x = cut (f x)) ->
  forall l, for_of l body = cut (flat_map f l).
Proof.
  intros Hbody. induction l as [|x rest IH]; [reflexivity|].
  cbn [for_of flat_map]. rewrite Hbody, IH. unfold cut, bind. cbn [fst snd].
  rewrite until_terminal_app, existsb_app.
  destruct (existsb is_terminal (f x)) eqn:T; [reflexivity|].
  now rewrite (until_terminal_none _ T).
Qed.

Section ReaderFacts.

Variable JSON_parse : jstring -> Exn JsValue.

Lemma on_line_cut (line : jstring) :
  on_line JSON_parse line = cut (line_events JSON_parse line).
Proof.
  unfold on_line, line_events.
  destruct (startsWith DATA_PREFIX line); [|reflexivity].
  destruct (JSON_parse (slice_from 6 line)) as [event|e]; [|reflexivity].
  unfold cut. cbn [until_terminal existsb]. unfold is_terminal.
  gen_simpl.
  destruct (get_prop event (str "type")) as [ty|e]; cbn [fst snd app]; [|reflexivity].
  now destruct (is_string (str "done") ty || is_string (str "error") ty).
Qed.

Lemma on_message_cut (message : jstring) :
  on_message JSON_parse message = cut (frame_events JSON_parse message).
Proof.
  unfold on_message, frame_events.
  destruct (nonEmpty (trim message)) eqn:E; cbn [negb].
  - apply for_of_cut, on_line_cut.
  - destruct (trim message); [reflexivity|discriminate].
Qed.

Lemma on_done_normal (buffer : jstring) :
  exists events, on_done JSON_parse buffer = (events, Normal tt) /\ length events <= 1.
Proof.
  unfold on_done.
  destruct (nonEmpty (trim buffer)); [|exists []; split; [reflexivity|simpl; lia]].
  destruct (startsWith DATA_PREFIX (trim buffer));
    [|exists []; split; [reflexivity|simpl; lia]].
  destruct (JSON_parse _) as [event|e].
  - exists [event]. split; [reflexivity|simpl; lia].
  - exists []. split; [reflexivity|simpl; lia].
Qed.

(** What is left after the last blank line of a body that ends: one
    record at most, and never an exception. *)
Lemma tail_events_short (ending : StreamEnd) (buffer : jstring) :
  length (tail_events JSON_parse ending buffer) <= 1.
Proof.
  destruct ending; cbn [tail_events]; [|simpl; lia].
  destruct (on_done_normal buffer) as [events [-> Hlen]]. exact Hlen.
Qed.

(** What the loop does for a body, whatever the chunking: it yields
    the events of the frames closed by a blank line, then those of the
    remaining text, up to the first terminal event; it returns at a
    terminal event of a closed frame, and otherwise completes as the
    body ends. *)
Lemma read_loop_spec (ending : StreamEnd) (chunks : list jstring) :
  forall buffer,
  split BLANK_LINE buffer = [buffer] ->
  let pieces := split BLANK_LINE (buffer ++ concat chunks) in
  let closed := flat_map (frame_events JSON_parse) (removelast pieces) in
  read_loop JSON_parse buffer chunks ending =
  (until_terminal (closed ++ tail_events JSON_parse ending (last pieces [])),
   if existsb is_terminal closed then Returns
   else match ending with
        | EndOfStream => Normal tt
        | ReadFailure => Throws NetworkError
        end).
Proof.
  induction chunks as [|value later IH]; intros buffer Hbuf; cbn zeta.
  - cbn [concat]. rewrite app_nil_r, Hbuf.
    cbn [removelast last flat_map app existsb].
    rewrite until_terminal_short by apply tail_events_short.
    destruct ending; cbn [read_loop tail_events]; [|reflexivity].
    now destruct (on_done_normal buffer) as [events [-> _]].
  - cbn [read_loop concat]. rewrite (for_of_cut _ _ on_message_cut).
    rewrite app_assoc, (split_app BLANK_LINE (buffer ++ value) (concat later)).
    set (pieces := split BLANK_LINE (buffer ++ value)).
    pose proof (split_not_nil BLANK_LINE (last pieces [] ++ concat later)) as Hne.
    rewrite removelast_app, last_app_ne by exact Hne.
    rewrite flat_map_app, existsb_app, <- app_assoc, until_terminal_app.
    unfold bind, cut. cbn [fst snd].
    destruct (existsb is_terminal
                (flat_map (frame_events JSON_parse) (removelast pieces))) eqn:T.
    + reflexivity.
    + rewrite (IH (last pieces []) (split_last_piece BLANK_LINE (buffer ++ value))).
      cbn [fst snd orb]. now rewrite (until_terminal_none _ T).
Qed.

Lemma read_loop_yields (ending : StreamEnd) (chunks : list jstring) :
  fst (read_loop JSON_parse [] chunks ending) =
  let pieces := split BLANK_LINE (concat chunks) in
  until_terminal
    (flat_map (frame_events JSON_parse) (removelast pieces)
     ++ tail_events JSON_parse ending (last pieces [])).
Proof. now rewrite read_loop_spec. Qed.

(** On a body that ends, the loop never completes by an exception. *)
Lemma read_loop_never_throws (chunks : list jstring) (e : JsError) :
  snd (read_loop JSON_parse [] chunks EndOfStream) <> Throws e.
Proof.
  rewrite read_loop_spec by reflexivity. cbn [snd].
  now destruct (existsb is_terminal _).
Qed.

Lemma not_terminal_in (l : list JsValue) (v : JsValue) :
  existsb is_terminal l = false -> In v l -> is_terminal v = false.
Proof.
  intros Hnone Hin. destruct (is_terminal v) eqn:E; [|reflexivity].
  assert (Hex : existsb is_terminal l = true) by (apply existsb_exists; eauto).
  congruence.
Qed.

(** A reader that has yielded a terminal event has yielded it last and
    has returned. *)
Lemma read_response_terminal (failure : jstring) (response : HttpResponse)
  (pre post : list JsValue) (event : JsValue) :
  fst (read_response JSON_parse failure response) = pre ++ event :: post ->
  is_terminal event = true ->
  post = []
  /\ snd (run_generator (read_response JSON_parse failure response)) = Returned.
Proof.
  unfold run_generator. cbn [snd].
  destruct response as [|status text_read| |chunks ending]; cbn [read_response].
  - now destruct pre.
  - destruct text_read; [|now destruct pre].
    destruct pre as [|x [|y pre]]; intros H _; inversion H. now split.
  - destruct pre as [|x [|y pre]]; intros H _; inversion H. now split.
  - unfold try_finally. cbn [fst snd ret]. rewrite app_nil_r.
    rewrite read_loop_spec by reflexivity. cbn zeta. cbn [fst snd app].
    intros H Hterminal. split; [exact (until_terminal_stops _ _ _ _ H Hterminal)|].
    destruct (existsb is_terminal
                (flat_map (frame_events JSON_parse)
                   (removelast (split BLANK_LINE (concat chunks))))) eqn:T;
      [reflexivity|].
    destruct ending; [reflexivity|]. exfalso.
    cbn [tail_events] in H. rewrite app_nil_r, (until_terminal_none _ T) in H.
    assert (Hin : In event (pre ++ event :: post)) by (apply in_elt).
    rewrite <- H in Hin. pose proof (not_terminal_in _ _ T Hin). congruence.
Qed.

(** A line whose payload does not parse has no effect on the loop over
    the lines of a frame. *)
Lemma for_lines_skips (before after : list jstring) (line : jstring) (e : JsError) :
  JSON_parse (slice_from 6 line) = Raise e ->
  for_of (before ++ line :: after) (on_line JSON_parse) =
  for_of (before ++ after) (on_line JSON_parse).
Proof.
  intros Hbad. rewrite !(for_of_cut _ _ on_line_cut), !flat_map_app. cbn [flat_map].
  unfold line_events at 2. rewrite Hbad.
  now destruct (startsWith DATA_PREFIX line).
Qed.

End ReaderFacts.

(** ** The whole result of a reader on a body *)

Section ReaderResult.

Variable JSON_parse : jstring -> Exn JsValue.

(** What is read from the text after the last blank line of a body
    that ends is what one line made of its trimmed text gives. *)
Lemma tail_events_line (buffer : jstring) :
  tail_events JSON_parse EndOfStream buffer = line_events JSON_parse (trim buffer).
Proof.
  cbn [tail_events]. unfold on_done, line_events.
  destruct (trim buffer) as [|c rest] eqn:E; [reflexivity|]. cbn [nonEmpty].
  destruct (startsWith DATA_PREFIX (c :: rest)); [|reflexivity].
  now destruct (JSON_parse (slice_from 6 (c :: rest))).
Qed.

Lemma read_response_body (failure : jstring) (chunks : list jstring)
  (ending : StreamEnd) :
  let pieces := split BLANK_LINE (concat chunks) in
  let closed := flat_map (frame_events JSON_parse) (removelast pieces) in
  run_generator (read_response JSON_parse failure (Body chunks ending)) =
  (until_terminal
     (closed ++ match ending with
                | EndOfStream => line_events JSON_parse (trim (last pieces []))
                | ReadFailure => []
                end),
   if existsb is_terminal closed then Returned
   else match ending with
        | EndOfStream => Returned
        | ReadFailure => Threw NetworkError
        end).
Proof.
  cbn zeta. unfold run_generator, read_response, try_finally. cbn [fst snd ret].
  rewrite app_nil_r, read_loop_spec by reflexivity. cbn zeta. cbn [fst snd app].
  f_equal.
  - destruct ending; [now rewrite tail_events_line|reflexivity].
  - destruct (existsb is_terminal _); [reflexivity|]. now destruct ending.
Qed.

Lemma read_response_chunking (failure : jstring) (chunks1 chunks2 : list jstring)
  (ending : StreamEnd) :
  concat chunks1 = concat chunks2 ->
  run_generator (read_response JSON_parse failure (Body chunks1 ending)) =
  run_generator (read_response JSON_parse failure (Body chunks2 ending)).
Proof. intros H. rewrite !read_response_body. cbn zeta. now rewrite H. Qed.

End ReaderResult.

(** C7. Once [streamChat] or [streamFork] has yielded a [done] or an
    [error] event it yields nothing more and has returned, whatever
    follows in the stream and however the response ends. *)
Theorem reader_stops_at_terminal_event :
  forall (JSON_parse : jstring -> Exn JsValue)
         (message threadId userId checkpointId : jstring)
         (attachments : option (list MessageAttachment))
         (response : HttpResponse) (run : list JsValue * Completion)
         (pre post : list JsValue) (event : JsValue),
    run = snd (streamChat JSON_parse message threadId userId attachments response)
    \/ run = snd (streamFork JSON_parse message threadId userId checkpointId
                    attachments response) ->
    fst run = pre ++ event :: post ->
    is_terminal event = true ->
    post = [] /\ snd run = Returned.
Proof.
  intros JSON_parse message threadId userId checkpointId attachments response run
    pre post event Hrun Hyield Hterminal.
  unfold streamChat, streamFork in Hrun. cbn [snd] in Hrun.
  destruct Hrun as [-> | ->];
    exact (read_response_terminal JSON_parse _ response pre post event
             Hyield Hterminal).
Qed.

(** A stream in which two more records follow the [done] event, the
    second chunk starting in the middle of a frame. *)
Lemma reader_stops_at_terminal_event_witness :
  let response :=
    Body [Sample.frame (Sample.token "a") ++ Sample.frame Sample.done
            ++ Sample.data_line (Sample.token "b");
          BLANK_LINE ++ Sample.frame (Sample.token "c")] EndOfStream in
  let run :=
    snd (streamFork Json.parse (str "hi") Sample.THREAD Sample.USER (str "cp-0")
           None response) in
  fst run = [Sample.token "a"] ++ Sample.done :: []
  /\ is_terminal Sample.done = true
  /\ @nil JsValue = [] /\ snd run = Returned.
Proof.
  intros response run.
  assert (H : fst run = [Sample.token "a"] ++ Sample.done :: [])
    by (vm_compute; reflexivity).
  assert (T : is_terminal Sample.done = true) by (vm_compute; reflexivity).
  split; [exact H|]. split; [exact T|].
  exact (reader_stops_at_terminal_event Json.parse (str "hi") Sample.THREAD
           Sample.USER (str "cp-0") None response run [Sample.token "a"] []
           Sample.done (or_intror eq_refl) H T).
Defined.

(** C8, as stated, fails: the record after a [done] event is never
    parsed. *)
Lemma reader_parses_every_line_counterexample :
  let text := Sample.frame Sample.done ++ Sample.frame (Sample.token "b") in
  fst (snd (streamChat Json.parse (str "hi") Sample.THREAD Sample.USER None
              (Body [text] EndOfStream)))
    = [Sample.done]
  /\ body_events Json.parse text = [Sample.done; Sample.token "b"]
  /\ fst (snd (streamChat Json.parse (str "hi") Sample.THREAD Sample.USER None
                 (Body [text] EndOfStream)))
     <> body_events Json.parse text.
Proof. vm_compute. repeat split; try reflexivity. discriminate. Qed.

(** C8, amended. For a response body in which only white space follows
    the last blank line, however it is cut into chunks: each of the two
    readers splits the text into frames at blank lines and yields, in
    the order of the lines, the value of every [data: ] line whose
    payload parses, up to and including the first [done] or [error]
    event; other lines yield nothing. *)
Theorem reader_yields_frame_events :
  forall (JSON_parse : jstring -> Exn JsValue)
         (message threadId userId checkpointId : jstring)
         (attachments : option (list MessageAttachment))
         (chunks : list jstring),
    trim (last (split BLANK_LINE (concat chunks)) []) = [] ->
    fst (snd (streamChat JSON_parse message threadId userId attachments
                (Body chunks EndOfStream)))
      = until_terminal (body_events JSON_parse (concat chunks))
    /\ fst (snd (streamFork JSON_parse message threadId userId checkpointId
                   attachments (Body chunks EndOfStream)))
      = until_terminal (body_events JSON_parse (concat chunks)).
Proof.
  intros JSON_parse message threadId userId checkpointId attachments chunks Hblank.
  assert (H : forall failure,
            fst (read_response JSON_parse failure (Body chunks EndOfStream))
            = until_terminal (body_events JSON_parse (concat chunks))).
  { intros failure. unfold read_response, try_finally.
    cbn [fst snd ret]. rewrite app_nil_r.
    rewrite read_loop_yields. cbn zeta. cbn [app tail_events].
    unfold body_events.
    rewrite (flat_map_removelast_last (frame_events JSON_parse)
               (split BLANK_LINE (concat chunks)) [])
      by apply split_not_nil.
    f_equal. f_equal.
    unfold on_done, frame_events. rewrite Hblank. reflexivity. }
  split; apply H.
Qed.

Lemma reader_yields_frame_events_witness :
  let chunks :=
    [Sample.frame (Sample.token "a") ++ str "event: x" ++ [LF]
       ++ Sample.data_line (Sample.token "b");
     [LF] ++ str "data: {oops" ++ BLANK_LINE ++ Sample.frame Sample.done] in
  trim (last (split BLANK_LINE (concat chunks)) []) = []
  /\ fst (snd (streamChat Json.parse (str "hi") Sample.THREAD Sample.USER None
                 (Body chunks EndOfStream)))
       = until_terminal (body_events Json.parse (concat chunks)).
Proof.
  intros chunks.
  assert (H : trim (last (split BLANK_LINE (concat chunks)) []) = [])
    by (vm_compute; reflexivity).
  split; [exact H|].
  exact (proj1 (reader_yields_frame_events Json.parse (str "hi") Sample.THREAD
                  Sample.USER (str "cp-0") None chunks H)).
Defined.

(** The text left after the last blank line is read as one record, not
    line by line: two [data: ] lines there yield nothing. *)
Example remaining_text_is_one_record :
  let text := Sample.data_line (Sample.token "a") ++ [LF]
              ++ Sample.data_line (Sample.token "b") in
  fst (snd (streamChat Json.parse (str "hi") Sample.THREAD Sample.USER None
              (Body [text] EndOfStream))) = []
  /\ body_events Json.parse text = [Sample.token "a"; Sample.token "b"].
Proof. vm_compute. split; reflexivity. Qed.

(** C9. Whatever the chunks of a body that ends, [streamChat] returns
    and does not throw, and a line whose payload does not parse is
    skipped while the lines after it are read: when a frame of the
    response, closed by a blank line, holds such a line, [streamChat]
    yields the events of the frames before it, of the lines of the
    frame before the line, of the lines of the frame after the line,
    of the frames after it and of the text after the last blank line,
    up to the first [done] or [error] event, and nothing for the line
    itself. In the loop over the lines of a frame, the lines after
    such a line are read as if it were not there. *)
Theorem streamChat_never_throws :
  forall (JSON_parse : jstring -> Exn JsValue)
         (message threadId userId : jstring)
         (attachments : option (list MessageAttachment))
         (chunks : list jstring),
    let run :=
      snd (streamChat JSON_parse message threadId userId attachments
             (Body chunks EndOfStream)) in
    let pieces := split BLANK_LINE (concat chunks) in
    snd run = Returned
    /\ (forall (earlier later : list jstring) (frame : jstring)
               (before after : list jstring) (line : jstring) (e : JsError),
          removelast pieces = earlier ++ frame :: later ->
          split [LF] (trim frame) = before ++ line :: after ->
          JSON_parse (slice_from 6 line) = Raise e ->
          fst run
          = until_terminal
              (flat_map (frame_events JSON_parse) earlier
               ++ flat_map (line_events JSON_parse) before
               ++ flat_map (line_events JSON_parse) after
               ++ flat_map (frame_events JSON_parse) later
               ++ line_events JSON_parse (trim (last pieces []))))
    /\ forall (before after : list jstring) (line : jstring) (e : JsError),
         JSON_parse (slice_from 6 line) = Raise e ->
         for_of (before ++ line :: after) (on_line JSON_parse)
         = for_of (before ++ after) (on_line JSON_parse).
Proof.
  intros JSON_parse message threadId userId attachments chunks run pieces.
  subst run pieces. unfold streamChat. cbn [snd].
  rewrite read_response_body. cbn zeta. cbn [fst snd].
  split; [|split].
  - now destruct (existsb is_terminal _).
  - intros earlier later frame before after line e Hframes Hlines Hbad.
    rewrite Hframes, flat_map_app. cbn [flat_map].
    unfold frame_events at 2. rewrite Hlines, flat_map_app. cbn [flat_map].
    assert (Hnone : line_events JSON_parse line = []).
    { unfold line_events. rewrite Hbad. now destruct (startsWith DATA_PREFIX line). }
    rewrite Hnone. cbn [app]. now rewrite <- !app_assoc.
  - intros before after line e. apply for_lines_skips.
Qed.

(** A stream in which a line of the first frame holds a payload that
    does not parse: the lines around it and the frame after it are
    read. *)
Lemma streamChat_never_throws_witness :
  let bad := str "data: {oops" in
  let first :=
    Sample.data_line (Sample.token "a") ++ [LF] ++ bad ++ [LF]
    ++ Sample.data_line (Sample.token "b") in
  let chunks := [first ++ [LF]; [LF] ++ Sample.frame Sample.done] in
  let run :=
    snd (streamChat Json.parse (str "hi") Sample.THREAD Sample.USER None
           (Body chunks EndOfStream)) in
  (removelast (split BLANK_LINE (concat chunks))
   = [] ++ first :: [Sample.data_line Sample.done]
   /\ split [LF] (trim first)
      = [Sample.data_line (Sample.token "a")] ++ bad
        :: [Sample.data_line (Sample.token "b")]
   /\ Json.parse (slice_from 6 bad) = Raise SyntaxError)
  /\ run = ([Sample.token "a"; Sample.token "b"; Sample.done], Returned).
Proof.
  intros bad first chunks run.
  assert (H1 : removelast (split BLANK_LINE (concat chunks))
               = [] ++ first :: [Sample.data_line Sample.done])
    by (vm_compute; reflexivity).
  assert (H2 : split [LF] (trim first)
               = [Sample.data_line (Sample.token "a")] ++ bad
                 :: [Sample.data_line (Sample.token "b")])
    by (vm_compute; reflexivity).
  assert (H3 : Json.parse (slice_from 6 bad) = Raise SyntaxError)
    by (vm_compute; reflexivity).
  split; [repeat split; assumption|].
  pose proof (streamChat_never_throws Json.parse (str "hi") Sample.THREAD Sample.USER
                None chunks) as [Hreturned [Hskip _]].
  fold run in Hreturned, Hskip.
  specialize (Hskip [] [Sample.data_line Sample.done] first
                [Sample.data_line (Sample.token "a")]
                [Sample.data_line (Sample.token "b")] bad SyntaxError H1 H2 H3).
  rewrite (surjective_pairing run), Hreturned, Hskip.
  vm_compute. reflexivity.
Defined.

(* ------------------------------------------------------------------ *)
(** * The hook: threads and checkpoint preview *)
(* ------------------------------------------------------------------ *)

Lemma is_current_spec (st : State) (t : jstring) :
  is_current st t = true <-> currentThreadId st = Some t.
Proof.
  unfold is_current. destruct (currentThreadId st) as [c|].
  - rewrite jeqb_eq. split; congruence.
  - split; discriminate.
Qed.

(** C10. When the server has deleted thread [t], [deleteThread] leaves
    in the local thread list exactly the threads whose id is not [t],
    and if [t] is the current thread, the current thread id becomes
    [null] and the display is emptied; if [t] is not the current
    thread, the current thread id and the display are left as they
    were, whatever the answer of the server. *)
Theorem deleteThread_effect :
  forall (t : jstring) (st : State),
    (let st' := fst (deleteThread t true st) in
     (forall th, In th (threads st') <-> In th (threads st) /\ thread_id_of th <> t)
     /\ (currentThreadId st = Some t ->
         currentThreadId st' = None /\ messages st' = []))
    /\ (forall deleted : bool,
          currentThreadId st <> Some t ->
          let st' := fst (deleteThread t deleted st) in
          currentThreadId st' = currentThreadId st /\ messages st' = messages st).
Proof.
  intros t st. unfold deleteThread. cbn [fst]. cbv zeta.
  pose proof (is_current_spec st t) as Hcur.
  destruct (is_current st t); cbn [threads currentThreadId messages setMessages
                                   setCurrentThreadId setThreads].
  - split; [split|].
    + intros th. rewrite filter_In, negb_true_iff, jeqb_neq. reflexivity.
    + intros _. split; reflexivity.
    + intros deleted H. now destruct H; apply Hcur.
  - split; [split|].
    + intros th. rewrite filter_In, negb_true_iff, jeqb_neq. reflexivity.
    + intros H. apply Hcur in H. discriminate.
    + intros [|] _; split; reflexivity.
Qed.

Lemma deleteThread_effect_witness :
  let st := Sample.two_threads in
  let other := str "thread-2" in
  (currentThreadId st = Some Sample.THREAD
   /\ currentThreadId (fst (deleteThread Sample.THREAD true st)) = None
   /\ messages (fst (deleteThread Sample.THREAD true st)) = [])
  /\ (currentThreadId st <> Some other
      /\ currentThreadId (fst (deleteThread other true st)) = currentThreadId st
      /\ messages (fst (deleteThread other true st)) = messages st).
Proof.
  intros st other.
  assert (H1 : currentThreadId st = Some Sample.THREAD) by reflexivity.
  assert (H2 : currentThreadId st <> Some other) by (vm_compute; discriminate).
  split.
  - split; [exact H1|].
    exact (proj2 (proj1 (deleteThread_effect Sample.THREAD st)) H1).
  - split; [exact H2|].
    exact (proj2 (deleteThread_effect other st) true H2).
Defined.

Lemma checkpoint_messages_normalised (cpid : jstring) (l : list CheckpointMessage) :
  forall idx, displays_normalised l (checkpoint_messages_from cpid idx l).
Proof.
  induction l as [|msg rest IH]; intros idx; cbn [checkpoint_messages_from].
  - constructor.
  - constructor; [|apply IH]. split; reflexivity.
Qed.

(** C5, as stated, fails: a recorded role other than [human] and [ai]
    is not the role displayed. *)
Lemma preview_same_role_counterexample :
  ~ displays_exactly (cp_messages Sample.cp_system)
      (messages (fst (selectCheckpoint (Some Sample.cp_system) None Sample.live))).
Proof.
  intros H. inversion H as [|cm m l l' [Hrole _] _]; subst.
  vm_compute in Hrole. discriminate.
Qed.

(** C5, amended. Selecting a checkpoint [c] replaces the display with
    [c]'s recorded messages: same length, same content in the same
    order, the role [human] kept and every other recorded role shown as
    [ai]; in that state no displayed message can be edited. Selecting
    [null] while a thread is active asks for the messages of that
    thread and, when they arrive, makes them the display. *)
Theorem selectCheckpoint_preview :
  forall (c : Checkpoint) (answer : option (list Message)) (st : State),
    let st' := fst (selectCheckpoint (Some c) answer st) in
    selectedCheckpoint st' = Some c
    /\ displays_normalised (cp_messages c) (messages st')
    /\ (forall m, In m (messages st') -> canEdit st' m = false)
    /\ (forall (t : jstring) (rows : list Message),
          active_thread st = Some t ->
          let r := selectCheckpoint None (Some rows) st in
          snd r = [GetMessages t]
          /\ selectedCheckpoint (fst r) = None
          /\ messages (fst r) = map message_of_row rows).
Proof.
  intros c answer st st'. subst st'. cbn [selectCheckpoint fst].
  repeat split.
  - apply checkpoint_messages_normalised.
  - intros m _. unfold canEdit, isPreviewingCheckpoint. cbn.
    destruct (role m); [apply andb_false_r|reflexivity].
  - unfold selectCheckpoint. rewrite H. reflexivity.
  - unfold selectCheckpoint. rewrite H. reflexivity.
  - unfold selectCheckpoint. rewrite H. reflexivity.
Qed.

Lemma selectCheckpoint_preview_witness :
  active_thread Sample.live = Some Sample.THREAD
  /\ snd (selectCheckpoint None (Some Sample.table) Sample.live)
     = [GetMessages Sample.THREAD]
  /\ selectedCheckpoint (fst (selectCheckpoint None (Some Sample.table) Sample.live))
     = None
  /\ messages (fst (selectCheckpoint None (Some Sample.table) Sample.live))
     = map message_of_row Sample.table.
Proof.
  assert (H : active_thread Sample.live = Some Sample.THREAD) by reflexivity.
  split; [exact H|].
  exact (proj2 (proj2 (proj2
           (selectCheckpoint_preview Sample.cp0 None Sample.live)))
           Sample.THREAD Sample.table H).
Defined.

(** C6, as stated, fails. After a send the display holds the two
    messages added by the client under their local ids; the Message
    table holds the same exchange; selecting a checkpoint and
    deselecting it brings back the rows of the table under their
    database ids. *)
Lemma round_trip_counterexample :
  let st := Sample.after_send in
  let previewed := fst (selectCheckpoint (Some Sample.cp0) None st) in
  let back := fst (selectCheckpoint None (Some Sample.table_after_send) previewed) in
  selectedCheckpoint st = None
  /\ map content (messages back) = map content (messages st)
  /\ map role (messages back) = map role (messages st)
  /\ map id (messages st)
     = [str "db-1"; str "db-2"; str "user-1700000000000"; str "ai-1700000000001"]
  /\ map id (messages back) = [str "db-1"; str "db-2"; str "db-3"; str "db-4"]
  /\ messages back <> messages st.
Proof.
  vm_compute. repeat split; try reflexivity. discriminate.
Qed.

(** C6, amended. When the display is the one loaded from the Message
    table of the active thread and no checkpoint is selected, selecting
    a checkpoint and then deselecting it, the table being the same and
    its rows arriving, gives back the state before the selection: the
    same messages with their ids, roles, contents and attachments. *)
Theorem select_deselect_round_trip :
  forall (c : Checkpoint) (t : jstring) (rows : list Message) (st : State),
    active_thread st = Some t ->
    selectedCheckpoint st = None ->
    messages st = map message_of_row rows ->
    let previewed := fst (selectCheckpoint (Some c) None st) in
    let back := fst (selectCheckpoint None (Some rows) previewed) in
    messages back = messages st /\ back = st.
Proof.
  intros c t rows st Hthread Hnone Hloaded previewed back.
  assert (Hback : back = st).
  { subst back previewed. unfold selectCheckpoint at 1. cbn [fst].
    unfold active_thread in *. cbn [selectCheckpoint fst currentThreadId setMessages setSelectedCheckpoint].
    destruct st as [ms il ths cur ps cps sel ihl stl]. cbn in *.
    rewrite Hthread. cbn. subst. reflexivity. }
  split; [now rewrite Hback|exact Hback].
Qed.

Lemma select_deselect_round_trip_witness :
  let st := Sample.live in
  let previewed := fst (selectCheckpoint (Some Sample.cp0) None st) in
  let back := fst (selectCheckpoint None (Some Sample.table) previewed) in
  active_thread st = Some Sample.THREAD
  /\ selectedCheckpoint st = None
  /\ messages st = map message_of_row Sample.table
  /\ messages back = messages st /\ back = st.
Proof.
  intros st previewed back.
  assert (H1 : active_thread st = Some Sample.THREAD) by reflexivity.
  assert (H2 : selectedCheckpoint st = None) by reflexivity.
  assert (H3 : messages st = map message_of_row Sample.table) by reflexivity.
  split; [exact H1|]. split; [exact H2|]. split; [exact H3|].
  exact (select_deselect_round_trip Sample.cp0 Sample.THREAD Sample.table st H1 H2 H3).
Defined.

(* ------------------------------------------------------------------ *)
(** * The hook: streaming operations *)
(* ------------------------------------------------------------------ *)

Lemma evolved_refl (a : jstring) (l : list ChatMessage) : evolved a l l.
Proof. induction l; constructor; auto. Qed.

Lemma evolved_trans (a : jstring) (l1 l2 l3 : list ChatMessage) :
  evolved a l1 l2 -> evolved a l2 l3 -> evolved a l1 l3.
Proof.
  intros H12; revert l3; induction H12 as [|b m l1 l2 [Hi [Hr [Ha He]]] _ IH];
    intros l3 H23; inversion H23 as [|m' n l2' l3' [Hi' [Hr' [Ha' He']]] Hrest];
    subst; constructor; [|now apply IH].
  repeat split; try congruence.
  intros Hne. rewrite He' by congruence. now apply He.
Qed.

(** An update by id that keeps id, role and attachments. *)
Lemma evolved_update (a : jstring) (f : ChatMessage -> ChatMessage)
  (l : list ChatMessage) :
  (forall m, id (f m) = id m /\ role (f m) = role m
             /\ attachments (f m) = attachments m) ->
  evolved a l (map (fun m => if jeqb (id m) a then f m else m) l).
Proof.
  intros Hf. induction l as [|m l IH]; constructor; [|exact IH].
  destruct (jeqb (id m) a) eqn:E.
  - destruct (Hf m) as [Hi [Hr Ha]]. repeat split; try assumption.
    apply jeqb_eq in E. congruence.
  - repeat split; reflexivity.
Qed.

(** The update of a list that ends with the placeholder. *)
Lemma update_placeholder (a : jstring) (f : ChatMessage -> ChatMessage)
  (before : list ChatMessage) (p : ChatMessage) :
  id p = a ->
  map (fun m => if jeqb (id m) a then f m else m) (before ++ [p]) =
  map (fun m => if jeqb (id m) a then f m else m) before ++ [f p].
Proof.
  intros Hid. rewrite map_app. cbn [map]. now rewrite Hid, jeqb_refl.
Qed.

Lemma keeps_shape_content (g : ChatMessage -> jstring) :
  keeps_shape (fun m => with_content (g m) m).
Proof. intros m. repeat split. Qed.

Lemma keeps_shape_not_streaming : keeps_shape not_streaming.
Proof. intros m. repeat split. Qed.

Lemma keeps_shape_both (g : ChatMessage -> jstring) :
  keeps_shape (fun m => not_streaming (with_content (g m) m)).
Proof. intros m. repeat split. Qed.

Create HintDb hook.
#[local] Hint Resolve evolved_refl keeps_shape_content keeps_shape_not_streaming
  keeps_shape_both : hook.

Lemma steady_refl (a : jstring) (st : State) : steady a st st.
Proof. split; [apply evolved_refl|reflexivity]. Qed.

Lemma steady_trans (a : jstring) (s1 s2 s3 : State) :
  steady a s1 s2 -> steady a s2 s3 -> steady a s1 s3.
Proof.
  intros [H1 H2] [H3 H4]. split; [now apply (evolved_trans a _ (messages s2))|].
  congruence.
Qed.

Lemma steady_update (a : jstring) (f : ChatMessage -> ChatMessage) (st : State) :
  keeps_shape f -> steady a st (update_message a f st).
Proof. intros Hf. split; [now apply evolved_update|reflexivity]. Qed.

Lemma steady_progress (a : jstring) (v : JsValue) (st : State) :
  steady a st (setProgressStatus v st).
Proof. split; [apply evolved_refl|reflexivity]. Qed.

Ltac steady_step :=
  first
    [ apply steady_refl
    | eapply steady_trans; [apply steady_progress|];
      apply steady_update; auto with hook
    | apply steady_update; auto with hook
    | apply steady_progress ].

Ltac handler_cases H :=
  match type of H with
  | context [get_prop ?event (str "type")] =>
      destruct (get_prop event (str "type")) as [?ty|]; [|discriminate H];
      destruct (get_prop event (str "content")) as [?c|]; [|discriminate H]
  end;
  repeat match type of H with
         | context [if ?b then _ else _] => destruct b
         end;
  injection H as <-.

Ltac stream_cases reader looped :=
  match goal with
  | |- context [for_await ?h (fst (snd ?r)) ?st] =>
      set (reader := r) in *; set (looped := for_await h (fst (snd reader)) st) in *
  end;
  destruct (snd looped) as [?e|]; [|destruct (snd (snd reader)) as [|?e]]; cbn [fst snd].

Section HookFacts.

Variable userId : jstring.
Variable JSON_parse : jstring -> Exn JsValue.
Variable JSON_stringify : JsValue -> JsValue.

Lemma send_on_event_steady (a : jstring) (event : JsValue) (st st' : State) :
  send_on_event JSON_stringify a event st = Ok st' -> steady a st st'.
Proof. unfold send_on_event. intros H. handler_cases H; steady_step. Qed.

Lemma fork_on_event_steady (a : jstring) (event : JsValue) (st st' : State) :
  fork_on_event JSON_stringify a event st = Ok st' -> steady a st st'.
Proof. unfold fork_on_event. intros H. handler_cases H; steady_step. Qed.

Lemma edit_on_event_steady (a : jstring) (event : JsValue) (st st' : State) :
  edit_on_event JSON_stringify a event st = Ok st' -> steady a st st'.
Proof. unfold edit_on_event. intros H. handler_cases H; steady_step. Qed.

Lemma for_await_steady (a : jstring) (on_event : JsValue -> State -> Exn State) :
  (forall event st st', on_event event st = Ok st' -> steady a st st') ->
  forall events st, steady a st (fst (for_await on_event events st)).
Proof.
  intros Hstep. induction events as [|event rest IH]; intros st; cbn [for_await].
  - apply steady_refl.
  - destruct (on_event event st) as [st'|e] eqn:E; [|apply steady_refl].
    eapply steady_trans; [exact (Hstep _ _ _ E)|apply IH].
Qed.

Lemma on_failure_steady (a : jstring) (st : State) : steady a st (on_failure a st).
Proof. unfold on_failure. steady_step. Qed.

Lemma finally_steady (a : jstring) (st : State) : steady a st (finally st).
Proof. split; [apply evolved_refl|reflexivity]. Qed.

Lemma refreshThreads_steady (a : jstring) (answer : option (list Thread)) (st : State) :
  steady a st (fst (refreshThreads userId answer st)).
Proof. destruct answer; (split; [apply evolved_refl|reflexivity]). Qed.

Lemma loadHistory_steady (a : jstring) (answer : option (list Checkpoint)) (st : State) :
  steady a st (fst (loadHistory answer st)).
Proof.
  unfold loadHistory. destruct (active_thread st); [|apply steady_refl].
  destruct answer; (split; [apply evolved_refl|reflexivity]).
Qed.

Lemma send_stream_steady (text t : jstring) (files : option (list MessageAttachment))
  (a : jstring) (w : World) (st : State) :
  steady a st (fst (send_stream userId JSON_parse JSON_stringify text t files a w st)).
Proof.
  unfold send_stream.
  pose proof (for_await_steady a _ (send_on_event_steady a)
                (fst (snd (streamChat JSON_parse text t userId files (stream w)))) st)
    as Hloop.
  stream_cases reader looped; eapply steady_trans; try exact Hloop;
    try (eapply steady_trans; [apply on_failure_steady|apply finally_steady]).
  eapply steady_trans; [apply refreshThreads_steady|apply finally_steady].
Qed.

Lemma fork_stream_steady (text t cpid : jstring)
  (files : option (list MessageAttachment)) (a : jstring) (w : World) (st : State) :
  steady a st
    (fst (fork_stream userId JSON_parse JSON_stringify text t cpid files a w st)).
Proof.
  unfold fork_stream.
  pose proof (for_await_steady a _ (fork_on_event_steady a)
                (fst (snd (streamFork JSON_parse text t userId cpid files (stream w))))
                st) as Hloop.
  stream_cases reader looped; eapply steady_trans; try exact Hloop;
    try (eapply steady_trans; [apply on_failure_steady|apply finally_steady]).
  eapply steady_trans; [apply loadHistory_steady|].
  eapply steady_trans; [apply refreshThreads_steady|apply finally_steady].
Qed.

Lemma edit_stream_steady (text t : jstring) (files : list MessageAttachment)
  (a : jstring) (w : World) (st : State) :
  steady a st (fst (edit_stream userId JSON_parse JSON_stringify text t files a w st)).
Proof.
  unfold edit_stream.
  pose proof (for_await_steady a _ (edit_on_event_steady a)
                (fst (snd (streamChat JSON_parse text t userId (Some files) (stream w))))
                st) as Hloop.
  stream_cases reader looped; eapply steady_trans; try exact Hloop;
    try (eapply steady_trans; [apply on_failure_steady|apply finally_steady]).
  eapply steady_trans; [apply loadHistory_steady|].
  eapply steady_trans; [apply refreshThreads_steady|apply finally_steady].
Qed.

End HookFacts.

Lemma is_string_spec (lit : jstring) (v : JsValue) :
  is_string lit v = true <-> v = JStr lit.
Proof.
  destruct v; simpl; try (split; discriminate).
  rewrite jeqb_eq. split; congruence.
Qed.

Lemma get_prop_readable (v w : JsValue) (k k' : jstring) :
  get_prop v k = Ok w -> exists w', get_prop v k' = Ok w'.
Proof.
  destruct v; simpl; try discriminate; intros _; eauto.
  destruct (own_prop k' props); eauto.
Qed.


(** The user message never carries the id of the placeholder, so the
    stream leaves it as it was added. *)
Lemma user_id_is_not_ai_id (n m : N) :
  str "user-" ++ number_to_string n <> str "ai-" ++ number_to_string m.
Proof. discriminate. Qed.

Lemma add_optimistic_messages (text : jstring) (files : list MessageAttachment)
  (w : World) (st : State) :
  messages (fst (add_optimistic text files w st)) =
  messages st
  ++ [ {| id := str "user-" ++ number_to_string (now_user w); role := human;
          content := text; attachments := Some files; isStreaming := None |};
       placeholder (str "ai-" ++ number_to_string (now_ai w)) ].
Proof.
  unfold add_optimistic. cbn [fst messages setMessages setIsLoading].
  now rewrite <- app_assoc.
Qed.

Section SendFacts.

Variable userId : jstring.
Variable JSON_parse : jstring -> Exn JsValue.
Variable JSON_stringify : JsValue -> JsValue.



Lemma same_thread_refl (a : option jstring) : same_thread a a = true.
Proof. destruct a; [apply jeqb_refl|reflexivity]. Qed.

(** With the guard passed and a thread open, [sendMessage] is the
    optimistic update followed by the [try] statement. *)
Lemma sendMessage_accepted (text : jstring) (files : option (list MessageAttachment))
  (w : World) (st : State) (t : jstring) :
  blank text = false -> isLoading st = false -> active_thread st = Some t ->
  sendMessage userId JSON_parse JSON_stringify text files w st =
  send_stream userId JSON_parse JSON_stringify text t files
    (snd (add_optimistic text (or_empty files) w st)) w
    (fst (add_optimistic text (or_empty files) w st)).
Proof.
  intros Hb Hl Ht. unfold sendMessage, send_thread. rewrite Hb, Hl, Ht. cbn [orb].
  rewrite same_thread_refl. cbn [fst snd app]. symmetry. apply surjective_pairing.
Qed.


Lemma send_thread_open (w : World) (st : State) (t : jstring) :
  active_thread st = Some t -> fst (send_thread userId w st) = Some (t, st).
Proof. intros Ht. unfold send_thread. now rewrite Ht. Qed.

Lemma send_thread_steady (w : World) (st st0 : State) (t : jstring) :
  fst (send_thread userId w st) = Some (t, st0) ->
  messages st0 = messages st /\ selectedCheckpoint st0 = selectedCheckpoint st.
Proof.
  unfold send_thread. destruct (active_thread st).
  - intros H. inversion H; subst. split; reflexivity.
  - cbn [fst]. destruct (created_thread w); [|discriminate].
    intros H. inversion H; subst. split; reflexivity.
Qed.

Lemma forkFromCheckpoint_accepted (text cpid : jstring)
  (files : option (list MessageAttachment)) (w : World) (st : State) (t : jstring) :
  blank text = false -> isLoading st = false -> active_thread st = Some t ->
  forkFromCheckpoint userId JSON_parse JSON_stringify text cpid files w st =
  fork_stream userId JSON_parse JSON_stringify text t cpid files
    (snd (add_optimistic text (or_empty files) w (setSelectedCheckpoint None st))) w
    (fst (add_optimistic text (or_empty files) w (setSelectedCheckpoint None st))).
Proof.
  intros Hb Hl Ht. unfold forkFromCheckpoint. now rewrite Hb, Hl, Ht.
Qed.

Lemma send_stream_requests (text t : jstring) (files : option (list MessageAttachment))
  (a : jstring) (w : World) (st : State) :
  stream_requests (snd (send_stream userId JSON_parse JSON_stringify text t files a w st))
  = [PostChat text t userId (or_empty files)].
Proof. unfold send_stream. stream_cases reader looped; reflexivity. Qed.

Lemma fork_stream_requests (text t cpid : jstring)
  (files : option (list MessageAttachment)) (a : jstring) (w : World) (st : State) :
  stream_requests
    (snd (fork_stream userId JSON_parse JSON_stringify text t cpid files a w st))
  = [PostFork text t userId cpid (or_empty files)].
Proof.
  unfold fork_stream. stream_cases reader looped; try reflexivity.
  unfold loadHistory. now destruct (active_thread (fst looped)).
Qed.

Lemma edit_stream_requests (text t : jstring) (files : list MessageAttachment)
  (a : jstring) (w : World) (st : State) :
  stream_requests (snd (edit_stream userId JSON_parse JSON_stringify text t files a w st))
  = [PostChat text t userId files].
Proof.
  unfold edit_stream. stream_cases reader looped; try reflexivity.
  unfold loadHistory. now destruct (active_thread (fst looped)).
Qed.

Lemma send_thread_requests (w : World) (st : State) :
  stream_requests (snd (send_thread userId w st)) = [].
Proof. unfold send_thread. now destruct (active_thread st). Qed.

(** The effect on [currentThreadId] touches the display only. *)
Lemma thread_changed_keeps (answer : option (list Message)) (st : State) :
  let st' := fst (thread_changed answer st) in
  selectedCheckpoint st' = selectedCheckpoint st
  /\ currentThreadId st' = currentThreadId st
  /\ isLoading st' = isLoading st
  /\ progressStatus st' = progressStatus st
  /\ stream_requests (snd (thread_changed answer st)) = [].
Proof.
  unfold thread_changed. destruct (active_thread st); [|repeat split].
  destruct answer; repeat split.
Qed.

Lemma send_stream_created_requests (text t : jstring)
  (files : option (list MessageAttachment)) (a : jstring) (w : World) (st : State) :
  stream_requests
    (snd (send_stream_created userId JSON_parse JSON_stringify text t files a w st))
  = [PostChat text t userId (or_empty files)].
Proof.
  unfold send_stream_created, streamChat. cbn [fst snd].
  destruct (thread_changed_keeps (thread_rows w) st) as [_ [_ [_ [_ Hnone]]]].
  unfold stream_requests in *.
  repeat match goal with
         | |- context [match ?x with _ => _ end] => destruct x
         end;
    cbn [fst snd refreshThreads]; rewrite ?filter_app;
    cbn [filter is_stream_request]; rewrite Hnone; reflexivity.
Qed.

(** The chat request of an accepted send is its only chat or fork
    request, whether the thread is open or created for the send. *)
Lemma sendMessage_requests (text : jstring) (files : option (list MessageAttachment))
  (w : World) (st st0 : State) (t : jstring) :
  blank text = false -> isLoading st = false ->
  fst (send_thread userId w st) = Some (t, st0) ->
  stream_requests (snd (sendMessage userId JSON_parse JSON_stringify text files w st))
  = [PostChat text t userId (or_empty files)].
Proof.
  intros Hb Hl Ht. unfold sendMessage. rewrite Hb, Hl. cbn [orb].
  pose proof (send_thread_requests w st) as Hasked.
  destruct (send_thread userId w st) as [o asked]. cbn [fst snd] in *. subst o.
  cbn [snd]. unfold stream_requests in *. rewrite filter_app, Hasked. cbn [app].
  destruct (same_thread (currentThreadId st0) (currentThreadId st)).
  - apply send_stream_requests.
  - apply send_stream_created_requests.
Qed.

Lemma for_await_selection (a : jstring) (events : list JsValue) (st : State) :
  selectedCheckpoint (fst (for_await (send_on_event JSON_stringify a) events st))
  = selectedCheckpoint st.
Proof.
  exact (proj2 (for_await_steady a _ (send_on_event_steady JSON_stringify a) events st)).
Qed.

Lemma send_stream_created_selection (text t : jstring)
  (files : option (list MessageAttachment)) (a : jstring) (w : World) (st : State) :
  selectedCheckpoint
    (fst (send_stream_created userId JSON_parse JSON_stringify text t files a w st))
  = selectedCheckpoint st.
Proof.
  unfold send_stream_created.
  match goal with
  | |- context [for_await ?h (firstn ?k ?l) st] =>
      pose proof (for_await_selection a (firstn k l) st) as Hearly;
      set (early := for_await h (firstn k l) st) in *
  end.
  destruct (snd early) as [e|].
  - cbn [fst].
    destruct (thread_changed_keeps (thread_rows w)
                (finally (on_failure a (fst early)))) as [-> _].
    exact Hearly.
  - destruct (thread_changed_keeps (thread_rows w) (fst early)) as [Hloaded _].
    match goal with
    | |- context [for_await ?h (skipn ?k ?l) ?s] =>
        pose proof (for_await_selection a (skipn k l) s) as Hlate;
        set (late := for_await h (skipn k l) s) in *
    end.
    destruct (snd late) as [e|];
      [|destruct (snd (snd (streamChat JSON_parse text t userId files (stream w))))];
      cbn [fst]; try (destruct (fetched_threads w)); cbn; congruence.
Qed.

(** [sendMessage] never changes the checkpoint selection. *)
Lemma sendMessage_keeps_selection (text : jstring)
  (files : option (list MessageAttachment)) (w : World) (st : State) :
  selectedCheckpoint (fst (sendMessage userId JSON_parse JSON_stringify text files w st))
  = selectedCheckpoint st.
Proof.
  unfold sendMessage.
  destruct (blank text || isLoading st); [reflexivity|].
  destruct (send_thread userId w st) as [[[t st0]|] asked] eqn:E; [|reflexivity].
  cbn [fst].
  assert (H0 : selectedCheckpoint st0 = selectedCheckpoint st).
  { apply (send_thread_steady w st st0 t). now rewrite E. }
  destruct (same_thread (currentThreadId st0) (currentThreadId st)).
  - match goal with
    | |- context [send_stream _ _ _ ?text ?t ?files ?a ?w ?s] =>
        destruct (send_stream_steady userId JSON_parse JSON_stringify text t files a w s)
          as [_ ->]
    end.
    exact H0.
  - rewrite send_stream_created_selection. exact H0.
Qed.

(** The loop body of [forkFromCheckpoint] does what that of
    [sendMessage] does on every event but a [message] event, which it
    leaves without effect. *)
Lemma fork_on_event_as_send (a : jstring) (event : JsValue) (st : State) :
  ~ has_kind (str "message") event ->
  fork_on_event JSON_stringify a event st = send_on_event JSON_stringify a event st.
Proof.
  unfold has_kind, fork_on_event, send_on_event. intros Hk.
  destruct (get_prop event (str "type")) as [ty|]; [|reflexivity].
  destruct (get_prop event (str "content")) as [c|]; [|reflexivity].
  destruct (is_string (str "message") ty) eqn:E; [|reflexivity].
  apply is_string_spec in E. subst ty. now destruct Hk.
Qed.

Lemma fork_on_event_message (a : jstring) (event : JsValue) (st : State) :
  has_kind (str "message") event ->
  fork_on_event JSON_stringify a event st = Ok st.
Proof.
  unfold has_kind, fork_on_event. intros Hk.
  destruct (get_prop_readable _ _ _ (str "content") Hk) as [c Hc].
  rewrite Hk, Hc. reflexivity.
Qed.

End SendFacts.

(* ------------------------------------------------------------------ *)
(** * The hook: what a stream leaves on the display *)
(* ------------------------------------------------------------------ *)

Lemma for_await_app (on_event : JsValue -> State -> Exn State)
  (first later : list JsValue) (st : State) :
  for_await on_event (first ++ later) st =
  match snd (for_await on_event first st) with
  | None => for_await on_event later (fst (for_await on_event first st))
  | Some e => for_await on_event first st
  end.
Proof.
  revert st; induction first as [|event rest IH]; intros st; cbn [app for_await].
  - reflexivity.
  - destruct (on_event event st) as [st'|e]; [apply IH|reflexivity].
Qed.

(** An update by id leaves the messages with another id as they
    are. *)
Lemma update_fresh (a : jstring) (f : ChatMessage -> ChatMessage)
  (l : list ChatMessage) :
  Forall (fun m => id m <> a) l ->
  map (fun m => if jeqb (id m) a then f m else m) l = l.
Proof.
  induction 1 as [|m l Hm _ IH]; cbn [map]; [reflexivity|].
  apply jeqb_neq in Hm. now rewrite Hm, IH.
Qed.

Lemma update_last (a : jstring) (f : ChatMessage -> ChatMessage)
  (before : list ChatMessage) (p : ChatMessage) :
  Forall (fun m => id m <> a) before -> id p = a ->
  map (fun m => if jeqb (id m) a then f m else m) (before ++ [p]) = before ++ [f p].
Proof.
  intros Hfresh Hid. rewrite update_placeholder by exact Hid.
  now rewrite update_fresh.
Qed.

(** The display after the optimistic update, as a list that ends with
    the placeholder. *)
Lemma add_optimistic_last (text : jstring) (files : list MessageAttachment)
  (w : World) (st : State) :
  messages (fst (add_optimistic text files w st)) =
  (messages st
   ++ [ {| id := str "user-" ++ number_to_string (now_user w); role := human;
           content := text; attachments := Some files; isStreaming := None |} ])
  ++ [placeholder (str "ai-" ++ number_to_string (now_ai w))].
Proof. rewrite add_optimistic_messages. now rewrite <- app_assoc. Qed.

Lemma fresh_with_user (a : jstring) (n : N) (u : ChatMessage) (l : list ChatMessage) :
  a = str "ai-" ++ number_to_string n ->
  (exists k, id u = str "user-" ++ number_to_string k) ->
  Forall (fun m => id m <> a) l ->
  Forall (fun m => id m <> a) (l ++ [u]).
Proof.
  intros -> [k Hu] Hl. apply Forall_app. split; [exact Hl|].
  constructor; [|constructor]. rewrite Hu. discriminate.
Qed.

Lemma terminal_done (event : JsValue) :
  has_kind (str "done") event -> is_terminal event = true.
Proof. unfold has_kind, is_terminal. now intros ->. Qed.

Section StreamFacts.

Variable userId : jstring.
Variable JSON_parse : jstring -> Exn JsValue.
Variable JSON_stringify : JsValue -> JsValue.

Ltac token_handler :=
  split;
  [ intros a event t st Hk Hx; cbv delta [send_on_event fork_on_event edit_on_event];
    cbv beta; rewrite Hk, Hx; reflexivity
  | intros a event st Hk; cbv delta [send_on_event fork_on_event edit_on_event];
    cbv beta;
    destruct (get_prop_readable _ _ _ (str "content") Hk) as [c Hc];
    rewrite Hk, Hc; reflexivity ].

Lemma send_handles_tokens : Display.handles_tokens (send_on_event JSON_stringify).
Proof. token_handler. Qed.

Lemma fork_handles_tokens : Display.handles_tokens (fork_on_event JSON_stringify).
Proof. token_handler. Qed.

Lemma edit_handles_tokens : Display.handles_tokens (edit_on_event JSON_stringify).
Proof. token_handler. Qed.

(** A run of token events appends their texts, in order, to the
    content of the placeholder and changes nothing else. *)
Lemma tokens_accumulate (on_event : jstring -> JsValue -> State -> Exn State)
  (a : jstring) (before : list ChatMessage) :
  Display.handles_tokens on_event ->
  Forall (fun m => id m <> a) before ->
  forall (texts : list jstring) (tokens : list JsValue),
    Forall2 (fun t event => has_kind (str "token") event /\ has_text t event)
      texts tokens ->
    forall (p : ChatMessage) (st : State),
      messages st = before ++ [p] -> id p = a ->
      for_await (on_event a) tokens st =
      (setMessages (before ++ [with_content (content p ++ concat texts) p]) st, None).
Proof.
  intros [Htoken _] Hfresh texts tokens Hall.
  induction Hall as [|t event texts tokens [Hk Hx] _ IH]; intros p st Hm Hid.
  - cbn [for_await concat]. rewrite app_nil_r.
    destruct st, p; cbn in *; subst; reflexivity.
  - cbn [for_await concat]. rewrite (Htoken a event t st Hk Hx).
    rewrite (IH (with_content (content p ++ t) p)
               (update_message a (fun msg => with_content (content msg ++ t) msg) st)).
    + cbn [content with_content]. rewrite <- app_assoc. reflexivity.
    + cbn [update_message messages setMessages]. rewrite Hm.
      now apply (update_last a (fun msg => with_content (content msg ++ t) msg)).
    + exact Hid.
Qed.

End StreamFacts.

Section SendDisplay.

Variable userId : jstring.
Variable JSON_parse : jstring -> Exn JsValue.
Variable JSON_stringify : JsValue -> JsValue.

(** The state in which the stream of an accepted send starts. *)
Lemma send_begun (text : jstring) (files : list MessageAttachment) (w : World)
  (st st0 : State) (t : jstring) :
  fst (send_thread userId w st) = Some (t, st0) ->
  Display.fresh w (messages st) ->
  let begun := fst (add_optimistic text files w st0) in
  messages begun
  = (messages st ++ [Display.user_message w text files])
    ++ [placeholder (Display.ai_id w)]
  /\ Display.fresh w (messages st ++ [Display.user_message w text files])
  /\ snd (add_optimistic text files w st0) = Display.ai_id w.
Proof.
  intros Ht Hfresh begun. subst begun.
  destruct (send_thread_steady userId w st st0 t Ht) as [Hm _].
  split; [|split].
  - rewrite add_optimistic_last, Hm. reflexivity.
  - apply Forall_app. split; [exact Hfresh|].
    constructor; [|constructor]. discriminate.
  - reflexivity.
Qed.

(** The end of [send_stream] when the loop was not left by an
    exception and the reader returned. *)
Lemma send_stream_returned (text t : jstring) (files : option (list MessageAttachment))
  (a : jstring) (w : World) (st st' : State) :
  for_await (send_on_event JSON_stringify a)
    (fst (snd (streamChat JSON_parse text t userId files (stream w)))) st
  = (st', None) ->
  snd (snd (streamChat JSON_parse text t userId files (stream w))) = Returned ->
  send_stream userId JSON_parse JSON_stringify text t files a w st
  = (finally (fst (refreshThreads userId (fetched_threads w) st')),
     [PostChat text t userId (or_empty files); GetThreads userId]).
Proof.
  intros Hloop Hret. unfold send_stream. rewrite Hloop, Hret. reflexivity.
Qed.

(** The end of [send_stream] when the reader threw. *)
Lemma send_stream_threw (text t : jstring) (files : option (list MessageAttachment))
  (a : jstring) (w : World) (st : State) (e : JsError) :
  snd (snd (streamChat JSON_parse text t userId files (stream w))) = Threw e ->
  let looped :=
    for_await (send_on_event JSON_stringify a)
      (fst (snd (streamChat JSON_parse text t userId files (stream w)))) st in
  send_stream userId JSON_parse JSON_stringify text t files a w st
  = (finally (on_failure a (fst looped)), [PostChat text t userId (or_empty files)]).
Proof.
  intros Hthrew looped. unfold send_stream. fold looped. rewrite Hthrew.
  now destruct (snd looped).
Qed.

Lemma refresh_finally_messages (answer : option (list Thread)) (st : State) :
  let st' := finally (fst (refreshThreads userId answer st)) in
  messages st' = messages st /\ isLoading st' = false /\ progressStatus st' = JNull.
Proof. destruct answer; repeat split. Qed.

End SendDisplay.






Section SendOutcome.

Variable userId : jstring.
Variable JSON_parse : jstring -> Exn JsValue.
Variable JSON_stringify : JsValue -> JsValue.




(** The display at the end of the [try] statement of [sendMessage], by
    the way the stream ends after its token events. *)
Section Outcome.

Variables (text t : jstring) (files : option (list MessageAttachment)).
Variables (a : jstring) (w : World) (begun : State).
Variables (before : list ChatMessage) (texts : list jstring) (tokens : list JsValue).

Hypothesis Hbegun : messages begun = before ++ [placeholder a].
Hypothesis Hfresh : Forall (fun m => id m <> a) before.
Hypothesis Htokens : Display.tokens_of texts tokens.

Let reader := snd (streamChat JSON_parse text t userId files (stream w)).
Let r := send_stream userId JSON_parse JSON_stringify text t files a w begun.





End Outcome.



End SendOutcome.



Section SendTrace.

Variable userId : jstring.
Variable JSON_parse : jstring -> Exn JsValue.
Variable JSON_stringify : JsValue -> JsValue.









End SendTrace.

(** C2, the failing input. With checkpoint [cp-0] selected for
    preview, a send leaves it selected and appends the new exchange to
    the checkpoint's messages; a fork from the same state clears the
    selection. *)
Theorem send_keeps_preview_selection :
  let after := fst (Sample.send "H2" (Sample.world Sample.hello) Sample.previewing) in
  let forked :=
    fst (Sample.fork "H2" Sample.cp0 (Sample.world Sample.hello) Sample.previewing) in
  selectedCheckpoint Sample.previewing = Some Sample.cp0
  /\ selectedCheckpoint after = Some Sample.cp0
  /\ isPreviewingCheckpoint after = true
  /\ map id (messages after)
     = [str "checkpoint-cp-0-0"; str "checkpoint-cp-0-1";
        str "user-1700000000000"; str "ai-1700000000001"]
  /\ map content (messages after) = [str "H1"; str "A1"; str "H2"; str "Hello"]
  /\ selectedCheckpoint forked = None.
Proof. vm_compute. repeat split; reflexivity. Qed.

(** C4, the failing input. On a stream that carries the answer in one
    [message] event, a send shows the answer and a fork leaves the
    placeholder empty. *)
Theorem fork_drops_message_event :
  let response :=
    Body [Sample.frame (Sample.full_message "Hello") ++ Sample.frame Sample.done]
      EndOfStream in
  let sent := fst (Sample.send "H2" (Sample.world response) Sample.live) in
  let forked := fst (Sample.fork "H2" Sample.cp0 (Sample.world response) Sample.live) in
  map content (messages sent) = [str "H1"; str "A1"; str "H2"; str "Hello"]
  /\ map content (messages forked) = [str "H1"; str "A1"; str "H2"; []]
  /\ snd (Sample.fork "H2" Sample.cp0 (Sample.world response) Sample.live)
     = [PostFork (str "H2") Sample.THREAD Sample.USER (str "cp-0") [];
        GetHistory Sample.THREAD; GetThreads Sample.USER].
Proof. vm_compute. repeat split; reflexivity. Qed.




(** The tokens of an answer are concatenated in the order of their
    arrival. *)
Example send_concatenates_tokens :
  let after := fst (Sample.send "H2" (Sample.world Sample.hello) Sample.live) in
  map content (messages after) = [str "H1"; str "A1"; str "H2"; str "Hello"]
  /\ map isStreaming (messages after) = [None; None; None; Some false]
  /\ isLoading after = false.
Proof. vm_compute. repeat split; reflexivity. Qed.

(** A first send creates the thread, makes it current and goes to it;
    the rows of the new thread are asked for, and when they arrive, none
    yet, the user message and the answer leave the display. *)
Example send_creates_thread :
  let run := Sample.send "hi" (Sample.world_creating Sample.hello) initial in
  snd run
  = [PostThread Sample.USER None;
     PostChat (str "hi") (str "thread-9") Sample.USER [];
     GetMessages (str "thread-9");
     GetThreads Sample.USER]
  /\ currentThreadId (fst run) = Some (str "thread-9")
  /\ messages (fst run) = [].
Proof. vm_compute. repeat split; reflexivity. Qed.

Section EditFacts.

Variable userId : jstring.
Variable JSON_parse : jstring -> Exn JsValue.
Variable JSON_stringify : JsValue -> JsValue.

Lemma edit_history_list (t : jstring) (w : World) (st : State) :
  fst (fst (edit_history t w st)) =
  match checkpoints st, first_history w with
  | [], Some fetched => fetched
  | cached, _ => cached
  end.
Proof.
  unfold edit_history. destruct (checkpoints st) as [|c l]; cbn [length Nat.eqb].
  - now destruct (first_history w).
  - now destruct (first_history w).
Qed.

Lemma edit_history_state (t : jstring) (w : World) (st : State) :
  let st1 := snd (fst (edit_history t w st)) in
  messages st1 = messages st /\ isLoading st1 = isLoading st
  /\ active_thread st1 = active_thread st
  /\ stream_requests (snd (edit_history t w st)) = [].
Proof.
  unfold edit_history. destruct (Nat.eqb (length (checkpoints st)) 0);
    [destruct (first_history w)|]; repeat split.
Qed.

End EditFacts.

(** C1. For an edit of the message at index [i] that passes the guard
    (new content not blank, no request in flight, a thread active):
    the first request is the truncation of the Message table to its
    first [i] rows; the checkpoint list searched is the cached one, or
    the one fetched when the cache is empty; if it holds a checkpoint
    with exactly [i] recorded messages, the only chat or fork request
    is a fork request carrying the id of such a checkpoint and the
    edited content, and otherwise it is a plain chat request with the
    edited content; in both cases the display is the first [i]
    messages followed by the edited user message and the placeholder,
    evolved by the stream. *)
Theorem editMessage_follows_algorithm :
  forall (userId : jstring) (JSON_parse : jstring -> Exn JsValue)
         (JSON_stringify : JsValue -> JsValue)
         (newContent : jstring) (i : nat) (w : World) (st : State)
         (threadId : jstring),
    blank newContent = false -> isLoading st = false ->
    active_thread st = Some threadId ->
    let history :=
      match checkpoints st, first_history w with
      | [], Some fetched => fetched
      | cached, _ => cached
      end in
    let kept := firstn i (messages st) in
    let files := original_attachments st i in
    let aiMessageId := str "ai-" ++ number_to_string (now_ai w) in
    let userMessage := {|
      id := str "user-" ++ number_to_string (now_user w); role := human;
      content := newContent; attachments := Some files; isStreaming := None |} in
    let run := editMessage userId JSON_parse JSON_stringify newContent i w st in
    hd_error (snd run) = Some (PostTruncate threadId i)
    /\ evolved aiMessageId (kept ++ [userMessage; placeholder aiMessageId])
         (messages (fst run))
    /\ ((exists cp, In cp history /\ length (cp_messages cp) = i) ->
        exists cp, In cp history /\ length (cp_messages cp) = i
                   /\ stream_requests (snd run)
                      = [PostFork newContent threadId userId (checkpoint_id cp) files])
    /\ ((forall cp, In cp history -> length (cp_messages cp) <> i) ->
        stream_requests (snd run) = [PostChat newContent threadId userId files]).
Proof.
  intros userId JSON_parse JSON_stringify newContent i w st threadId Hb Hl Ht
    history kept files aiMessageId userMessage run.
  pose proof (edit_history_list threadId w st) as Hhist. fold history in Hhist.
  pose proof (edit_history_state threadId w st) as [Hm [Hl1 [Ht1 Hreq]]].
  subst run. unfold editMessage. rewrite Hb, Hl, Ht. cbn [orb].
  destruct (edit_history threadId w st) as [[history' st1] asked].
  cbn [fst snd] in Hhist, Hm, Hl1, Ht1, Hreq. subst history'.
  fold files kept.
  assert (Hfilter : forall tail,
            stream_requests (truncateMessages threadId i :: asked ++ tail)
            = stream_requests tail).
  { intros tail. unfold stream_requests in *. cbn [filter truncateMessages is_stream_request].
    now rewrite filter_app, Hreq. }
  destruct (find_checkpoint i history) as [cp|] eqn:Efind.
  - (* a checkpoint with [i] messages: fork *)
    apply find_some in Efind as [Hin Hlen]. apply Nat.eqb_eq in Hlen.
    rewrite (forkFromCheckpoint_accepted userId JSON_parse JSON_stringify newContent
               (checkpoint_id cp) (Some files) w (setMessages kept st1) threadId
               Hb (eq_trans Hl1 Hl) (eq_trans Ht1 Ht)).
    cbn [fst snd or_empty]. fold aiMessageId.
    split; [reflexivity|]. split; [|split].
    + pose proof (fork_stream_steady userId JSON_parse JSON_stringify newContent threadId
                    (checkpoint_id cp) (Some files) aiMessageId w
                    (fst (add_optimistic newContent files w
                            (setSelectedCheckpoint None (setMessages kept st1)))))
        as [Hev _].
      now rewrite add_optimistic_messages in Hev.
    + intros _. exists cp. split; [exact Hin|]. split; [exact Hlen|].
      rewrite Hfilter. apply fork_stream_requests.
    + intros Hnone. now destruct (Hnone cp Hin).
  - (* no such checkpoint: plain send *)
    cbn [fst snd]. fold aiMessageId.
    split; [reflexivity|]. split; [|split].
    + pose proof (edit_stream_steady userId JSON_parse JSON_stringify newContent threadId
                    files aiMessageId w
                    (fst (add_optimistic newContent files w (setMessages kept st1))))
        as [Hev _].
      now rewrite add_optimistic_messages in Hev.
    + intros [cp [Hin Hlen]].
      pose proof (find_none _ _ Efind cp Hin) as Hno. cbn beta in Hno.
      apply Nat.eqb_neq in Hno. contradiction.
    + intros _. rewrite Hfilter. apply edit_stream_requests.
Qed.

Lemma editMessage_follows_algorithm_witness :
  let w := Sample.world Sample.hello in
  let run2 := Sample.edit "H2b" 2 w Sample.after_send in
  let run1 := Sample.edit "H1b" 0 w Sample.live in
  (blank (str "H2b") = false /\ isLoading Sample.after_send = false
   /\ active_thread Sample.after_send = Some Sample.THREAD)
  /\ (exists cp, In cp [Sample.cp0] /\ length (cp_messages cp) = 2)
  /\ (exists cp, In cp [Sample.cp0] /\ length (cp_messages cp) = 2
                 /\ stream_requests (snd run2)
                    = [PostFork (str "H2b") Sample.THREAD Sample.USER
                         (checkpoint_id cp) []])
  /\ (forall cp, In cp [Sample.cp0] -> length (cp_messages cp) <> 0)
  /\ stream_requests (snd run1)
     = [PostChat (str "H1b") Sample.THREAD Sample.USER []].
Proof.
  intros w run2 run1.
  assert (H1 : blank (str "H2b") = false) by reflexivity.
  assert (H2 : isLoading Sample.after_send = false) by (vm_compute; reflexivity).
  assert (H3 : active_thread Sample.after_send = Some Sample.THREAD)
    by (vm_compute; reflexivity).
  assert (H4 : exists cp, In cp [Sample.cp0] /\ length (cp_messages cp) = 2)
    by (exists Sample.cp0; split; [left|]; reflexivity).
  assert (H5 : forall cp, In cp [Sample.cp0] -> length (cp_messages cp) <> 0)
    by (intros cp [<-|[]]; discriminate).
  split; [auto|]. split; [exact H4|]. split; [|split; [exact H5|]].
  - exact (proj1 (proj2 (proj2
             (editMessage_follows_algorithm Sample.USER Json.parse Json.stringify
                (str "H2b") 2 w Sample.after_send Sample.THREAD H1 H2 H3))) H4).
  - exact (proj2 (proj2 (proj2
             (editMessage_follows_algorithm Sample.USER Json.parse Json.stringify
                (str "H1b") 0 w Sample.live Sample.THREAD
                eq_refl eq_refl eq_refl))) H5).
Defined.
(* ------------------------------------------------------------------ *)
(** * The stream readers: the whole result *)
(* ------------------------------------------------------------------ *)

(** X1. The whole result of the two readers on a response body, for
    any chunks and either way the body ends. With [closed] the events
    of the frames closed by a blank line: the values yielded are
    [closed], followed when the body ends normally by what the trimmed
    text after the last blank line gives as one line, cut after the
    first [done] or [error] event; the reader returns when [closed]
    holds such an event or the body ends normally, and throws when a
    read is rejected before. *)
Theorem reader_result :
  forall (JSON_parse : jstring -> Exn JsValue)
         (message threadId userId checkpointId : jstring)
         (attachments : option (list MessageAttachment))
         (chunks : list jstring) (ending : StreamEnd),
    let pieces := split BLANK_LINE (concat chunks) in
    let closed := flat_map (frame_events JSON_parse) (removelast pieces) in
    let result :=
      (until_terminal
         (closed ++ match ending with
                    | EndOfStream => line_events JSON_parse (trim (last pieces []))
                    | ReadFailure => []
                    end),
       if existsb is_terminal closed then Returned
       else match ending with
            | EndOfStream => Returned
            | ReadFailure => Threw NetworkError
            end) in
    snd (streamChat JSON_parse message threadId userId attachments
           (Body chunks ending)) = result
    /\ snd (streamFork JSON_parse message threadId userId checkpointId attachments
              (Body chunks ending)) = result.
Proof.
  intros. unfold streamChat, streamFork. cbn [snd].
  split; apply read_response_body.
Qed.

(** X2. The readers do not depend on how the response text is cut into
    chunks: two bodies with the same text and the same ending give the
    same request, the same values and the same completion. *)
Theorem readers_ignore_chunking :
  forall (JSON_parse : jstring -> Exn JsValue)
         (message threadId userId checkpointId : jstring)
         (attachments : option (list MessageAttachment))
         (chunks1 chunks2 : list jstring) (ending : StreamEnd),
    concat chunks1 = concat chunks2 ->
    streamChat JSON_parse message threadId userId attachments (Body chunks1 ending)
    = streamChat JSON_parse message threadId userId attachments (Body chunks2 ending)
    /\ streamFork JSON_parse message threadId userId checkpointId attachments
         (Body chunks1 ending)
       = streamFork JSON_parse message threadId userId checkpointId attachments
           (Body chunks2 ending).
Proof.
  intros JSON_parse message threadId userId checkpointId attachments chunks1 chunks2
    ending H.
  unfold streamChat, streamFork.
  split; f_equal; now apply read_response_chunking.
Qed.

Lemma readers_ignore_chunking_witness :
  let text := Sample.frame (Sample.token "Hel") ++ Sample.frame Sample.done in
  let cut1 := [firstn 9 text; skipn 9 text] in
  let cut2 := [firstn 30 text; firstn 1 (skipn 30 text); skipn 31 text] in
  concat cut1 = concat cut2
  /\ streamChat Json.parse (str "hi") Sample.THREAD Sample.USER None
       (Body cut1 ReadFailure)
     = streamChat Json.parse (str "hi") Sample.THREAD Sample.USER None
         (Body cut2 ReadFailure).
Proof.
  intros text cut1 cut2.
  assert (H : concat cut1 = concat cut2) by (vm_compute; reflexivity).
  split; [exact H|].
  exact (proj1 (readers_ignore_chunking Json.parse (str "hi") Sample.THREAD
                  Sample.USER (str "cp-0") None cut1 cut2 ReadFailure H)).
Defined.
(** X3. An accepted send on the open thread whose stream yields token
    events and then a [done] event, when no earlier message carries the
    id of the placeholder: the display ends as the earlier messages,
    the user message, and the answer whose content is the texts of the
    tokens concatenated in order, its streaming flag cleared; the hook
    is no longer loading, the progress text is cleared, and the
    requests are the chat request followed by the refresh of the
    thread list. *)
Theorem send_shows_tokens :
  forall (userId : jstring) (JSON_parse : jstring -> Exn JsValue)
         (JSON_stringify : JsValue -> JsValue)
         (text : jstring) (files : option (list MessageAttachment))
         (w : World) (st : State) (threadId : jstring)
         (texts : list jstring) (tokens : list JsValue) (closing : JsValue),
    blank text = false -> isLoading st = false ->
    active_thread st = Some threadId ->
    Display.fresh w (messages st) ->
    fst (snd (streamChat JSON_parse text threadId userId files (stream w)))
    = tokens ++ [closing] ->
    Display.tokens_of texts tokens ->
    has_kind (str "done") closing ->
    let run := sendMessage userId JSON_parse JSON_stringify text files w st in
    messages (fst run)
    = messages st
      ++ [Display.user_message w text (or_empty files);
          Display.answer w (concat texts) false]
    /\ isLoading (fst run) = false
    /\ progressStatus (fst run) = JNull
    /\ snd run = [PostChat text threadId userId (or_empty files); GetThreads userId].
Proof.
  intros userId JSON_parse JSON_stringify text files w st threadId texts tokens
    closing Hb Hl Ht Hfresh Hyield Htokens Hdone run.
  subst run.
  rewrite (sendMessage_accepted userId JSON_parse JSON_stringify text files w st
             threadId Hb Hl Ht).
  destruct (send_begun userId text (or_empty files) w st st threadId
              (send_thread_open userId w st threadId Ht) Hfresh)
    as [Hbegun [Hfresh' ->]].
  set (begun := fst (add_optimistic text (or_empty files) w st)) in *.
  set (a := Display.ai_id w) in *.
  assert (Hret : snd (snd (streamChat JSON_parse text threadId userId files (stream w)))
                 = Returned).
  { apply (read_response_terminal JSON_parse _ (stream w) tokens [] closing Hyield).
    now apply terminal_done. }
  pose proof (tokens_accumulate (send_on_event JSON_stringify) a _
                (send_handles_tokens JSON_stringify) Hfresh' texts tokens Htokens
                (placeholder a) begun Hbegun eq_refl) as Hloop.
  cbn [content placeholder app] in Hloop.
  erewrite send_stream_returned; [| |exact Hret].
  2:{ rewrite Hyield, for_await_app, Hloop. cbn [fst snd for_await].
      rewrite (proj2 (send_handles_tokens JSON_stringify) a closing _ Hdone).
      reflexivity. }
  cbn [fst snd].
  destruct (refresh_finally_messages userId (fetched_threads w)
              (update_message a not_streaming
                 (setProgressStatus JNull
                    (setMessages
                       ((messages st ++ [Display.user_message w text (or_empty files)])
                        ++ [with_content (concat texts) (placeholder a)]) begun))))
    as [Hm [Hload Hprog]].
  split; [|split; [exact Hload|split; [exact Hprog|reflexivity]]].
  rewrite Hm. cbn [update_message messages setMessages setProgressStatus].
  rewrite (update_last a not_streaming _ (with_content (concat texts) (placeholder a))
             Hfresh' eq_refl).
  rewrite <- app_assoc. reflexivity.
Qed.

Lemma send_shows_tokens_witness :
  let w := Sample.world Sample.hello in
  let run := Sample.send "H2" w Sample.live in
  messages (fst run)
  = messages Sample.live
    ++ [Display.user_message w (str "H2") [];
        Display.answer w (concat [str "Hel"; str "lo"]) false]
  /\ isLoading (fst run) = false
  /\ progressStatus (fst run) = JNull
  /\ snd run = [PostChat (str "H2") Sample.THREAD Sample.USER []; GetThreads Sample.USER].
Proof.
  intros w run.
  apply (send_shows_tokens Sample.USER Json.parse Json.stringify (str "H2") None w
           Sample.live Sample.THREAD [str "Hel"; str "lo"]
           [Sample.token "Hel"; Sample.token "lo"] Sample.done).
  - reflexivity.
  - reflexivity.
  - reflexivity.
  - repeat constructor; discriminate.
  - vm_compute. reflexivity.
  - repeat constructor.
  - reflexivity.
Defined.

(** X4. An accepted send on the open thread whose stream yields token
    events only and whose reader returns (the body ends without a
    [done], [error] or [message] event): the answer keeps the
    concatenated texts and its streaming flag stays set, although the
    hook is no longer loading. *)
Theorem send_unfinished_stream :
  forall (userId : jstring) (JSON_parse : jstring -> Exn JsValue)
         (JSON_stringify : JsValue -> JsValue)
         (text : jstring) (files : option (list MessageAttachment))
         (w : World) (st : State) (threadId : jstring)
         (texts : list jstring) (tokens : list JsValue),
    blank text = false -> isLoading st = false ->
    active_thread st = Some threadId ->
    Display.fresh w (messages st) ->
    snd (streamChat JSON_parse text threadId userId files (stream w))
    = (tokens, Returned) ->
    Display.tokens_of texts tokens ->
    let run := sendMessage userId JSON_parse JSON_stringify text files w st in
    messages (fst run)
    = messages st
      ++ [Display.user_message w text (or_empty files);
          Display.answer w (concat texts) true]
    /\ isLoading (fst run) = false
    /\ progressStatus (fst run) = JNull.
Proof.
  intros userId JSON_parse JSON_stringify text files w st threadId texts tokens
    Hb Hl Ht Hfresh Hreader Htokens run.
  subst run.
  rewrite (sendMessage_accepted userId JSON_parse JSON_stringify text files w st
             threadId Hb Hl Ht).
  destruct (send_begun userId text (or_empty files) w st st threadId
              (send_thread_open userId w st threadId Ht) Hfresh)
    as [Hbegun [Hfresh' ->]].
  set (begun := fst (add_optimistic text (or_empty files) w st)) in *.
  set (a := Display.ai_id w) in *.
  pose proof (tokens_accumulate (send_on_event JSON_stringify) a _
                (send_handles_tokens JSON_stringify) Hfresh' texts tokens Htokens
                (placeholder a) begun Hbegun eq_refl) as Hloop.
  cbn [content placeholder app] in Hloop.
  erewrite send_stream_returned;
    [|rewrite Hreader; exact Hloop|now rewrite Hreader].
  cbn [fst snd].
  destruct (refresh_finally_messages userId (fetched_threads w)
              (setMessages
                 ((messages st ++ [Display.user_message w text (or_empty files)])
                  ++ [with_content (concat texts) (placeholder a)]) begun))
    as [Hm [Hload Hprog]].
  split; [|split; [exact Hload|exact Hprog]].
  rewrite Hm. cbn [messages setMessages]. rewrite <- app_assoc. reflexivity.
Qed.

Lemma send_unfinished_stream_witness :
  let w := Sample.world (Body [Sample.frame (Sample.token "Hel")] EndOfStream) in
  let run := Sample.send "H2" w Sample.live in
  messages (fst run)
  = messages Sample.live
    ++ [Display.user_message w (str "H2") [];
        Display.answer w (concat [str "Hel"]) true]
  /\ isLoading (fst run) = false
  /\ progressStatus (fst run) = JNull.
Proof.
  intros w run.
  apply (send_unfinished_stream Sample.USER Json.parse Json.stringify (str "H2") None w
           Sample.live Sample.THREAD [str "Hel"] [Sample.token "Hel"]).
  - reflexivity.
  - reflexivity.
  - reflexivity.
  - repeat constructor; discriminate.
  - vm_compute. reflexivity.
  - repeat constructor.
Defined.
Lemma send_on_error_event (JSON_stringify : JsValue -> JsValue) (a c : jstring)
  (st : State) :
  send_on_event JSON_stringify a (error_event c) st
  = Ok (update_message a
          (fun msg => not_streaming (with_content (str "Error: " ++ c) msg))
          (setProgressStatus JNull st)).
Proof. reflexivity. Qed.

(** X5. An accepted send on the open thread whose request gets no
    response body, when no earlier message carries the id of the
    placeholder. A response with an error status whose text could be
    read ends the answer as [Error: Failed to send message: ] followed
    by the status, and a response without a body as
    [Error: No response body]; in both cases the requests are the chat
    request and the refresh of the thread list. When the request
    itself fails, or the text of an error response cannot be read, the
    answer is the general failure text and the chat request is the
    only request. In every case the streaming flag of the answer is
    cleared and the earlier messages and the user message are as they
    were. *)
Theorem send_without_body :
  forall (userId : jstring) (JSON_parse : jstring -> Exn JsValue)
         (JSON_stringify : JsValue -> JsValue)
         (text : jstring) (files : option (list MessageAttachment))
         (w : World) (st : State) (threadId : jstring),
    blank text = false -> isLoading st = false ->
    active_thread st = Some threadId ->
    Display.fresh w (messages st) ->
    let run := sendMessage userId JSON_parse JSON_stringify text files w st in
    let shown c :=
      messages st
      ++ [Display.user_message w text (or_empty files); Display.answer w c false] in
    let request := PostChat text threadId userId (or_empty files) in
    (forall status,
       stream w = NotOk status true ->
       messages (fst run)
       = shown (str "Error: Failed to send message: " ++ number_to_string status)
       /\ snd run = [request; GetThreads userId])
    /\ (stream w = NoBody ->
        messages (fst run) = shown (str "Error: No response body")
        /\ snd run = [request; GetThreads userId])
    /\ (stream w = FetchRejected \/ (exists status, stream w = NotOk status false) ->
        messages (fst run) = shown FAILED_TEXT
        /\ snd run = [request]).
Proof.
  intros userId JSON_parse JSON_stringify text files w st threadId Hb Hl Ht Hfresh
    run shown request.
  subst run shown request.
  rewrite (sendMessage_accepted userId JSON_parse JSON_stringify text files w st
             threadId Hb Hl Ht).
  destruct (send_begun userId text (or_empty files) w st st threadId
              (send_thread_open userId w st threadId Ht) Hfresh)
    as [Hbegun [Hfresh' ->]].
  set (begun := fst (add_optimistic text (or_empty files) w st)) in *.
  set (a := Display.ai_id w) in *.
  assert (Hyielded : forall c,
            fst (snd (streamChat JSON_parse text threadId userId files (stream w)))
            = [error_event c] ->
            snd (snd (streamChat JSON_parse text threadId userId files (stream w)))
            = Returned ->
            let r := send_stream userId JSON_parse JSON_stringify text threadId files
                       a w begun in
            messages (fst r)
            = messages st
              ++ [Display.user_message w text (or_empty files);
                  Display.answer w (str "Error: " ++ c) false]
            /\ snd r = [PostChat text threadId userId (or_empty files);
                        GetThreads userId]).
  { intros c Hyield Hret r. subst r.
    erewrite send_stream_returned; [| |exact Hret].
    2:{ rewrite Hyield. cbn [for_await]. rewrite send_on_error_event. reflexivity. }
    cbn [fst snd]. split; [|reflexivity].
    match goal with
    | |- messages (finally (fst (refreshThreads _ _ ?s))) = _ =>
        destruct (refresh_finally_messages userId (fetched_threads w) s) as [-> _]
    end.
    cbn [update_message messages setMessages setProgressStatus]. rewrite Hbegun.
    rewrite (update_last a
               (fun msg => not_streaming (with_content (str "Error: " ++ c) msg))
               _ (placeholder a) Hfresh' eq_refl).
    rewrite <- app_assoc. reflexivity. }
  assert (Hthrown : forall e,
            snd (streamChat JSON_parse text threadId userId files (stream w))
            = ([], Threw e) ->
            let r := send_stream userId JSON_parse JSON_stringify text threadId files
                       a w begun in
            messages (fst r)
            = messages st
              ++ [Display.user_message w text (or_empty files);
                  Display.answer w FAILED_TEXT false]
            /\ snd r = [PostChat text threadId userId (or_empty files)]).
  { intros e Hreader r. subst r.
    rewrite (send_stream_threw userId JSON_parse JSON_stringify text threadId files a w
               begun e) by now rewrite Hreader.
    rewrite Hreader. cbn [fst snd for_await]. split; [|reflexivity].
    unfold on_failure, finally.
    cbn [update_message messages setMessages setProgressStatus setIsLoading].
    rewrite Hbegun.
    rewrite (update_last a (fun msg => not_streaming (with_content FAILED_TEXT msg))
               _ (placeholder a) Hfresh' eq_refl).
    rewrite <- app_assoc. reflexivity. }
  cbv zeta in Hyielded, Hthrown. cbn [fst snd].
  split; [|split].
  - intros status Hs.
    destruct (Hyielded (str "Failed to send message: " ++ number_to_string status))
      as [-> ->]; try (unfold streamChat; rewrite Hs; reflexivity).
    split; reflexivity.
  - intros Hs.
    destruct (Hyielded (str "No response body")) as [-> ->];
      try (unfold streamChat; rewrite Hs; reflexivity).
    split; reflexivity.
  - intros Hs.
    destruct (Hthrown NetworkError) as [-> ->].
    + unfold streamChat. destruct Hs as [-> | [status ->]]; reflexivity.
    + split; reflexivity.
Qed.

Lemma send_without_body_witness :
  let w := Sample.world (NotOk 503 true) in
  let run := Sample.send "H2" w Sample.live in
  stream w = NotOk 503 true
  /\ messages (fst run)
     = messages Sample.live
       ++ [Display.user_message w (str "H2") [];
           Display.answer w (str "Error: Failed to send message: 503") false]
  /\ snd run = [PostChat (str "H2") Sample.THREAD Sample.USER []; GetThreads Sample.USER].
Proof.
  intros w run. split; [reflexivity|].
  apply (proj1 (send_without_body Sample.USER Json.parse Json.stringify (str "H2") None
                  w Sample.live Sample.THREAD eq_refl eq_refl eq_refl
                  ltac:(repeat constructor; discriminate))
           503%N eq_refl).
Defined.

Section IdleFacts.

Variable userId : jstring.
Variable JSON_parse : jstring -> Exn JsValue.
Variable JSON_stringify : JsValue -> JsValue.

Lemma send_stream_finally (text t : jstring) (files : option (list MessageAttachment))
  (a : jstring) (w : World) (st : State) :
  exists s,
    fst (send_stream userId JSON_parse JSON_stringify text t files a w st) = finally s.
Proof. unfold send_stream. stream_cases reader looped; eauto. Qed.

Lemma fork_stream_finally (text t cpid : jstring)
  (files : option (list MessageAttachment)) (a : jstring) (w : World) (st : State) :
  exists s,
    fst (fork_stream userId JSON_parse JSON_stringify text t cpid files a w st)
    = finally s.
Proof. unfold fork_stream. stream_cases reader looped; eauto. Qed.

Lemma edit_stream_finally (text t : jstring) (files : list MessageAttachment)
  (a : jstring) (w : World) (st : State) :
  exists s,
    fst (edit_stream userId JSON_parse JSON_stringify text t files a w st) = finally s.
Proof. unfold edit_stream. stream_cases reader looped; eauto. Qed.

(** The [finally] block leaves the hook idle, and the effect on
    [currentThreadId] does not undo it. *)
Lemma finally_idle (s : State) :
  isLoading (finally s) = false /\ progressStatus (finally s) = JNull.
Proof. split; reflexivity. Qed.

Lemma send_stream_created_idle (text t : jstring)
  (files : option (list MessageAttachment)) (a : jstring) (w : World) (st : State) :
  let st' :=
    fst (send_stream_created userId JSON_parse JSON_stringify text t files a w st) in
  isLoading st' = false /\ progressStatus st' = JNull.
Proof.
  cbv zeta. unfold send_stream_created.
  match goal with
  | |- context [for_await ?h (firstn ?k ?l) st] =>
      set (early := for_await h (firstn k l) st)
  end.
  destruct (snd early) as [e|].
  - cbn [fst].
    destruct (thread_changed_keeps (thread_rows w)
                (finally (on_failure a (fst early)))) as [_ [_ [-> [-> _]]]].
    apply finally_idle.
  - match goal with
    | |- context [for_await ?h (skipn ?k ?l) ?s] =>
        set (late := for_await h (skipn k l) s)
    end.
    destruct (snd late) as [e|];
      [|destruct (snd (snd (streamChat JSON_parse text t userId files (stream w))))];
      cbn [fst]; apply finally_idle.
Qed.

(** A streaming operation either leaves the state as it found it and
    makes no chat or fork request, or ends idle. *)
Lemma sendMessage_ends (text : jstring) (files : option (list MessageAttachment))
  (w : World) (st : State) :
  let run := sendMessage userId JSON_parse JSON_stringify text files w st in
  (fst run = st /\ stream_requests (snd run) = [])
  \/ (isLoading (fst run) = false /\ progressStatus (fst run) = JNull).
Proof.
  cbv zeta. unfold sendMessage.
  destruct (blank text || isLoading st); [left; split; reflexivity|].
  pose proof (send_thread_requests userId w st) as Hasked.
  destruct (send_thread userId w st) as [[[t st0]|] asked]; cbn [fst snd] in *;
    [|left; split; [reflexivity|exact Hasked]].
  right. destruct (same_thread (currentThreadId st0) (currentThreadId st)).
  - destruct (send_stream_finally text t files
                (snd (add_optimistic text (or_empty files) w st0)) w
                (fst (add_optimistic text (or_empty files) w st0))) as [s ->].
    apply finally_idle.
  - apply send_stream_created_idle.
Qed.

Lemma forkFromCheckpoint_ends (text cpid : jstring)
  (files : option (list MessageAttachment)) (w : World) (st : State) :
  let run := forkFromCheckpoint userId JSON_parse JSON_stringify text cpid files w st in
  (fst run = st /\ stream_requests (snd run) = []) \/ exists s, fst run = finally s.
Proof.
  cbv zeta. unfold forkFromCheckpoint.
  destruct (blank text || isLoading st); [left; split; reflexivity|].
  destruct (active_thread st) as [t|]; [|left; split; reflexivity].
  right. apply fork_stream_finally.
Qed.

Lemma editMessage_ends (newContent : jstring) (i : nat) (w : World) (st : State) :
  let run := editMessage userId JSON_parse JSON_stringify newContent i w st in
  (fst run = st /\ stream_requests (snd run) = []) \/ exists s, fst run = finally s.
Proof.
  cbv zeta. unfold editMessage.
  destruct (blank newContent || isLoading st) eqn:Eguard;
    [left; split; reflexivity|].
  destruct (active_thread st) as [t|] eqn:Et; [|left; split; reflexivity].
  pose proof (edit_history_state t w st) as [Hm [Hl [Ha Hreq]]].
  destruct (edit_history t w st) as [[history st1] asked]. cbn [fst snd] in *.
  right.
  destruct (find_checkpoint i history) as [cp|]; cbn [fst].
  - apply orb_false_iff in Eguard as [Hb Hload].
    rewrite (forkFromCheckpoint_accepted userId JSON_parse JSON_stringify newContent
               (checkpoint_id cp) (Some (original_attachments st i)) w
               (setMessages (firstn i (messages st)) st1) t
               Hb (eq_trans Hl Hload) (eq_trans Ha Et)).
    apply fork_stream_finally.
  - apply edit_stream_finally.
Qed.

End IdleFacts.

(** X6. None of the three streaming operations leaves the hook
    loading: started from a state that is not loading, [sendMessage],
    [forkFromCheckpoint] and [editMessage] end in a state that is not
    loading, whatever the server answers and however the stream ends;
    and when the operation has made a chat or fork request, the
    progress text is cleared at the end. *)
Theorem streaming_ends_idle :
  forall (userId : jstring) (JSON_parse : jstring -> Exn JsValue)
         (JSON_stringify : JsValue -> JsValue)
         (text checkpointId : jstring) (files : option (list MessageAttachment))
         (i : nat) (w : World) (st : State) (run : State * list Request),
    isLoading st = false ->
    run = sendMessage userId JSON_parse JSON_stringify text files w st
    \/ run = forkFromCheckpoint userId JSON_parse JSON_stringify text checkpointId
               files w st
    \/ run = editMessage userId JSON_parse JSON_stringify text i w st ->
    isLoading (fst run) = false
    /\ (stream_requests (snd run) <> [] -> progressStatus (fst run) = JNull).
Proof.
  intros userId JSON_parse JSON_stringify text checkpointId files i w st run Hl Hrun.
  assert (Hends : (fst run = st /\ stream_requests (snd run) = [])
                  \/ (isLoading (fst run) = false /\ progressStatus (fst run) = JNull)).
  { destruct Hrun as [-> | [-> | ->]].
    - apply sendMessage_ends.
    - destruct (forkFromCheckpoint_ends userId JSON_parse JSON_stringify text
                  checkpointId files w st) as [H | [s ->]];
        [now left|right; apply finally_idle].
    - destruct (editMessage_ends userId JSON_parse JSON_stringify text i w st)
        as [H | [s ->]]; [now left|right; apply finally_idle]. }
  destruct Hends as [[-> Hnone] | [Hload Hprog]].
  - split; [exact Hl|]. intros H. now destruct H.
  - split; [exact Hload|intros _; exact Hprog].
Qed.

Lemma streaming_ends_idle_witness :
  let run := Sample.edit "H1b" 0 (Sample.world FetchRejected) Sample.live in
  isLoading Sample.live = false
  /\ isLoading (fst run) = false
  /\ (stream_requests (snd run) <> [] -> progressStatus (fst run) = JNull).
Proof.
  intros run. split; [reflexivity|].
  exact (streaming_ends_idle Sample.USER Json.parse Json.stringify (str "H1b") []
           None 0 (Sample.world FetchRejected) Sample.live run eq_refl
           (or_intror (or_intror eq_refl))).
Defined.
Section ForkDisplay.

Variable userId : jstring.
Variable JSON_parse : jstring -> Exn JsValue.
Variable JSON_stringify : JsValue -> JsValue.

(** The end of [fork_stream] when the loop was not left by an
    exception and the reader returned. *)
Lemma fork_stream_returned (text t cpid : jstring)
  (files : option (list MessageAttachment)) (a : jstring) (w : World)
  (st st' : State) :
  for_await (fork_on_event JSON_stringify a)
    (fst (snd (streamFork JSON_parse text t userId cpid files (stream w)))) st
  = (st', None) ->
  snd (snd (streamFork JSON_parse text t userId cpid files (stream w))) = Returned ->
  fork_stream userId JSON_parse JSON_stringify text t cpid files a w st
  = (finally (fst (refreshThreads userId (fetched_threads w)
                     (fst (loadHistory (later_history w) st')))),
     PostFork text t userId cpid (or_empty files)
     :: snd (loadHistory (later_history w) st') ++ [GetThreads userId]).
Proof.
  intros Hloop Hret. unfold fork_stream. rewrite Hloop, Hret. reflexivity.
Qed.

(** With the guard passed, [editMessage] is the truncation, the search
    of the checkpoint list, and the [try] statement of a fork or of a
    send from the truncated display. *)
Lemma editMessage_accepted (newContent : jstring) (i : nat) (w : World) (st : State)
  (t : jstring) :
  blank newContent = false -> isLoading st = false -> active_thread st = Some t ->
  let files := original_attachments st i in
  let history := fst (fst (edit_history t w st)) in
  let st2 := setMessages (firstn i (messages st)) (snd (fst (edit_history t w st))) in
  let asked := snd (edit_history t w st) in
  editMessage userId JSON_parse JSON_stringify newContent i w st =
  match find_checkpoint i history with
  | Some cp =>
      let o := add_optimistic newContent files w (setSelectedCheckpoint None st2) in
      let r := fork_stream userId JSON_parse JSON_stringify newContent t
                 (checkpoint_id cp) (Some files) (snd o) w (fst o) in
      (fst r, PostTruncate t i :: asked ++ snd r)
  | None =>
      let o := add_optimistic newContent files w st2 in
      let r := edit_stream userId JSON_parse JSON_stringify newContent t files
                 (snd o) w (fst o) in
      (fst r, PostTruncate t i :: asked ++ snd r)
  end.
Proof.
  intros Hb Hl Ht. cbv zeta. unfold editMessage. rewrite Hb, Hl, Ht. cbn [orb].
  pose proof (edit_history_state t w st) as [_ [Hl1 [Ht1 _]]].
  destruct (edit_history t w st) as [[history st1] asked]. cbn [fst snd] in *.
  destruct (find_checkpoint i history) as [cp|]; [|reflexivity].
  rewrite (forkFromCheckpoint_accepted userId JSON_parse JSON_stringify newContent
             (checkpoint_id cp) (Some (original_attachments st i)) w
             (setMessages (firstn i (messages st)) st1) t
             Hb (eq_trans Hl1 Hl) (eq_trans Ht1 Ht)).
  reflexivity.
Qed.

End ForkDisplay.

(** X7. An accepted fork whose stream yields token events and then a
    [done] event, when no displayed message carries the id of the
    placeholder: whatever checkpoint is forked from, the display ends
    as the messages displayed before, then the user message and the
    answer made of the tokens; the checkpoint selection is cleared, the
    checkpoint list is the one fetched after the stream (the old one
    when that fetch fails), and the requests are the fork request, the
    history of the thread and the thread list, in this order. *)
Theorem fork_shows_tokens :
  forall (userId : jstring) (JSON_parse : jstring -> Exn JsValue)
         (JSON_stringify : JsValue -> JsValue)
         (text checkpointId : jstring) (files : option (list MessageAttachment))
         (w : World) (st : State) (threadId : jstring)
         (texts : list jstring) (tokens : list JsValue) (closing : JsValue),
    blank text = false -> isLoading st = false ->
    active_thread st = Some threadId ->
    Display.fresh w (messages st) ->
    fst (snd (streamFork JSON_parse text threadId userId checkpointId files (stream w)))
    = tokens ++ [closing] ->
    Display.tokens_of texts tokens ->
    has_kind (str "done") closing ->
    let run :=
      forkFromCheckpoint userId JSON_parse JSON_stringify text checkpointId files w st in
    messages (fst run)
    = messages st
      ++ [Display.user_message w text (or_empty files);
          Display.answer w (concat texts) false]
    /\ selectedCheckpoint (fst run) = None
    /\ checkpoints (fst run)
       = match later_history w with
         | Some history => history
         | None => checkpoints st
         end
    /\ isLoading (fst run) = false
    /\ snd run
       = [PostFork text threadId userId checkpointId (or_empty files);
          GetHistory threadId; GetThreads userId].
Proof.
  intros userId JSON_parse JSON_stringify text checkpointId files w st threadId texts
    tokens closing Hb Hl Ht Hfresh Hyield Htokens Hdone run.
  subst run.
  rewrite (forkFromCheckpoint_accepted userId JSON_parse JSON_stringify text
             checkpointId files w st threadId Hb Hl Ht).
  set (st1 := setSelectedCheckpoint None st).
  assert (Hthread : fst (send_thread userId w st1) = Some (threadId, st1)).
  { unfold send_thread. change (active_thread st1) with (active_thread st).
    now rewrite Ht. }
  destruct (send_begun userId text (or_empty files) w st1 st1 threadId Hthread Hfresh)
    as [Hbegun [Hfresh' ->]].
  change (messages st1) with (messages st) in Hbegun, Hfresh'.
  set (begun := fst (add_optimistic text (or_empty files) w st1)) in *.
  set (a := Display.ai_id w) in *.
  assert (Hret : snd (snd (streamFork JSON_parse text threadId userId checkpointId
                             files (stream w))) = Returned).
  { apply (read_response_terminal JSON_parse _ (stream w) tokens [] closing Hyield).
    now apply terminal_done. }
  pose proof (tokens_accumulate (fork_on_event JSON_stringify) a _
                (fork_handles_tokens JSON_stringify) Hfresh' texts tokens Htokens
                (placeholder a) begun Hbegun eq_refl) as Hloop.
  cbn [content placeholder app] in Hloop.
  erewrite fork_stream_returned; [| |exact Hret].
  2:{ rewrite Hyield, for_await_app, Hloop. cbn [fst snd for_await].
      rewrite (proj2 (fork_handles_tokens JSON_stringify) a closing _ Hdone).
      reflexivity. }
  unfold loadHistory.
  match goal with
  | |- context [active_thread ?s] =>
      change (active_thread s) with (active_thread st); rewrite Ht
  end.
  cbn [fst snd app].
  split; [|split; [|split; [|split]]].
  - destruct (later_history w), (fetched_threads w);
      cbn [refreshThreads fst finally messages setMessages setProgressStatus
           setIsLoading setThreads setCheckpoints setIsHistoryLoading update_message];
      rewrite (update_last a not_streaming _
                 (with_content (concat texts) (placeholder a)) Hfresh' eq_refl);
      rewrite <- app_assoc; reflexivity.
  - destruct (later_history w), (fetched_threads w); reflexivity.
  - destruct (later_history w), (fetched_threads w); reflexivity.
  - reflexivity.
  - reflexivity.
Qed.

Lemma fork_shows_tokens_witness :
  let w := Sample.world Sample.hello in
  let run := Sample.fork "H2" Sample.cp0 w Sample.previewing in
  messages Sample.previewing
  = checkpoint_messages_from (str "cp-0") 0 (cp_messages Sample.cp0)
  /\ messages (fst run)
     = messages Sample.previewing
       ++ [Display.user_message w (str "H2") [];
           Display.answer w (concat [str "Hel"; str "lo"]) false]
  /\ selectedCheckpoint (fst run) = None.
Proof.
  intros w run. split; [reflexivity|].
  pose proof (fork_shows_tokens Sample.USER Json.parse Json.stringify (str "H2")
                (str "cp-0") None w Sample.previewing Sample.THREAD
                [str "Hel"; str "lo"] [Sample.token "Hel"; Sample.token "lo"]
                Sample.done eq_refl eq_refl eq_refl
                ltac:(repeat constructor; discriminate)
                ltac:(vm_compute; reflexivity)
                ltac:(repeat constructor) eq_refl) as H.
  split; [exact (proj1 H)|exact (proj1 (proj2 H))].
Defined.

(* ------------------------------------------------------------------ *)
(** * The hook: threads, preview and timeline, composed *)
(* ------------------------------------------------------------------ *)

Lemma filter_all {A : Type} (f : A -> bool) (l : list A) :
  Forall (fun x => f x = true) l -> filter f l = l.
Proof.
  induction 1 as [|x l Hx _ IH]; cbn [filter]; [reflexivity|].
  now rewrite Hx, IH.
Qed.

Lemma filter_twice {A : Type} (f : A -> bool) (l : list A) :
  filter f (filter f l) = filter f l.
Proof.
  induction l as [|x l IH]; cbn [filter]; [reflexivity|].
  destruct (f x) eqn:E; cbn [filter]; [rewrite E|]; now rewrite IH.
Qed.

(** X8. Deselecting a checkpoint when the messages of the thread
    cannot be fetched: the request is made, the selection is cleared,
    and the display stays the one of the checkpoint; the hook no longer
    previews, so every displayed message of role [human] can be edited
    when no request is in flight. *)
Theorem deselect_with_failed_fetch :
  forall (c : Checkpoint) (t : jstring) (st : State),
    active_thread st = Some t ->
    let previewed := fst (selectCheckpoint (Some c) None st) in
    let back := selectCheckpoint None None previewed in
    snd back = [GetMessages t]
    /\ selectedCheckpoint (fst back) = None
    /\ messages (fst back)
       = checkpoint_messages_from (checkpoint_id c) 0 (cp_messages c)
    /\ (isLoading st = false ->
        forall m, role m = human -> canEdit (fst back) m = true).
Proof.
  intros c t st Ht previewed back. subst back previewed.
  cbn [selectCheckpoint fst].
  unfold selectCheckpoint.
  match goal with
  | |- context [active_thread ?s] =>
      change (active_thread s) with (active_thread st)
  end.
  rewrite Ht. cbn [loadMessages fst snd].
  repeat split.
  intros Hl m Hm. unfold canEdit, isPreviewingCheckpoint. rewrite Hm.
  cbn [isLoading selectedCheckpoint setSelectedCheckpoint setMessages].
  now rewrite Hl.
Qed.

Lemma deselect_with_failed_fetch_witness :
  let back :=
    selectCheckpoint None None (fst (selectCheckpoint (Some Sample.cp0) None Sample.live))
  in
  active_thread Sample.live = Some Sample.THREAD
  /\ snd back = [GetMessages Sample.THREAD]
  /\ map id (messages (fst back)) = [str "checkpoint-cp-0-0"; str "checkpoint-cp-0-1"]
  /\ selectedCheckpoint (fst back) = None.
Proof.
  intros back.
  pose proof (deselect_with_failed_fetch Sample.cp0 Sample.THREAD Sample.live eq_refl)
    as [H1 [H2 [H3 _]]].
  split; [reflexivity|]. split; [exact H1|]. split; [|exact H2].
  fold back in H3. rewrite H3. reflexivity.
Defined.

(** X9. Creating a thread and deleting it again, both accepted by the
    server, when no thread of the list carries the id of the new one:
    the thread list is the one before, no thread is current and the
    display is empty; the checkpoint list, the selection and the
    timeline are as before. *)
Theorem create_then_delete :
  forall (userId : jstring) (thread : Thread) (st : State),
    Forall (fun th => thread_id_of th <> thread_id_of thread) (threads st) ->
    let created := fst (createNewThread userId (Some thread) st) in
    let deleted := fst (deleteThread (thread_id_of thread) true created) in
    currentThreadId created = Some (thread_id_of thread)
    /\ deleted = setMessages [] (setCurrentThreadId None st).
Proof.
  intros userId thread st Hfresh created deleted. subst deleted created.
  split; [reflexivity|].
  unfold deleteThread, createNewThread, is_current. cbn [fst currentThreadId
    setMessages setCurrentThreadId setThreads threads filter].
  rewrite !jeqb_refl. cbn [negb].
  rewrite filter_all; [reflexivity|].
  eapply Forall_impl; [|exact Hfresh].
  intros th Hne. cbn beta. apply negb_true_iff. now apply jeqb_neq.
Qed.

Lemma create_then_delete_witness :
  let thread := Sample.thread "thread-3" in
  let created := fst (createNewThread Sample.USER (Some thread) Sample.two_threads) in
  let deleted := fst (deleteThread (str "thread-3") true created) in
  threads deleted = threads Sample.two_threads
  /\ currentThreadId deleted = None.
Proof.
  intros thread created deleted.
  pose proof (create_then_delete Sample.USER thread Sample.two_threads
                ltac:(repeat constructor; discriminate)) as [_ H].
  change (deleted = setMessages [] (setCurrentThreadId None Sample.two_threads)) in H.
  rewrite H. split; reflexivity.
Defined.

(** X10. Deleting a thread twice, the server accepting both, leaves
    the state that deleting it once leaves. *)
Theorem deleteThread_twice :
  forall (t : jstring) (st : State),
    fst (deleteThread t true (fst (deleteThread t true st)))
    = fst (deleteThread t true st).
Proof.
  intros t st. unfold deleteThread, is_current. cbn [fst].
  destruct (currentThreadId st) as [c|] eqn:Ec.
  - destruct (jeqb c t) eqn:E;
      cbn [currentThreadId setMessages setCurrentThreadId setThreads threads];
      rewrite ?Ec, ?E, filter_twice; reflexivity.
  - cbn [currentThreadId setMessages setCurrentThreadId setThreads threads].
    rewrite Ec, filter_twice. reflexivity.
Qed.

(** X11. Opening another thread keeps the checkpoint list and the
    checkpoint selection of the thread left: after [selectThread] and
    the loading of the messages of the new thread, the display is the
    one of the new thread while the hook still previews the checkpoint
    selected before, so that no message can be edited. *)
Theorem selectThread_keeps_preview :
  forall (t : jstring) (rows : list Message) (st : State),
    nonEmpty t = true ->
    let opened := thread_changed (Some rows) (selectThread t st) in
    snd opened = [GetMessages t]
    /\ messages (fst opened) = map message_of_row rows
    /\ checkpoints (fst opened) = checkpoints st
    /\ selectedCheckpoint (fst opened) = selectedCheckpoint st
    /\ (selectedCheckpoint st <> None ->
        forall m, canEdit (fst opened) m = false).
Proof.
  intros t rows st Ht opened. subst opened.
  unfold thread_changed, selectThread, active_thread.
  cbn [currentThreadId setCurrentThreadId]. rewrite Ht.
  cbn [loadMessages fst snd]. repeat split.
  intros Hsel m. unfold canEdit, isPreviewingCheckpoint.
  cbn [selectedCheckpoint setMessages setCurrentThreadId].
  destruct (selectedCheckpoint st); [|now destruct Hsel].
  destruct (role m); [apply andb_false_r|reflexivity].
Qed.

Lemma selectThread_keeps_preview_witness :
  let opened :=
    thread_changed (Some [Sample.row 7 human "other"])
      (selectThread (str "thread-2") Sample.previewing) in
  nonEmpty (str "thread-2") = true
  /\ selectedCheckpoint Sample.previewing <> None
  /\ selectedCheckpoint (fst opened) = Some Sample.cp0
  /\ (forall m, canEdit (fst opened) m = false).
Proof.
  intros opened.
  assert (H1 : nonEmpty (str "thread-2") = true) by reflexivity.
  assert (H2 : selectedCheckpoint Sample.previewing <> None) by discriminate.
  pose proof (selectThread_keeps_preview (str "thread-2")
                [Sample.row 7 human "other"] Sample.previewing H1)
    as [_ [_ [_ [H3 H4]]]].
  split; [exact H1|]. split; [exact H2|]. split; [exact H3|exact (H4 H2)].
Defined.
Section EditAfterSwitch.

Variable userId : jstring.
Variable JSON_parse : jstring -> Exn JsValue.
Variable JSON_stringify : JsValue -> JsValue.

Lemma fork_stream_first (text t cpid : jstring)
  (files : option (list MessageAttachment)) (a : jstring) (w : World) (st : State) :
  hd_error (snd (fork_stream userId JSON_parse JSON_stringify text t cpid files a w st))
  = Some (PostFork text t userId cpid (or_empty files)).
Proof. unfold fork_stream. stream_cases reader looped; reflexivity. Qed.

End EditAfterSwitch.

(** X12. The checkpoint list is not emptied when another thread is
    opened, and [editMessage] searches the list it finds: after
    [selectThread] and the loading of the new thread, an edit at index
    [i], when the list kept from the thread left holds a checkpoint
    with [i] recorded messages, fetches no history and forks the new
    thread from the first such checkpoint of the old list. *)
Theorem edit_after_switch_uses_kept_checkpoints :
  forall (userId : jstring) (JSON_parse : jstring -> Exn JsValue)
         (JSON_stringify : JsValue -> JsValue)
         (text : jstring) (i : nat) (w : World) (t : jstring) (rows : list Message)
         (st : State) (cp : Checkpoint),
    blank text = false -> isLoading st = false -> nonEmpty t = true ->
    find_checkpoint i (checkpoints st) = Some cp ->
    let opened := fst (thread_changed (Some rows) (selectThread t st)) in
    let run := editMessage userId JSON_parse JSON_stringify text i w opened in
    let fork :=
      PostFork text t userId (checkpoint_id cp) (original_attachments opened i) in
    In cp (checkpoints st)
    /\ stream_requests (snd run) = [fork]
    /\ exists rest, snd run = PostTruncate t i :: fork :: rest.
Proof.
  intros userId JSON_parse JSON_stringify text i w t rows st cp Hb Hl Ht Hfind
    opened run fork.
  assert (Hactive : active_thread opened = Some t).
  { subst opened. unfold thread_changed, selectThread, active_thread.
    cbn [currentThreadId setCurrentThreadId]. rewrite Ht. cbn. now rewrite Ht. }
  assert (Hcps : checkpoints opened = checkpoints st).
  { subst opened. unfold thread_changed, selectThread, active_thread.
    cbn [currentThreadId setCurrentThreadId]. rewrite Ht. reflexivity. }
  assert (Hload : isLoading opened = false).
  { subst opened. unfold thread_changed, selectThread, active_thread.
    cbn [currentThreadId setCurrentThreadId]. rewrite Ht. exact Hl. }
  assert (Hhist : edit_history t w opened = (checkpoints st, opened, [])).
  { unfold edit_history. rewrite Hcps.
    destruct (checkpoints st) as [|c l]; [discriminate Hfind|reflexivity]. }
  split; [exact (proj1 (find_some _ _ Hfind))|].
  subst run.
  rewrite (editMessage_accepted userId JSON_parse JSON_stringify text i w opened t
             Hb Hload Hactive).
  cbv zeta. rewrite Hhist. cbn [fst snd]. rewrite Hfind. cbn [fst snd app].
  split.
  - unfold stream_requests. cbn [filter is_stream_request].
    apply fork_stream_requests.
  - match goal with
    | |- context [fork_stream ?u ?p ?s ?x ?th ?c ?f ?a ?wd ?s0] =>
        pose proof (fork_stream_first u p s x th c f a wd s0) as Hfirst;
        destruct (snd (fork_stream u p s x th c f a wd s0)) as [|r rest];
        [discriminate Hfirst|]
    end.
    injection Hfirst as ->. now exists rest.
Qed.

Lemma edit_after_switch_uses_kept_checkpoints_witness :
  let rows := [Sample.row 5 human "X1"; Sample.row 6 ai "Y1"; Sample.row 7 human "X2"] in
  let opened := fst (thread_changed (Some rows) (selectThread (str "thread-2") Sample.live)) in
  let run := Sample.edit "X2b" 2 (Sample.world Sample.hello) opened in
  find_checkpoint 2 (checkpoints Sample.live) = Some Sample.cp0
  /\ cp_thread_id Sample.cp0 = str "thread-1"
  /\ stream_requests (snd run)
     = [PostFork (str "X2b") (str "thread-2") Sample.USER (str "cp-0") []].
Proof.
  intros rows opened run.
  assert (H : find_checkpoint 2 (checkpoints Sample.live) = Some Sample.cp0)
    by reflexivity.
  split; [exact H|]. split; [reflexivity|].
  exact (proj1 (proj2
           (edit_after_switch_uses_kept_checkpoints Sample.USER Json.parse
              Json.stringify (str "X2b") 2 (Sample.world Sample.hello)
              (str "thread-2") rows Sample.live Sample.cp0
              eq_refl eq_refl eq_refl H))).
Defined.

(** X13. Toggling the timeline twice on a thread, no history request
    being in flight at the start: the timeline is shown or hidden as
    before, the history is asked for exactly once, by the toggle that
    opens the timeline, and the state is the one before, with the
    checkpoint list replaced by the history when it was fetched.
    Without a thread the two toggles make no request and give back the
    state. *)
Theorem toggleTimeline_twice :
  forall (answer1 answer2 : option (list Checkpoint)) (st : State),
    let first := Timeline.toggleTimeline answer1 st in
    let second := Timeline.toggleTimeline answer2 (fst first) in
    (forall t,
       active_thread st = Some t -> isHistoryLoading st = false ->
       snd first ++ snd second = [GetHistory t]
       /\ fst second
          = match (if showTimeline st then answer2 else answer1) with
            | Some history => setCheckpoints history st
            | None => st
            end)
    /\ (active_thread st = None ->
        snd first ++ snd second = [] /\ fst second = st).
Proof.
  intros answer1 answer2 st first second. subst second first.
  unfold Timeline.toggleTimeline, loadHistory.
  destruct st as [ms il ths cur ps cps sel ihl shown].
  unfold active_thread. cbn [currentThreadId showTimeline].
  split.
  - intros t Ht Hh. cbn [isHistoryLoading] in Hh. subst ihl.
    destruct cur as [c|]; [|discriminate Ht].
    destruct (nonEmpty c) eqn:Ec; [|discriminate Ht].
    injection Ht as ->.
    destruct shown; cbn; rewrite ?Ec; cbn; rewrite ?Ec;
      [destruct answer2|destruct answer1]; cbn; rewrite ?Ec; split; reflexivity.
  - intros Hn.
    destruct cur as [c|].
    + destruct (nonEmpty c) eqn:Ec; [discriminate Hn|].
      destruct shown; cbn; rewrite ?Ec; split; reflexivity.
    + destruct shown; cbn; split; reflexivity.
Qed.

Lemma toggleTimeline_twice_witness :
  let first := Timeline.toggleTimeline (Some [Sample.cp_system]) Sample.live in
  let second := Timeline.toggleTimeline None (fst first) in
  active_thread Sample.live = Some Sample.THREAD
  /\ isHistoryLoading Sample.live = false
  /\ snd first ++ snd second = [GetHistory Sample.THREAD]
  /\ fst second = setCheckpoints [Sample.cp_system] Sample.live.
Proof.
  intros first second.
  split; [reflexivity|]. split; [reflexivity|].
  exact (proj1 (toggleTimeline_twice (Some [Sample.cp_system]) None Sample.live)
           Sample.THREAD eq_refl eq_refl).
Defined.

(* ------------------------------------------------------------------ *)
(** * Trimming *)
(* ------------------------------------------------------------------ *)

Lemma trimStart_idem (s : jstring) : trimStart (trimStart s) = trimStart s.
Proof.
  induction s as [|c t IH]; [reflexivity|]. cbn [trimStart].
  destruct (isWhiteSpace c) eqn:E; [exact IH|]. cbn [trimStart]. now rewrite E.
Qed.

Lemma trimStart_app (c : N) (a b : jstring) :
  isWhiteSpace c = false -> trimStart (a ++ c :: b) = trimStart a ++ c :: b.
Proof.
  intros Hc. induction a as [|x a IH]; cbn [app trimStart].
  - now rewrite Hc.
  - destruct (isWhiteSpace x); [exact IH|reflexivity].
Qed.

Lemma trimStart_head (s : jstring) :
  trimStart s = []
  \/ exists c t, trimStart s = c :: t /\ isWhiteSpace c = false.
Proof.
  induction s as [|c t IH]; [now left|]. cbn [trimStart].
  destruct (isWhiteSpace c) eqn:E; [exact IH|]. right. now exists c, t.
Qed.

Lemma trimEnd_cons (c : N) (t : jstring) :
  isWhiteSpace c = false -> trimEnd (c :: t) = c :: trimEnd t.
Proof.
  intros Hc. unfold trimEnd. cbn [rev].
  rewrite (trimStart_app c (rev t) [] Hc), rev_app_distr. reflexivity.
Qed.

Lemma trimEnd_idem (s : jstring) : trimEnd (trimEnd s) = trimEnd s.
Proof. unfold trimEnd. now rewrite rev_involutive, trimStart_idem. Qed.

(** Trimming a trimmed string changes nothing. *)
Lemma trim_idem (s : jstring) : trim (trim s) = trim s.
Proof.
  unfold trim. destruct (trimStart_head s) as [-> | [c [t [-> Hc]]]]; [reflexivity|].
  rewrite (trimEnd_cons c t Hc). cbn [trimStart]. rewrite Hc.
  now rewrite (trimEnd_cons c (trimEnd t) Hc), trimEnd_idem.
Qed.

Lemma trimmed_not_blank (s : jstring) :
  nonEmpty (trim s) = true -> blank (trim s) = false.
Proof. intros H. unfold blank. now rewrite trim_idem, H. Qed.

(* ------------------------------------------------------------------ *)
(** * The message bubble and the timeline panel, with the hook *)
(* ------------------------------------------------------------------ *)

Lemma original_attachments_at (st : State) (i : nat) (m : ChatMessage) :
  nth_error (messages st) i = Some m ->
  original_attachments st i = or_empty (attachments m).
Proof. intros H. unfold original_attachments. now rewrite H. Qed.

Section EditRun.

Variable userId : jstring.
Variable JSON_parse : jstring -> Exn JsValue.
Variable JSON_stringify : JsValue -> JsValue.

(** An accepted edit starts with the truncation and leaves the
    truncated display, the edited user message and the placeholder,
    evolved by the stream. *)
Lemma editMessage_display (newContent : jstring) (i : nat) (w : World) (st : State)
  (t : jstring) :
  blank newContent = false -> isLoading st = false -> active_thread st = Some t ->
  let run := editMessage userId JSON_parse JSON_stringify newContent i w st in
  hd_error (snd run) = Some (PostTruncate t i)
  /\ evolved (Display.ai_id w)
       (firstn i (messages st)
        ++ [Display.user_message w newContent (original_attachments st i);
            placeholder (Display.ai_id w)])
       (messages (fst run)).
Proof.
  intros Hb Hl Ht run. subst run.
  rewrite (editMessage_accepted userId JSON_parse JSON_stringify newContent i w st t
             Hb Hl Ht).
  cbv zeta. destruct (find_checkpoint i _) as [cp|]; cbn [fst snd hd_error].
  - split; [reflexivity|].
    match goal with
    | |- context [fork_stream ?u ?p ?s ?x ?th ?c ?f ?a ?wd ?s0] =>
        pose proof (fork_stream_steady u p s x th c f a wd s0) as [Hev _]
    end.
    now rewrite add_optimistic_messages in Hev.
  - split; [reflexivity|].
    match goal with
    | |- context [edit_stream ?u ?p ?s ?x ?th ?f ?a ?wd ?s0] =>
        pose proof (edit_stream_steady u p s x th f a wd s0) as [Hev _]
    end.
    now rewrite add_optimistic_messages in Hev.
Qed.

End EditRun.

(** X14. Saving an edit in the bubble of a displayed message that can
    be edited, on a thread: when [handleSaveEdit] calls [onEdit], the
    text it passes is the trimmed text of the editor, the index is the
    one of the bubble, and the untrimmed text differs from the content
    of the message; the bubble leaves the editing mode; and
    [editMessage] accepts the call: its first request truncates the
    thread to the messages before the bubble, and the display becomes
    the messages before the bubble, the user message with the trimmed
    text and the attachments of the edited message, and the
    placeholder, evolved by the stream. *)
Theorem saved_edit_is_accepted :
  forall (userId : jstring) (JSON_parse : jstring -> Exn JsValue)
         (JSON_stringify : JsValue -> JsValue)
         (i : nat) (es es' : MessageBubble.EditState) (w : World) (st : State)
         (m : ChatMessage) (t text : jstring) (j : nat),
    nth_error (messages st) i = Some m ->
    canEdit st m = true ->
    active_thread st = Some t ->
    MessageBubble.handleSaveEdit (content m) i true es = (Some (text, j), es') ->
    let run := editMessage userId JSON_parse JSON_stringify text j w st in
    text = trim (MessageBubble.editedContent es)
    /\ j = i
    /\ MessageBubble.editedContent es <> content m
    /\ MessageBubble.isEditing es' = false
    /\ hd_error (snd run) = Some (PostTruncate t i)
    /\ evolved (Display.ai_id w)
         (firstn i (messages st)
          ++ [Display.user_message w text (or_empty (attachments m));
              placeholder (Display.ai_id w)])
         (messages (fst run)).
Proof.
  intros userId JSON_parse JSON_stringify i es es' w st m t text j Hnth Hcan Ht Hsave
    run.
  unfold MessageBubble.handleSaveEdit in Hsave.
  destruct (nonEmpty (trim (MessageBubble.editedContent es))) eqn:Hne;
    [|discriminate Hsave].
  destruct (jeqb (MessageBubble.editedContent es) (content m)) eqn:Hsame;
    [discriminate Hsave|].
  cbn [andb negb] in Hsave. injection Hsave as <- <- <-.
  assert (Hl : isLoading st = false).
  { unfold canEdit in Hcan. destruct (role m); [|discriminate Hcan].
    apply andb_true_iff in Hcan as [Hcan _]. now apply negb_true_iff. }
  pose proof (editMessage_display userId JSON_parse JSON_stringify
                (trim (MessageBubble.editedContent es)) i w st t
                (trimmed_not_blank _ Hne) Hl Ht) as [Hfirst Hev].
  rewrite (original_attachments_at st i m Hnth) in Hev.
  repeat split; try assumption.
  now apply jeqb_neq.
Qed.

Lemma saved_edit_is_accepted_witness :
  let es := MessageBubble.setEditedContent (str " H1 again ")
              (MessageBubble.handleStartEdit (str "H1") (MessageBubble.mounted (str "H1"))) in
  let run := Sample.edit "H1 again" 0 (Sample.world Sample.hello) Sample.live in
  fst (MessageBubble.handleSaveEdit (str "H1") 0 true es) = Some (str "H1 again", 0)
  /\ hd_error (snd run) = Some (PostTruncate Sample.THREAD 0)
  /\ map content (messages (fst run)) = [str "H1 again"; str "Hello"].
Proof.
  intros es run.
  split; [reflexivity|].
  split; [|vm_compute; reflexivity].
  exact (proj1 (proj2 (proj2 (proj2 (proj2
           (saved_edit_is_accepted Sample.USER Json.parse Json.stringify 0 es
              (snd (MessageBubble.handleSaveEdit (str "H1") 0 true es))
              (Sample.world Sample.hello) Sample.live
              (message_of_row (Sample.row 1 human "H1")) Sample.THREAD
              (str "H1 again") 0 eq_refl eq_refl eq_refl eq_refl)))))).
Defined.

(** X15. Forking from the timeline panel, when no request is in flight
    and a thread is open: when [handleFork] calls [onFork], the text it
    passes is the text typed at the prompt as it is, not trimmed, with
    the id of the checkpoint of the item; [forkFromCheckpoint] accepts
    the call: its only chat or fork request is the fork with that text
    and no attachment, the checkpoint selection is cleared, and the
    display is extended with the user message carrying that text and
    the placeholder, evolved by the stream. *)
Theorem panel_fork_is_accepted :
  forall (userId : jstring) (JSON_parse : jstring -> Exn JsValue)
         (JSON_stringify : JsValue -> JsValue)
         (typed : option jstring) (c : Checkpoint) (w : World) (st : State)
         (t text cid : jstring),
    isLoading st = false ->
    active_thread st = Some t ->
    TimelinePanel.handleFork typed c = Some (text, cid) ->
    let run := forkFromCheckpoint userId JSON_parse JSON_stringify text cid None w st in
    typed = Some text
    /\ cid = checkpoint_id c
    /\ stream_requests (snd run) = [PostFork text t userId (checkpoint_id c) []]
    /\ selectedCheckpoint (fst run) = None
    /\ evolved (Display.ai_id w)
         (messages st ++ [Display.user_message w text []; placeholder (Display.ai_id w)])
         (messages (fst run)).
Proof.
  intros userId JSON_parse JSON_stringify typed c w st t text cid Hl Ht Hfork run.
  unfold TimelinePanel.handleFork in Hfork.
  destruct typed as [message|]; [|discriminate Hfork].
  destruct (nonEmpty (trim message)) eqn:Hne; [|discriminate Hfork].
  injection Hfork as <- <-.
  assert (Hb : blank message = false) by (unfold blank; now rewrite Hne).
  subst run.
  rewrite (forkFromCheckpoint_accepted userId JSON_parse JSON_stringify message
             (checkpoint_id c) None w st t Hb Hl Ht).
  match goal with
  | |- context [fork_stream ?u ?p ?s ?x ?th ?k ?f ?a ?wd ?s0] =>
      pose proof (fork_stream_steady u p s x th k f a wd s0) as [Hev Hsel];
      pose proof (fork_stream_requests u p s x th k f a wd s0) as Hreq
  end.
  rewrite add_optimistic_messages in Hev.
  repeat split; assumption.
Qed.

Lemma panel_fork_is_accepted_witness :
  let typed := Some (str " and then? ") in
  let run :=
    forkFromCheckpoint Sample.USER Json.parse Json.stringify (str " and then? ")
      (str "cp-0") None (Sample.world Sample.hello) Sample.previewing in
  TimelinePanel.handleFork typed Sample.cp0 = Some (str " and then? ", str "cp-0")
  /\ stream_requests (snd run)
     = [PostFork (str " and then? ") Sample.THREAD Sample.USER (str "cp-0") []].
Proof.
  intros typed run.
  assert (H : TimelinePanel.handleFork typed Sample.cp0
              = Some (str " and then? ", str "cp-0")) by reflexivity.
  split; [exact H|].
  exact (proj1 (proj2 (proj2
           (panel_fork_is_accepted Sample.USER Json.parse Json.stringify typed
              Sample.cp0 (Sample.world Sample.hello) Sample.previewing Sample.THREAD
              (str " and then? ") (str "cp-0") eq_refl eq_refl H)))).
Defined.
(* ------------------------------------------------------------------ *)
(** * The size shown for an attachment *)
(* ------------------------------------------------------------------ *)

(** The tenths that [toFixed1] writes are the nearest to the
    quotient. *)
Lemma toFixed1_nearest (num den : N) :
  (0 < den)%N ->
  let n := ((20 * num + den) / (2 * den))%N in
  MessageBubble.toFixed1 num den
  = number_to_string (n / 10) ++ str "." ++ number_to_string (n mod 10)
  /\ (2 * den * n <= 20 * num + den)%N
  /\ (20 * num < 2 * den * n + den)%N.
Proof.
  intros Hden n. split; [reflexivity|].
  pose proof (N.div_mod (20 * num + den) (2 * den) ltac:(lia)) as Hdiv.
  pose proof (N.mod_lt (20 * num + den) (2 * den) ltac:(lia)) as Hmod.
  fold n in Hdiv.
  set (r := ((20 * num + den) mod (2 * den))%N) in *. clearbody n r.
  split; nia.
Qed.

(** X16. The text [formatFileSize] shows for a size of [bytes] bytes,
    an integer below [2 ^ 53]. Below 1024 it is the number of bytes
    followed by [ B]. From 1024 and below 1024 * 1024 it is a number of
    tenths [n], written with one decimal, followed by [ KB], where [n]
    tenths of 1024 bytes differ from the size by half a tenth at most
    and [n] is between 10 and 10240: the sizes from 1048525 on are
    shown as [1024.0 KB]. From 1024 * 1024 on it is the same with
    [ MB] and tenths of 1024 * 1024 bytes. *)
Theorem formatFileSize_accuracy :
  forall bytes : N,
    (bytes < 2 ^ 53)%N ->
    let shown n unit :=
      number_to_string (n / 10) ++ str "." ++ number_to_string (n mod 10) ++ str unit in
    ((bytes < 1024)%N ->
     MessageBubble.formatFileSize bytes = number_to_string bytes ++ str " B")
    /\ ((1024 <= bytes < 1024 * 1024)%N ->
        exists n : N,
          MessageBubble.formatFileSize bytes = shown n " KB"%string
          /\ (10 <= n <= 10240)%N
          /\ (1024 * n <= 10 * bytes + 512)%N
          /\ (10 * bytes < 1024 * n + 512)%N)
    /\ ((1048525 <= bytes < 1024 * 1024)%N ->
        MessageBubble.formatFileSize bytes = str "1024.0 KB")
    /\ ((1024 * 1024 <= bytes)%N ->
        exists n : N,
          MessageBubble.formatFileSize bytes = shown n " MB"%string
          /\ (10 <= n)%N
          /\ (1048576 * n <= 10 * bytes + 524288)%N
          /\ (10 * bytes < 1048576 * n + 524288)%N).
Proof.
  intros bytes _ shown. subst shown. unfold MessageBubble.formatFileSize.
  split; [|split; [|split]].
  - intros H. apply N.ltb_lt in H. now rewrite H.
  - intros [Hlo Hhi].
    apply N.ltb_ge in Hlo. apply N.ltb_lt in Hhi. rewrite Hlo, Hhi.
    destruct (toFixed1_nearest bytes 1024 ltac:(lia)) as [Heq [H1 H2]].
    apply N.ltb_ge in Hlo. apply N.ltb_lt in Hhi.
    exists ((20 * bytes + 1024) / (2 * 1024))%N.
    split; [rewrite Heq, <- !app_assoc; reflexivity|].
    cbv zeta in H1, H2.
    set (n := ((20 * bytes + 1024) / (2 * 1024))%N) in *.
    repeat split; lia.
  - intros [Hlo Hhi].
    assert (Hge : (bytes <? 1024)%N = false) by (apply N.ltb_ge; lia).
    apply N.ltb_lt in Hhi. rewrite Hge, Hhi. apply N.ltb_lt in Hhi.
    unfold MessageBubble.toFixed1. cbv zeta.
    assert (Hn : ((20 * bytes + 1024) / (2 * 1024))%N = 10240%N).
    { symmetry. apply (N.div_unique _ _ _ (20 * bytes + 1024 - 2048 * 10240)%N); lia. }
    rewrite Hn. reflexivity.
  - intros Hlo.
    assert (Hge : (bytes <? 1024)%N = false) by (apply N.ltb_ge; lia).
    apply N.ltb_ge in Hlo. rewrite Hge, Hlo. apply N.ltb_ge in Hlo.
    destruct (toFixed1_nearest bytes (1024 * 1024) ltac:(lia)) as [Heq [H1 H2]].
    exists ((20 * bytes + 1024 * 1024) / (2 * (1024 * 1024)))%N.
    split; [rewrite Heq, <- !app_assoc; reflexivity|].
    cbv zeta in H1, H2.
    set (n := ((20 * bytes + 1024 * 1024) / (2 * (1024 * 1024)))%N) in *.
    repeat split; lia.
Qed.

Lemma formatFileSize_accuracy_witness :
  (1048570 < 2 ^ 53)%N
  /\ (1048525 <= 1048570 < 1024 * 1024)%N
  /\ MessageBubble.formatFileSize 1048570 = str "1024.0 KB"
  /\ MessageBubble.formatFileSize 1536 = str "1.5 KB"
  /\ MessageBubble.formatFileSize 5767168 = str "5.5 MB".
Proof.
  assert (H1 : (1048570 < 2 ^ 53)%N) by (vm_compute; reflexivity).
  assert (H2 : (1048525 <= 1048570 < 1024 * 1024)%N) by lia.
  split; [exact H1|]. split; [exact H2|].
  split; [|split; reflexivity].
  exact (proj1 (proj2 (proj2 (formatFileSize_accuracy 1048570 H1))) H2).
Defined.
(* ------------------------------------------------------------------ *)
(** * The input area: the files accepted *)
(* ------------------------------------------------------------------ *)

Section SplitAtUnit.

Variable c : N.

Lemma split_without (s : jstring) : ~ In c s -> split [c] s = [s].
Proof.
  induction s as [|x t IH]; intros Hnot; [reflexivity|].
  rewrite split_cons. cbn [startsWith].
  destruct (N.eqb c x) eqn:E.
  - apply N.eqb_eq in E. subst x. destruct Hnot. now left.
  - cbn [andb]. rewrite IH; [reflexivity|]. intros Hin. apply Hnot. now right.
Qed.

(** A piece followed by the separator and a text without it. *)
Lemma split_piece_then (p rest : jstring) :
  split [c] p = [p] -> ~ In c rest -> split [c] (p ++ c :: rest) = [p; rest].
Proof.
  intros Hp Hrest. induction p as [|x t IH].
  - cbn [app]. rewrite split_cons. cbn [startsWith]. rewrite N.eqb_refl.
    cbn [andb length Nat.sub skipn]. now rewrite split_without.
  - rewrite split_cons in Hp. cbn [startsWith] in Hp.
    cbn [app]. rewrite split_cons. cbn [startsWith].
    destruct (N.eqb c x); cbn [andb] in *; [discriminate Hp|].
    destruct (split [c] t) as [|q [|q' qs]] eqn:Et; try discriminate Hp.
    + now apply split_not_nil in Et.
    + apply split_single in Et. subst q. now rewrite IH.
Qed.

(** The last piece of a text is what follows its last separator. *)
Lemma split_last_after (base rest : jstring) :
  ~ In c rest -> last (split [c] (base ++ c :: rest)) [] = rest.
Proof.
  intros Hrest. rewrite split_app.
  rewrite (split_piece_then _ rest (split_last_piece [c] base) Hrest).
  rewrite last_app_ne by discriminate. reflexivity.
Qed.

End SplitAtUnit.

Section Validation.

Variable toLowerCase : jstring -> jstring.

Lemma validateFile_by_extension (f : InputArea.File) (ext : jstring) :
  last (split (str ".") (InputArea.file_name f)) [] = ext ->
  (InputArea.validateFile toLowerCase f = None
   <-> (toLowerCase ext = str "pdf" \/ toLowerCase ext = str "pptx")
       /\ (InputArea.file_size f <= 500 * 1024 * 1024)%N)
  /\ (toLowerCase ext <> str "pdf" -> toLowerCase ext <> str "pptx" ->
      InputArea.validateFile toLowerCase f
      = Some (str "Invalid file type. Allowed: .pdf, .pptx"))
  /\ ((toLowerCase ext = str "pdf" \/ toLowerCase ext = str "pptx") ->
      (500 * 1024 * 1024 < InputArea.file_size f)%N ->
      InputArea.validateFile toLowerCase f
      = Some (str "File too large. Max size: 500MB")).
Proof.
  intros Hext. unfold InputArea.validateFile. rewrite Hext.
  unfold InputArea.ALLOWED_EXTENSIONS. cbn [existsb].
  change (str "." ++ toLowerCase ext) with (46%N :: toLowerCase ext).
  change (str ".pdf") with (46%N :: str "pdf").
  change (str ".pptx") with (46%N :: str "pptx").
  cbn [jeqb]. rewrite N.eqb_refl. cbn [andb]. rewrite orb_false_r.
  assert (Hok : jeqb (toLowerCase ext) (str "pdf")
                || jeqb (toLowerCase ext) (str "pptx") = true
                <-> toLowerCase ext = str "pdf" \/ toLowerCase ext = str "pptx").
  { now rewrite orb_true_iff, !jeqb_eq. }
  unfold InputArea.MAX_FILE_SIZE.
  destruct (jeqb (toLowerCase ext) (str "pdf") || jeqb (toLowerCase ext) (str "pptx"));
    cbn [negb].
  - assert (Hext' : toLowerCase ext = str "pdf" \/ toLowerCase ext = str "pptx")
      by now apply Hok.
    destruct (N.ltb_spec (500 * 1024 * 1024) (InputArea.file_size f)) as [Hbig|Hle].
    + split; [split; [discriminate|intros [_ H]; lia]|].
      split; [intros Hn1 Hn2; now destruct Hext'|reflexivity].
    + split; [split; [intros _; now split|reflexivity]|].
      split; [intros Hn1 Hn2; now destruct Hext'|intros _ Hbig; lia].
  - split; [split; [discriminate|intros [H _]; apply Hok in H; discriminate H]|].
    split; [reflexivity|intros H; apply Hok in H; discriminate H].
Qed.

End Validation.

(** X17. [validateFile] judges a file by the text after the last dot
    of its name, and by the whole name when the name has no dot: for a
    name that is [ext], or ends with a dot and [ext], where [ext] has
    no dot, the file is accepted exactly when [ext] in lower case is
    [pdf] or [pptx] and the size is at most 500 * 1024 * 1024 bytes; a
    wrong extension gives the message about the file type whatever the
    size, and a right extension with a larger size the message about
    the size. *)
Theorem validateFile_decides :
  forall (toLowerCase : jstring -> jstring) (f : InputArea.File) (base ext : jstring),
    ~ In 46%N ext ->
    InputArea.file_name f = ext \/ InputArea.file_name f = base ++ str "." ++ ext ->
    (InputArea.validateFile toLowerCase f = None
     <-> (toLowerCase ext = str "pdf" \/ toLowerCase ext = str "pptx")
         /\ (InputArea.file_size f <= 500 * 1024 * 1024)%N)
    /\ (toLowerCase ext <> str "pdf" -> toLowerCase ext <> str "pptx" ->
        InputArea.validateFile toLowerCase f
        = Some (str "Invalid file type. Allowed: .pdf, .pptx"))
    /\ ((toLowerCase ext = str "pdf" \/ toLowerCase ext = str "pptx") ->
        (500 * 1024 * 1024 < InputArea.file_size f)%N ->
        InputArea.validateFile toLowerCase f
        = Some (str "File too large. Max size: 500MB")).
Proof.
  intros toLowerCase f base ext Hdot Hname.
  apply validateFile_by_extension.
  destruct Hname as [-> | ->].
  - change (str ".") with [46%N]. now rewrite split_without.
  - change (str "." ++ ext) with (46%N :: ext). change (str ".") with [46%N].
    now apply split_last_after.
Qed.

Lemma validateFile_decides_witness :
  let f := SampleFiles.pdf "notes.v2.PDF" 1000 in
  let g := SampleFiles.pdf "pptx" 1000 in
  ~ In 46%N (str "PDF")
  /\ InputArea.file_name f = str "notes.v2" ++ str "." ++ str "PDF"
  /\ InputArea.validateFile SampleFiles.ascii_lower f = None
  /\ InputArea.validateFile SampleFiles.ascii_lower g = None.
Proof.
  intros f g.
  assert (H1 : ~ In 46%N (str "PDF")).
  { cbv. intros [H|[H|[H|[]]]]; discriminate H. }
  assert (H2 : InputArea.file_name f = str "notes.v2" ++ str "." ++ str "PDF")
    by reflexivity.
  split; [exact H1|]. split; [exact H2|]. split; [|reflexivity].
  apply (proj1 (validateFile_decides SampleFiles.ascii_lower f (str "notes.v2") (str "PDF")
                  H1 (or_intror H2))).
  split; [left; reflexivity|vm_compute; discriminate].
Defined.
(* ------------------------------------------------------------------ *)
(** * The input area: uploading, removing and sending *)
(* ------------------------------------------------------------------ *)

Lemma update_at_twice {A : Type} (index : nat) (g h : A -> A) (l : list A) :
  InputArea.update_at index g (InputArea.update_at index h l)
  = InputArea.update_at index (fun x => g (h x)) l.
Proof.
  revert index; induction l as [|x l IH]; intros [|i]; cbn [InputArea.update_at];
    try reflexivity.
  now rewrite IH.
Qed.

Lemma remove_at_update {A : Type} (index : nat) (g : A -> A) (l : list A) :
  InputArea.remove_at index (InputArea.update_at index g l)
  = InputArea.remove_at index l.
Proof.
  revert index; induction l as [|x l IH]; intros [|i];
    cbn [InputArea.update_at InputArea.remove_at]; try reflexivity.
  now rewrite IH.
Qed.

Lemma remove_at_parts {A : Type} (index : nat) (l : list A) :
  InputArea.remove_at index l = firstn index l ++ skipn (S index) l.
Proof.
  revert index; induction l as [|x l IH]; intros [|i];
    cbn [InputArea.remove_at firstn skipn app]; try reflexivity.
  now rewrite IH.
Qed.

Lemma update_at_parts {A : Type} (index : nat) (g : A -> A) (l : list A) (x : A) :
  nth_error l index = Some x ->
  InputArea.update_at index g l = firstn index l ++ g x :: skipn (S index) l.
Proof.
  revert index; induction l as [|y l IH]; intros [|i]; cbn [nth_error];
    try discriminate.
  - intros H. injection H as ->. reflexivity.
  - intros H. cbn [InputArea.update_at firstn skipn app]. now rewrite (IH i H).
Qed.

Section AreaFacts.

Import InputArea.

Variable userId : jstring.
Variable threadId : option jstring.
Variable toLowerCase : jstring -> jstring.

Lemma reports_keep (l : list N) (st : State) :
  let st' := fold_left (fun s p => setOverallProgress p s) l st in
  selectedFiles st' = selectedFiles st /\ isUploading st' = isUploading st
  /\ input st' = input st /\ polling st' = polling st.
Proof.
  revert st; induction l as [|p l IH]; intros st; cbn [fold_left]; [repeat split|].
  apply (IH (setOverallProgress p st)).
Qed.

Lemma stops_keep (l : list SelectedFile) (st : State) :
  let st' := fold_left (fun s f => stop_polling (file_name (file f)) s) l st in
  selectedFiles st' = selectedFiles st /\ isUploading st' = isUploading st
  /\ input st' = input st.
Proof.
  revert st; induction l as [|f l IH]; intros st; cbn [fold_left]; [repeat split|].
  apply (IH (stop_polling (file_name (file f)) st)).
Qed.

(** What an upload to a thread does to the list: the pending files
    named in the request are taken, and each is settled by the answer. *)
Lemma upload_to_state (fs : list File) (t : jstring) (sv : Server) (st : State) :
  let settle :=
    match uploaded sv with
    | Some result => mark_uploaded result
    | None => upload_failed
    end in
  let st' := fst (upload_to userId fs t sv st) in
  selectedFiles st'
  = map (fun f => settle (mark_uploading (map file_name fs) f)) (selectedFiles st)
  /\ isUploading st' = false /\ input st' = input st /\ polling st' = polling st.
Proof.
  cbv zeta. unfold upload_to.
  match goal with
  | |- context [fold_left ?g (reports sv) ?s] =>
      pose proof (reports_keep (reports sv) s) as [Hf [_ [Hi Hp]]]
  end.
  destruct (uploaded sv) as [result|];
    cbn [fst selectedFiles isUploading input polling setIsUploading setSelectedFiles];
    rewrite Hf, Hi, Hp; cbn [selectedFiles setSelectedFiles setOverallProgress
                             setIsUploading input polling];
    rewrite map_map; repeat split.
Qed.

Lemma upload_to_calls (fs : list File) (t : jstring) (sv : Server) (st : State)
  (call : Call) :
  In call (snd (upload_to userId fs t sv st)) ->
  call = UploadFiles fs userId t
  \/ exists result,
       uploaded sv = Some result /\ call = PollLater (files_to_poll result) t.
Proof.
  unfold upload_to. destruct (uploaded sv) as [result|]; cbn [snd].
  - intros [<-|Hin]; [now left|]. right. exists result. split; [reflexivity|].
    destruct (nonEmpty t && negb (Nat.eqb (length (files_to_poll result)) 0));
      [|destruct Hin].
    destruct Hin as [<-|[]]. reflexivity.
  - intros [<-|[]]. now left.
Qed.

Lemma validateFile_size (f : File) :
  validateFile toLowerCase f = None -> (file_size f <= 500 * 1024 * 1024)%N.
Proof.
  unfold validateFile, MAX_FILE_SIZE.
  destruct (negb _); [discriminate|].
  destruct (N.ltb_spec (500 * 1024 * 1024) (file_size f)); [discriminate|].
  intros _. assumption.
Qed.

Lemma settle_idle (names : list jstring) (sv : Server) (f : SelectedFile) :
  idle f ->
  idle (match uploaded sv with
        | Some result => mark_uploaded result
        | None => upload_failed
        end (mark_uploading names f)).
Proof.
  unfold idle, mark_uploading, mark_uploaded, upload_failed. intros [Hu Hd].
  destruct f as [fl s p e k]. cbn [status file] in *.
  destruct s; try (now destruct Hu); try (now destruct Hd);
    cbn [status_eqb andb]; destruct (uploaded sv) as [result|];
    try (destruct (existsb _ _); cbn [with_status status status_eqb negb file]);
    try (destruct (find _ result) as [r|]; [destruct (given (up_error r))|]);
    cbn [status status_eqb negb]; split; discriminate.
Qed.

Lemma idle_map (g : SelectedFile -> SelectedFile) (l : list SelectedFile) :
  (forall f, idle f -> idle (g f)) -> Forall idle l -> Forall idle (map g l).
Proof.
  intros Hg Hl. induction Hl as [|f l Hf _ IH]; cbn [map]; constructor; auto.
Qed.

Lemma idle_remove_at (index : nat) (l : list SelectedFile) :
  Forall idle l -> Forall idle (remove_at index l).
Proof.
  intros Hl; revert index; induction Hl as [|f l Hf Hl IH]; intros [|i];
    cbn [remove_at]; try constructor; auto.
Qed.

Lemma idle_update_at (index : nat) (g : SelectedFile -> SelectedFile)
  (l : list SelectedFile) :
  (forall f, idle (g f)) -> Forall idle l -> Forall idle (update_at index g l).
Proof.
  intros Hg Hl; revert index; induction Hl as [|f l Hf Hl IH]; intros [|i];
    cbn [update_at]; try constructor; auto.
Qed.

Lemma idle_filter (p : SelectedFile -> bool) (l : list SelectedFile) :
  Forall idle l -> Forall idle (filter p l).
Proof.
  intros Hl. apply Forall_forall. intros f Hin. apply filter_In in Hin as [Hin _].
  revert f Hin. now apply Forall_forall.
Qed.

Lemma uploadFilesAuto_settled (fs : list File) (sv : Server) (st : State) :
  settled st -> settled (fst (uploadFilesAuto userId threadId fs sv st)).
Proof.
  intros [Hup Hall]. unfold uploadFilesAuto.
  destruct fs as [|f0 fs]; [now split|].
  assert (Hto : forall t, settled (fst (upload_to userId (f0 :: fs) t sv st))).
  { intros t. destruct (upload_to_state (f0 :: fs) t sv st) as [Hf [Hu _]].
    split; [exact Hu|]. rewrite Hf. apply idle_map; [|exact Hall].
    intros f. apply settle_idle. }
  destruct (thread_given threadId) as [t|]; [apply Hto|].
  destruct (created sv) as [th|]; [apply Hto|].
  split; [exact Hup|]. cbn [fst selectedFiles setSelectedFiles].
  apply idle_map; [|exact Hall].
  intros f [Hu Hd]. unfold thread_failed.
  destruct (status_eqb (status f) pending); split; try assumption; discriminate.
Qed.

Lemma pollStatus_settled (name : jstring) (answer : option bool) (st : State) :
  settled st -> settled (pollStatus name answer st).
Proof.
  intros [Hup Hall]. unfold pollStatus. destruct answer as [[|]|]; try now split.
  split; [exact Hup|]. cbn [selectedFiles stop_polling setPolling setSelectedFiles].
  apply idle_map; [|exact Hall]. intros f [Hu Hd].
  destruct (jeqb _ _ && _); split; try assumption; discriminate.
Qed.

Lemma start_polls_settled (names : list jstring) (t : jstring)
  (answers : jstring -> option bool) (st : State) :
  settled st -> settled (fst (start_polls userId names t answers st)).
Proof.
  revert st; induction names as [|name names IH]; intros st Hst; cbn [start_polls fst];
    [exact Hst|].
  apply IH. unfold startProcessingPoll.
  destruct (is_polling name st); [exact Hst|]. cbn [fst].
  apply pollStatus_settled. destruct Hst as [Hup Hall]. now split.
Qed.

End AreaFacts.

(** X18. [handleFileSelect] uploads valid files only: an upload
    request it makes carries, in the order of the selection, exactly
    the selected files that [validateFile] accepts, each of them at
    most 500 * 1024 * 1024 bytes large, for the user of the component,
    to the thread of the component or, without one, to the thread
    created for the upload. *)
Theorem only_valid_files_uploaded :
  forall (userId : jstring) (threadId : option jstring)
         (toLowerCase : jstring -> jstring)
         (files : option (list InputArea.File)) (sv : InputArea.Server)
         (st : InputArea.State) (fs : list InputArea.File) (u t : jstring),
    In (InputArea.UploadFiles fs u t)
       (snd (InputArea.handleFileSelect userId threadId toLowerCase files sv st)) ->
    u = userId
    /\ (InputArea.thread_given threadId = Some t
        \/ InputArea.thread_given threadId = None
           /\ exists th, InputArea.created sv = Some th /\ thread_id_of th = t)
    /\ exists chosen,
         files = Some chosen
         /\ fs = filter (InputArea.is_valid toLowerCase) chosen
         /\ forall f, In f fs ->
              InputArea.validateFile toLowerCase f = None
              /\ (InputArea.file_size f <= 500 * 1024 * 1024)%N.
Proof.
  intros userId threadId toLowerCase files sv st fs u t Hin.
  unfold InputArea.handleFileSelect in Hin.
  destruct files as [[|f0 rest]|]; try now destruct Hin.
  set (chosen := f0 :: rest) in *.
  set (st1 := InputArea.setSelectedFiles _ st) in Hin.
  destruct (filter (InputArea.is_valid toLowerCase) chosen) as [|v vs] eqn:Evalid;
    [now destruct Hin|].
  assert (Hvalid : forall f, In f (v :: vs) ->
            InputArea.validateFile toLowerCase f = None
            /\ (InputArea.file_size f <= 500 * 1024 * 1024)%N).
  { intros f Hf. rewrite <- Evalid in Hf. apply filter_In in Hf as [_ Hf].
    unfold InputArea.is_valid in Hf.
    destruct (InputArea.validateFile toLowerCase f) eqn:E; [discriminate Hf|].
    split; [reflexivity|]. now apply (validateFile_size toLowerCase). }
  assert (Hcall : forall th,
            In (InputArea.UploadFiles fs u t)
               (snd (InputArea.upload_to userId (v :: vs) th sv st1)) ->
            fs = v :: vs /\ u = userId /\ t = th).
  { intros th H. apply upload_to_calls in H as [H | [result [_ H]]];
      [|discriminate H].
    injection H as -> -> ->. repeat split. }
  unfold InputArea.uploadFilesAuto in Hin.
  destruct (InputArea.thread_given threadId) as [th|] eqn:Eth.
  - apply Hcall in Hin as [-> [-> ->]].
    split; [reflexivity|]. split; [now left|]. exists chosen. repeat split; auto.
    all: now apply Hvalid.
  - destruct (InputArea.created sv) as [th|] eqn:Ecreated; cbn [snd] in Hin.
    + destruct Hin as [Hin|[Hin|Hin]]; try discriminate Hin.
      apply Hcall in Hin as [-> [-> ->]].
      split; [reflexivity|]. split; [right; split; [reflexivity|now exists th]|].
      exists chosen. repeat split; auto. all: now apply Hvalid.
    + destruct Hin as [Hin|[]]. discriminate Hin.
Qed.

Lemma only_valid_files_uploaded_witness :
  let files := [SampleFiles.pdf "a.pdf" 10; SampleFiles.pdf "b.exe" 10; SampleFiles.pdf "c.PPTX" 20] in
  let run :=
    InputArea.handleFileSelect Sample.USER None SampleFiles.ascii_lower (Some files)
      (SampleFiles.server (Some [SampleFiles.stored "a.pdf" "k1"; SampleFiles.stored "c.PPTX" "k2"]))
      InputArea.initial in
  In (InputArea.UploadFiles [SampleFiles.pdf "a.pdf" 10; SampleFiles.pdf "c.PPTX" 20]
        Sample.USER (str "thread-9")) (snd run)
  /\ map InputArea.status (InputArea.selectedFiles (fst run))
     = [InputArea.processing; InputArea.failed; InputArea.processing]
  /\ [SampleFiles.pdf "a.pdf" 10; SampleFiles.pdf "c.PPTX" 20]
     = filter (InputArea.is_valid SampleFiles.ascii_lower) files.
Proof.
  intros files run.
  assert (H : In (InputArea.UploadFiles [SampleFiles.pdf "a.pdf" 10; SampleFiles.pdf "c.PPTX" 20]
                    Sample.USER (str "thread-9")) (snd run))
    by (vm_compute; right; right; left; reflexivity).
  split; [exact H|]. split; [vm_compute; reflexivity|].
  destruct (only_valid_files_uploaded Sample.USER None SampleFiles.ascii_lower (Some files)
              (SampleFiles.server (Some [SampleFiles.stored "a.pdf" "k1";
                                     SampleFiles.stored "c.PPTX" "k2"]))
              InputArea.initial _ _ _ H) as [_ [_ [chosen [Hc [Hfs _]]]]].
  injection Hc as <-. exact Hfs.
Defined.

(** X19. Every operation of the input area cleans up after itself.
    From a state in which no upload is under way, no file is marked as
    uploading and none as being deleted, each of [handleFileSelect],
    [uploadFilesAuto], [removeFile], [handleSubmit], a poll of the
    processing status, the start of the polls and the change of thread
    ends in such a state again, whatever the server answers. *)
Theorem input_area_settles :
  forall (userId : jstring) (threadId : option jstring)
         (toLowerCase : jstring -> jstring) (st : InputArea.State),
    InputArea.settled st ->
    (forall files sv,
       InputArea.settled
         (fst (InputArea.handleFileSelect userId threadId toLowerCase files sv st)))
    /\ (forall fs sv,
          InputArea.settled (fst (InputArea.uploadFilesAuto userId threadId fs sv st)))
    /\ (forall index answer r,
          InputArea.removeFile userId threadId index answer st = Ok r ->
          InputArea.settled (fst r))
    /\ (forall loading disabled,
          InputArea.settled (fst (InputArea.handleSubmit loading disabled st)))
    /\ (forall name answer, InputArea.settled (InputArea.pollStatus name answer st))
    /\ (forall names t answers,
          InputArea.settled (fst (InputArea.start_polls userId names t answers st)))
    /\ InputArea.settled (InputArea.thread_changed st).
Proof.
  intros userId threadId toLowerCase st Hst.
  pose proof Hst as [Hup Hall].
  split; [|split; [|split; [|split; [|split; [|split]]]]].
  - intros files sv. unfold InputArea.handleFileSelect.
    destruct files as [[|f0 rest]|]; try exact Hst.
    set (st1 := InputArea.setSelectedFiles _ st).
    assert (Hst1 : InputArea.settled st1).
    { split; [exact Hup|]. subst st1.
      cbn [InputArea.selectedFiles InputArea.setSelectedFiles].
      apply Forall_app. split; [exact Hall|].
      apply Forall_forall. intros f Hf. apply in_map_iff in Hf as [x [<- _]].
      unfold InputArea.selected_entry.
      destruct (InputArea.validateFile toLowerCase x); split; discriminate. }
    destruct (filter _ _); [exact Hst1|].
    now apply uploadFilesAuto_settled.
  - intros fs sv. now apply uploadFilesAuto_settled.
  - intros index answer r. unfold InputArea.removeFile.
    destruct (nth_error (InputArea.selectedFiles st) index) as [f|]; [|discriminate].
    assert (Hremoved : forall l s,
              InputArea.isUploading s = false ->
              Forall InputArea.idle l ->
              InputArea.settled
                (InputArea.setSelectedFiles (InputArea.remove_at index l) s)).
    { intros l s Hs Hfs. split; [exact Hs|]. now apply idle_remove_at. }
    destruct (InputArea.status f), (InputArea.thread_given threadId) as [t|];
      try (intros H; injection H as <-; cbn [fst]; apply Hremoved; [exact Hup|exact Hall]).
    destruct answer as [message|]; intros H; injection H as <-; cbn [fst].
    + split; [exact Hup|].
      cbn [InputArea.selectedFiles InputArea.setSelectedFiles InputArea.stop_polling
           InputArea.setPolling].
      rewrite update_at_twice. apply idle_update_at; [|exact Hall].
      intros g; split; discriminate.
    + cbn [InputArea.selectedFiles InputArea.setSelectedFiles InputArea.stop_polling
           InputArea.setPolling].
      rewrite remove_at_update. apply Hremoved; [exact Hup|exact Hall].
  - intros loading disabled. unfold InputArea.handleSubmit.
    destruct (_ && _); [|exact Hst]. cbn [fst].
    match goal with
    | |- context [fold_left ?g ?l ?s] =>
        pose proof (stops_keep l s) as [Hf [Hu _]]
    end.
    split; [exact (eq_trans Hu Hup)|].
    cbn [InputArea.selectedFiles InputArea.setSelectedFiles]. rewrite Hf.
    now apply idle_filter.
  - intros name answer. now apply pollStatus_settled.
  - intros names t answers. now apply start_polls_settled.
  - split; [reflexivity|constructor].
Qed.

Lemma input_area_settles_witness :
  InputArea.settled InputArea.initial
  /\ InputArea.settled
       (fst (InputArea.handleFileSelect Sample.USER None SampleFiles.ascii_lower
               (Some [SampleFiles.pdf "a.pdf" 10]) (SampleFiles.server None) InputArea.initial)).
Proof.
  assert (H : InputArea.settled InputArea.initial) by (split; [reflexivity|constructor]).
  split; [exact H|].
  exact (proj1 (input_area_settles Sample.USER None SampleFiles.ascii_lower
                  InputArea.initial H)
           (Some [SampleFiles.pdf "a.pdf" 10]) (SampleFiles.server None)).
Defined.
Lemma jeqb_sym (a b : jstring) : jeqb a b = jeqb b a.
Proof.
  destruct (jeqb a b) eqn:E.
  - apply jeqb_eq in E. subst. now rewrite jeqb_refl.
  - symmetry. apply jeqb_neq. apply jeqb_neq in E. congruence.
Qed.

Lemma stop_polling_stops (name : jstring) (st : InputArea.State) :
  InputArea.is_polling name (InputArea.stop_polling name st) = false.
Proof.
  unfold InputArea.is_polling, InputArea.stop_polling.
  cbn [InputArea.polling InputArea.setPolling].
  induction (InputArea.polling st) as [|k l IH]; [reflexivity|].
  cbn [filter]. destruct (jeqb k name) eqn:E; cbn [negb]; [exact IH|].
  cbn [existsb]. now rewrite jeqb_sym, E, IH.
Qed.

Lemma nth_error_update_at {A : Type} (index : nat) (g : A -> A) (l : list A) (x : A) :
  nth_error l index = Some x ->
  nth_error (InputArea.update_at index g l) index = Some (g x).
Proof.
  revert index; induction l as [|y l IH]; intros [|i]; cbn [nth_error];
    try discriminate.
  - intros H. injection H as ->. reflexivity.
  - intros H. cbn [InputArea.update_at nth_error]. now apply IH.
Qed.

(** X20. Sending from the input area, as [ChatWindow] wires it: when
    [handleSubmit] calls [onSend], no selected file is pending,
    uploading or processing; the text passed is the trimmed input, the
    attachments are made of the ready files in their order, and none
    is passed when no file is ready; the input is emptied and the
    ready files leave the list. [sendMessage] accepts the call, and its
    only chat request carries the trimmed input and exactly these
    attachments, for the current thread or the one created for the
    send. *)
Theorem submit_sends_ready_files :
  forall (userId : jstring) (JSON_parse : jstring -> Exn JsValue)
         (JSON_stringify : JsValue -> JsValue)
         (area area' : InputArea.State) (disabled : bool) (w : World)
         (st st0 : State) (t text : jstring)
         (files : option (list MessageAttachment)),
    InputArea.handleSubmit (isLoading st) disabled area
    = (area', [InputArea.Send text files]) ->
    fst (send_thread userId w st) = Some (t, st0) ->
    let ready := filter InputArea.is_ready (InputArea.selectedFiles area) in
    text = trim (InputArea.input area)
    /\ or_empty files = map InputArea.attachment_of ready
    /\ (files = None <-> ready = [])
    /\ InputArea.hasUnreadyFiles area = false
    /\ InputArea.input area' = []
    /\ InputArea.selectedFiles area'
       = filter (fun f => negb (InputArea.is_ready f)) (InputArea.selectedFiles area)
    /\ stream_requests
         (snd (sendMessage userId JSON_parse JSON_stringify text files w st))
       = [PostChat (trim (InputArea.input area)) t userId
            (map InputArea.attachment_of ready)].
Proof.
  intros userId JSON_parse JSON_stringify area area' disabled w st st0 t text files
    Hsubmit Hthread ready.
  unfold InputArea.handleSubmit in Hsubmit.
  destruct (nonEmpty (trim (InputArea.input area)) && negb (isLoading st)
            && negb disabled && negb (InputArea.hasUnreadyFiles area)) eqn:Hgate;
    [|discriminate Hsubmit].
  apply andb_true_iff in Hgate as [Hgate Hunready].
  apply andb_true_iff in Hgate as [Hgate _].
  apply andb_true_iff in Hgate as [Hne Hl].
  apply negb_true_iff in Hunready. apply negb_true_iff in Hl.
  fold ready in Hsubmit.
  injection Hsubmit as Harea Htext Hfiles.
  assert (Hatt : or_empty files = map InputArea.attachment_of ready).
  { rewrite <- Hfiles. now destruct (map InputArea.attachment_of ready). }
  assert (Hnone : files = None <-> ready = []).
  { rewrite <- Hfiles. destruct ready; cbn; split; intros H; try reflexivity;
      discriminate H. }
  split; [now rewrite Htext|]. split; [exact Hatt|]. split; [exact Hnone|].
  split; [exact Hunready|].
  match type of Harea with
  | context [fold_left ?g ?l ?s] =>
      pose proof (stops_keep l s) as [Hf [_ Hi]]
  end.
  split; [now rewrite <- Harea|].
  split.
  - rewrite <- Harea. cbn [InputArea.selectedFiles InputArea.setSelectedFiles].
    now rewrite Hf.
  - rewrite <- Htext.
    rewrite (sendMessage_requests userId JSON_parse JSON_stringify _ files w st st0 t
               (trimmed_not_blank _ Hne) Hl Hthread).
    now rewrite Hatt.
Qed.

Lemma submit_sends_ready_files_witness :
  let uploaded :=
    fst (InputArea.handleFileSelect Sample.USER (Some Sample.THREAD) SampleFiles.ascii_lower
           (Some [SampleFiles.pdf "a.pdf" 10]) (SampleFiles.server (Some [SampleFiles.stored "a.pdf" "k1"]))
           InputArea.initial) in
  let polled :=
    fst (InputArea.start_polls Sample.USER [str "a.pdf"] Sample.THREAD
           (fun _ => Some true) uploaded) in
  let area := InputArea.setInput (str " read this ") polled in
  let attachment := {|
    filename := str "a.pdf"; size := 10%N; s3_key := Some (str "k1");
    content_type := Some (str "application/pdf") |} in
  let emptied := InputArea.setOverallProgress 100 InputArea.initial in
  InputArea.handleSubmit (isLoading Sample.live) false area
  = (emptied, [InputArea.Send (str "read this") (Some [attachment])])
  /\ stream_requests
       (snd (sendMessage Sample.USER Json.parse Json.stringify (str "read this")
               (Some [attachment]) (Sample.world Sample.hello) Sample.live))
     = [PostChat (str "read this") Sample.THREAD Sample.USER [attachment]].
Proof.
  intros uploaded polled area attachment emptied.
  assert (H : InputArea.handleSubmit (isLoading Sample.live) false area
              = (emptied, [InputArea.Send (str "read this") (Some [attachment])]))
    by (vm_compute; reflexivity).
  split; [exact H|].
  pose proof (submit_sends_ready_files Sample.USER Json.parse Json.stringify area
                emptied false (Sample.world Sample.hello) Sample.live
                Sample.live Sample.THREAD (str "read this") (Some [attachment])
                H eq_refl) as [_ [_ [_ [_ [_ [_ Hreq]]]]]].
  rewrite Hreq. vm_compute. reflexivity.
Defined.

(** X21. [removeFile(index)]. For an index outside the list it throws
    a [TypeError]. For the file at [index] it stops the polling of the
    name of the file and keeps the input; the other entries of the list
    stay as they are, in their order. A file that is ready, on a
    thread, is deleted on the server: when the deletion succeeds the
    entry leaves the list, and when it fails the entry stays, as an
    error with the message of the failure. Any other file leaves the
    list without a request. *)
Theorem removeFile_effect :
  forall (userId : jstring) (threadId : option jstring) (index : nat)
         (answer : option jstring) (st : InputArea.State),
    (nth_error (InputArea.selectedFiles st) index = None ->
     InputArea.removeFile userId threadId index answer st = Raise TypeError)
    /\ forall f,
         nth_error (InputArea.selectedFiles st) index = Some f ->
         let before := firstn index (InputArea.selectedFiles st) in
         let after := skipn (S index) (InputArea.selectedFiles st) in
         let name := InputArea.file_name (InputArea.file f) in
         exists st' calls,
           InputArea.removeFile userId threadId index answer st = Ok (st', calls)
           /\ InputArea.is_polling name st' = false
           /\ InputArea.input st' = InputArea.input st
           /\ ((exists t message,
                  InputArea.status f = InputArea.ready
                  /\ InputArea.thread_given threadId = Some t
                  /\ answer = Some message
                  /\ calls = [InputArea.DeleteFile userId t name]
                  /\ InputArea.selectedFiles st'
                     = before
                       ++ {| InputArea.file := InputArea.file f;
                             InputArea.status := InputArea.failed;
                             InputArea.progress := InputArea.progress f;
                             InputArea.error_text := Some message;
                             InputArea.file_key := InputArea.file_key f |}
                          :: after)
               \/ (exists t,
                     InputArea.status f = InputArea.ready
                     /\ InputArea.thread_given threadId = Some t
                     /\ answer = None
                     /\ calls = [InputArea.DeleteFile userId t name]
                     /\ InputArea.selectedFiles st' = before ++ after)
               \/ ((InputArea.status f <> InputArea.ready
                    \/ InputArea.thread_given threadId = None)
                   /\ calls = []
                   /\ InputArea.selectedFiles st' = before ++ after)).
Proof.
  intros userId threadId index answer st. split.
  - intros Hnone. unfold InputArea.removeFile. now rewrite Hnone.
  - intros f Hf before after name. unfold InputArea.removeFile. rewrite Hf.
    fold name.
    assert (Hplain :
              exists st' calls,
                Ok (InputArea.setSelectedFiles
                      (InputArea.remove_at index
                         (InputArea.selectedFiles (InputArea.stop_polling name st)))
                      (InputArea.stop_polling name st), @nil InputArea.Call)
                = Ok (st', calls)
                /\ InputArea.is_polling name st' = false
                /\ InputArea.input st' = InputArea.input st
                /\ calls = [] /\ InputArea.selectedFiles st' = before ++ after).
    { do 2 eexists. split; [reflexivity|].
      split; [apply stop_polling_stops|]. split; [reflexivity|].
      split; [reflexivity|]. apply remove_at_parts. }
    destruct (InputArea.status f) eqn:Es;
      try (destruct Hplain as [st' [calls [H1 [H2 [H3 [H4 H5]]]]]];
           exists st', calls; repeat split; try assumption;
           right; right; repeat split; try assumption; left; discriminate).
    destruct (InputArea.thread_given threadId) as [t|] eqn:Et.
    2:{ destruct Hplain as [st' [calls [H1 [H2 [H3 [H4 H5]]]]]].
        exists st', calls. repeat split; try assumption.
        right; right. repeat split; try assumption. now right. }
    destruct answer as [message|]; do 2 eexists; (split; [reflexivity|]);
      (split; [apply stop_polling_stops|]); (split; [reflexivity|]).
    + left. exists t, message. repeat split.
      cbn [InputArea.selectedFiles InputArea.setSelectedFiles InputArea.stop_polling
           InputArea.setPolling].
      rewrite update_at_twice. now rewrite (update_at_parts index _ _ f Hf).
    + right; left. exists t. repeat split.
      cbn [InputArea.selectedFiles InputArea.setSelectedFiles InputArea.stop_polling
           InputArea.setPolling].
      rewrite remove_at_update. apply remove_at_parts.
Qed.

Lemma removeFile_effect_witness :
  let entry name s := {|
    InputArea.file := SampleFiles.pdf name 10; InputArea.status := s;
    InputArea.progress := 100%N; InputArea.error_text := None;
    InputArea.file_key := Some (str "k") |} in
  let st := InputArea.setSelectedFiles
              [entry "a.pdf"%string InputArea.ready; entry "b.pdf"%string InputArea.ready;
               entry "c.pdf"%string InputArea.processing] InputArea.initial in
  nth_error (InputArea.selectedFiles st) 3 = None
  /\ InputArea.removeFile Sample.USER (Some Sample.THREAD) 3 None st = Raise TypeError
  /\ InputArea.removeFile Sample.USER (Some Sample.THREAD) 1 None st
     = Ok (InputArea.setSelectedFiles
             [entry "a.pdf"%string InputArea.ready; entry "c.pdf"%string InputArea.processing]
             InputArea.initial,
           [InputArea.DeleteFile Sample.USER Sample.THREAD (str "b.pdf")]).
Proof.
  intros entry st.
  assert (H : nth_error (InputArea.selectedFiles st) 3 = None) by reflexivity.
  split; [exact H|]. split; [|vm_compute; reflexivity].
  exact (proj1 (removeFile_effect Sample.USER (Some Sample.THREAD) 3 None st) H).
Defined.

(** X22. A file whose deletion failed can be removed again, and this
    time nothing is asked of the server: after [removeFile] of a ready
    file whose deletion fails, [removeFile] at the same index makes no
    request and leaves the list without the entry, the others being as
    they were. *)
Theorem remove_after_failed_deletion :
  forall (userId : jstring) (threadId : option jstring) (index : nat)
         (message : jstring) (answer : option jstring)
         (st st1 : InputArea.State) (calls : list InputArea.Call)
         (f : InputArea.SelectedFile) (t : jstring),
    nth_error (InputArea.selectedFiles st) index = Some f ->
    InputArea.status f = InputArea.ready ->
    InputArea.thread_given threadId = Some t ->
    InputArea.removeFile userId threadId index (Some message) st = Ok (st1, calls) ->
    calls = [InputArea.DeleteFile userId t (InputArea.file_name (InputArea.file f))]
    /\ exists st2,
         InputArea.removeFile userId threadId index answer st1 = Ok (st2, [])
         /\ InputArea.selectedFiles st2
            = firstn index (InputArea.selectedFiles st)
              ++ skipn (S index) (InputArea.selectedFiles st).
Proof.
  intros userId threadId index message answer st st1 calls f t Hf Hready Ht Hfirst.
  unfold InputArea.removeFile in Hfirst. rewrite Hf, Hready, Ht in Hfirst.
  injection Hfirst as <- <-. split; [reflexivity|].
  cbn [InputArea.selectedFiles InputArea.setSelectedFiles InputArea.stop_polling
       InputArea.setPolling].
  rewrite update_at_twice.
  unfold InputArea.removeFile.
  cbn [InputArea.selectedFiles InputArea.setSelectedFiles].
  rewrite (nth_error_update_at index _ _ f Hf).
  cbn [InputArea.status].
  eexists. split; [reflexivity|].
  cbn [InputArea.selectedFiles InputArea.setSelectedFiles InputArea.stop_polling
       InputArea.setPolling].
  rewrite remove_at_update. apply remove_at_parts.
Qed.

Lemma remove_after_failed_deletion_witness :
  let entry := {|
    InputArea.file := SampleFiles.pdf "a.pdf" 10; InputArea.status := InputArea.ready;
    InputArea.progress := 100%N; InputArea.error_text := None;
    InputArea.file_key := Some (str "k") |} in
  let st := InputArea.setSelectedFiles [entry] InputArea.initial in
  let first :=
    InputArea.removeFile Sample.USER (Some Sample.THREAD) 0 (Some (str "denied")) st in
  exists st1,
    first = Ok (st1, [InputArea.DeleteFile Sample.USER Sample.THREAD (str "a.pdf")])
    /\ map InputArea.status (InputArea.selectedFiles st1) = [InputArea.failed]
    /\ exists st2,
         InputArea.removeFile Sample.USER (Some Sample.THREAD) 0 None st1 = Ok (st2, [])
         /\ InputArea.selectedFiles st2 = [].
Proof.
  intros entry st first.
  eexists. split; [reflexivity|]. split; [reflexivity|].
  exact (proj2 (remove_after_failed_deletion Sample.USER (Some Sample.THREAD) 0
                  (str "denied") None st _ _ entry Sample.THREAD
                  eq_refl eq_refl eq_refl eq_refl)).
Defined.

(** X23. A file that the answer to the upload does not settle blocks
    sending. When an upload to a thread succeeds and the answer has no
    entry for the name of a pending file of the request, or only
    entries without error and without key, the file is marked as
    processing and its name is not among the names to poll: as long as
    it is in the list, [hasUnreadyFiles] holds and [handleSubmit] does
    nothing, whatever the input. *)
Theorem unsettled_upload_blocks_submit :
  forall (userId : jstring) (threadId : option jstring) (t : jstring)
         (fs : list InputArea.File) (sv : InputArea.Server)
         (result : list InputArea.UploadedFile) (st : InputArea.State)
         (f : InputArea.SelectedFile),
    InputArea.thread_given threadId = Some t ->
    InputArea.uploaded sv = Some result ->
    In f (InputArea.selectedFiles st) ->
    InputArea.status f = InputArea.pending ->
    In (InputArea.file_name (InputArea.file f)) (map InputArea.file_name fs) ->
    (forall r, In r result ->
       InputArea.up_filename r = InputArea.file_name (InputArea.file f) ->
       InputArea.given (InputArea.up_error r) = false
       /\ InputArea.given (InputArea.up_key r) = false) ->
    let run := InputArea.uploadFilesAuto userId threadId fs sv st in
    (exists f',
       In f' (InputArea.selectedFiles (fst run))
       /\ InputArea.file f' = InputArea.file f
       /\ InputArea.status f' = InputArea.processing)
    /\ (forall names th,
          In (InputArea.PollLater names th) (snd run) ->
          ~ In (InputArea.file_name (InputArea.file f)) names)
    /\ InputArea.hasUnreadyFiles (fst run) = true
    /\ forall loading disabled,
         InputArea.handleSubmit loading disabled (fst run) = (fst run, []).
Proof.
  intros userId threadId t fs sv result st f Ht Hup Hin Hpending Hname Hresult run.
  subst run. unfold InputArea.uploadFilesAuto.
  destruct fs as [|f0 fs]; [destruct Hname|]. rewrite Ht.
  destruct (upload_to_state userId (f0 :: fs) t sv st) as [Hfiles _].
  rewrite Hup in Hfiles.
  set (names := map InputArea.file_name (f0 :: fs)) in *.
  set (f' := InputArea.mark_uploaded result (InputArea.mark_uploading names f)).
  assert (Hf' : InputArea.file f' = InputArea.file f
                /\ InputArea.status f' = InputArea.processing).
  { subst f'. unfold InputArea.mark_uploading. rewrite Hpending.
    assert (Hex : existsb (jeqb (InputArea.file_name (InputArea.file f))) names = true).
    { apply existsb_exists. exists (InputArea.file_name (InputArea.file f)).
      split; [exact Hname|apply jeqb_refl]. }
    rewrite Hex. cbn [InputArea.status_eqb andb].
    unfold InputArea.mark_uploaded.
    cbn [InputArea.status InputArea.with_status InputArea.status_eqb negb
         InputArea.file].
    destruct (find _ result) as [r|] eqn:Efind; [|now split].
    apply find_some in Efind as [Hr Hrname]. apply jeqb_eq in Hrname.
    destruct (Hresult r Hr Hrname) as [-> _]. now split. }
  assert (Hin' : In f' (InputArea.selectedFiles
                          (fst (InputArea.upload_to userId (f0 :: fs) t sv st)))).
  { rewrite Hfiles. apply in_map_iff. exists f. split; [reflexivity|exact Hin]. }
  assert (Hunready : InputArea.hasUnreadyFiles
                       (fst (InputArea.upload_to userId (f0 :: fs) t sv st)) = true).
  { unfold InputArea.hasUnreadyFiles. apply existsb_exists. exists f'.
    split; [exact Hin'|]. unfold InputArea.is_unready.
    rewrite (proj2 Hf'). reflexivity. }
  split; [exists f'; split; [exact Hin'|exact Hf']|].
  split; [|split; [exact Hunready|]].
  - intros polled th Hcall.
    apply upload_to_calls in Hcall as [Hcall | [result' [Hup' Hcall]]];
      [discriminate Hcall|].
    rewrite Hup in Hup'. injection Hup' as <-. injection Hcall as -> ->.
    unfold InputArea.files_to_poll. intros Hfp.
    apply in_map_iff in Hfp as [r [Hrname Hr]].
    apply filter_In in Hr as [Hr Hkeep].
    destruct (Hresult r Hr Hrname) as [_ Hkey].
    rewrite Hkey, andb_false_r in Hkeep. discriminate Hkeep.
  - intros loading disabled. unfold InputArea.handleSubmit.
    rewrite Hunready. cbn [negb]. now rewrite andb_false_r.
Qed.

Lemma unsettled_upload_blocks_submit_witness :
  let entry := {|
    InputArea.file := SampleFiles.pdf "a.pdf" 10; InputArea.status := InputArea.pending;
    InputArea.progress := 0%N; InputArea.error_text := None;
    InputArea.file_key := None |} in
  let st := InputArea.setInput (str "hello")
              (InputArea.setSelectedFiles [entry] InputArea.initial) in
  let run :=
    InputArea.uploadFilesAuto Sample.USER (Some Sample.THREAD) [SampleFiles.pdf "a.pdf" 10]
      (SampleFiles.server (Some [])) st in
  map InputArea.status (InputArea.selectedFiles (fst run)) = [InputArea.processing]
  /\ snd run = [InputArea.UploadFiles [SampleFiles.pdf "a.pdf" 10] Sample.USER Sample.THREAD]
  /\ forall loading disabled,
       InputArea.handleSubmit loading disabled (fst run) = (fst run, []).
Proof.
  intros entry st run.
  split; [reflexivity|]. split; [reflexivity|].
  exact (proj2 (proj2 (proj2
           (unsettled_upload_blocks_submit Sample.USER (Some Sample.THREAD) Sample.THREAD
              [SampleFiles.pdf "a.pdf" 10] (SampleFiles.server (Some [])) [] st entry
              eq_refl eq_refl (or_introl eq_refl) eq_refl (or_introl eq_refl)
              (fun r (H : In r []) => match H with end))))).
Defined.
(* ------------------------------------------------------------------ *)
(** * The stream readers: where the values come from *)
(* ------------------------------------------------------------------ *)

Section Pieces.

Variable sep : jstring.

(** Every piece of a split is a part of the text, and the first piece
    is its beginning. *)
Lemma split_parts_bounded (n : nat) :
  forall s, length s <= n ->
  (forall p, In p (split sep s) -> exists a b, s = a ++ p ++ b)
  /\ exists b, s = hd [] (split sep s) ++ b.
Proof.
  induction n as [|n IH]; intros [|c t] Hlen; try (cbn in Hlen; lia).
  - split; [|now exists []]. intros p [<-|[]]. now exists [], [].
  - split; [|now exists []]. intros p [<-|[]]. now exists [], [].
  - cbn [length] in Hlen. rewrite split_cons.
    destruct (startsWith sep (c :: t)).
    + split; [|now exists (c :: t)].
      intros p [<-|Hin]; [now exists [], (c :: t)|].
      assert (Hshort : length (skipn (length sep - 1) t) <= n)
        by (rewrite length_skipn; lia).
      destruct (proj1 (IH _ Hshort) p Hin) as [a [b Hab]].
      exists (c :: firstn (length sep - 1) t ++ a), b.
      rewrite <- (firstn_skipn (length sep - 1) t) at 1.
      rewrite Hab. cbn [app]. now rewrite <- app_assoc.
    + destruct (IH t ltac:(lia)) as [Hparts [b Hhead]].
      destruct (split sep t) as [|q qs] eqn:Et; [now apply split_not_nil in Et|].
      cbn [hd] in Hhead. cbn [cons_head]. split.
      * intros p [<-|Hin].
        -- exists [], b. cbn [app]. now rewrite Hhead at 1.
        -- destruct (Hparts p (or_intror Hin)) as [a [b' Hab]].
           exists (c :: a), b'. cbn [app]. now rewrite Hab at 1.
      * exists b. cbn [hd app]. now rewrite Hhead at 1.
Qed.

Lemma split_parts (s p : jstring) :
  In p (split sep s) -> exists a b, s = a ++ p ++ b.
Proof. apply (split_parts_bounded (length s)). lia. Qed.

End Pieces.

Lemma trimStart_part (s : jstring) : exists a, s = a ++ trimStart s.
Proof.
  induction s as [|c t [a IH]]; [now exists []|]. cbn [trimStart].
  destruct (isWhiteSpace c); [|now exists []].
  exists (c :: a). cbn [app]. now rewrite IH at 1.
Qed.

Lemma trim_part (s : jstring) : exists a b, s = a ++ trim s ++ b.
Proof.
  destruct (trimStart_part s) as [a Ha].
  destruct (trimStart_part (rev (trimStart s))) as [b Hb].
  exists a, (rev b). unfold trim, trimEnd.
  rewrite <- rev_app_distr, <- Hb, rev_involutive. exact Ha.
Qed.

Lemma part_of_part (s a p b a' q b' : jstring) :
  s = a ++ p ++ b -> p = a' ++ q ++ b' -> s = (a ++ a') ++ q ++ (b' ++ b).
Proof. intros -> ->. now rewrite <- !app_assoc. Qed.

Lemma in_until_terminal (l : list JsValue) (v : JsValue) :
  In v (until_terminal l) -> In v l.
Proof.
  induction l as [|x l IH]; cbn [until_terminal]; [easy|].
  destruct (is_terminal x).
  - intros [<-|[]]. now left.
  - intros [<-|Hin]; [now left|right; now apply IH].
Qed.

Lemma in_removelast {A : Type} (l : list A) (x : A) : In x (removelast l) -> In x l.
Proof.
  induction l as [|y [|z l] IH]; cbn [removelast]; [easy|easy|].
  intros [<-|Hin]; [now left|]. right. now apply IH.
Qed.

Lemma in_last (l : list jstring) : l <> [] -> In (last l []) l.
Proof.
  induction l as [|y [|z l] IH]; [easy|now left|]. intros _.
  right. apply IH. discriminate.
Qed.

Section Provenance.

Variable JSON_parse : jstring -> Exn JsValue.

Lemma line_events_parsed (line : jstring) (v : JsValue) :
  In v (line_events JSON_parse line) ->
  startsWith DATA_PREFIX line = true /\ JSON_parse (slice_from 6 line) = Ok v.
Proof.
  unfold line_events. destruct (startsWith DATA_PREFIX line); [|easy].
  destruct (JSON_parse (slice_from 6 line)) as [x|e]; [|easy].
  intros [<-|[]]. now split.
Qed.

Lemma read_response_provenance (failure : jstring) (chunks : list jstring)
  (ending : StreamEnd) (v : JsValue) :
  In v (fst (run_generator (read_response JSON_parse failure (Body chunks ending)))) ->
  exists before line after,
    concat chunks = before ++ line ++ after
    /\ startsWith DATA_PREFIX line = true
    /\ JSON_parse (slice_from 6 line) = Ok v.
Proof.
  rewrite read_response_body. cbn zeta. cbn [fst]. intros Hin.
  apply in_until_terminal, in_app_or in Hin.
  assert (Hfrom : forall piece line,
            In piece (split BLANK_LINE (concat chunks)) ->
            (exists a b, trim piece = a ++ line ++ b) ->
            In v (line_events JSON_parse line) ->
            exists before line after,
              concat chunks = before ++ line ++ after
              /\ startsWith DATA_PREFIX line = true
              /\ JSON_parse (slice_from 6 line) = Ok v).
  { intros piece line Hpiece [a [b Hline]] Hv.
    destruct (split_parts BLANK_LINE _ _ Hpiece) as [a1 [b1 H1]].
    destruct (trim_part piece) as [a2 [b2 H2]].
    pose proof (part_of_part _ _ _ _ _ _ _ H1 H2) as H12.
    pose proof (part_of_part _ _ _ _ _ _ _ H12 Hline) as H.
    destruct (line_events_parsed line v Hv) as [Hprefix Hparsed].
    now exists ((a1 ++ a2) ++ a), line, (b ++ b2 ++ b1). }
  destruct Hin as [Hin|Hin].
  - apply in_flat_map in Hin as [frame [Hframe Hin]].
    unfold frame_events in Hin. apply in_flat_map in Hin as [line [Hline Hin]].
    apply (Hfrom frame line); [now apply in_removelast| |exact Hin].
    now apply (split_parts [LF]).
  - destruct ending; [|destruct Hin].
    apply (Hfrom (last (split BLANK_LINE (concat chunks)) [])
             (trim (last (split BLANK_LINE (concat chunks)) [])));
      [apply in_last, split_not_nil| |exact Hin].
    exists [], []. now rewrite app_nil_r.
Qed.

End Provenance.

(** X24. The readers invent nothing from a response body: every value
    that [streamChat] or [streamFork] yields for a body is what
    [JSON.parse] returns for a text that stands in the response right
    after [data: ]. *)
Theorem yielded_values_are_parsed :
  forall (JSON_parse : jstring -> Exn JsValue)
         (message threadId userId checkpointId : jstring)
         (attachments : option (list MessageAttachment))
         (chunks : list jstring) (ending : StreamEnd) (v : JsValue),
    In v (fst (snd (streamChat JSON_parse message threadId userId attachments
                      (Body chunks ending))))
    \/ In v (fst (snd (streamFork JSON_parse message threadId userId checkpointId
                         attachments (Body chunks ending)))) ->
    exists before line after,
      concat chunks = before ++ line ++ after
      /\ startsWith DATA_PREFIX line = true
      /\ JSON_parse (slice_from 6 line) = Ok v.
Proof.
  intros JSON_parse message threadId userId checkpointId attachments chunks ending v
    [Hin|Hin]; unfold streamChat, streamFork in Hin; cbn [snd] in Hin;
    exact (read_response_provenance JSON_parse _ chunks ending v Hin).
Qed.

Lemma yielded_values_are_parsed_witness :
  let chunks := [Sample.frame (Sample.token "Hel"); Sample.frame Sample.done] in
  In Sample.done
    (fst (snd (streamChat Json.parse (str "hi") Sample.THREAD Sample.USER None
                 (Body chunks EndOfStream))))
  /\ exists before line after,
       concat chunks = before ++ line ++ after
       /\ startsWith DATA_PREFIX line = true
       /\ Json.parse (slice_from 6 line) = Ok Sample.done.
Proof.
  intros chunks.
  assert (H : In Sample.done
                (fst (snd (streamChat Json.parse (str "hi") Sample.THREAD Sample.USER
                             None (Body chunks EndOfStream)))))
    by (vm_compute; right; left; reflexivity).
  split; [exact H|].
  exact (yielded_values_are_parsed Json.parse (str "hi") Sample.THREAD Sample.USER
           (str "cp-0") None chunks EndOfStream Sample.done (or_introl H)).
Defined.

(* ------------------------------------------------------------------ *)
(** * An upload before the first message *)
(* ------------------------------------------------------------------ *)

(** The requests that create a thread or open a stream. *)
Lemma send_to_current (userId : jstring) (JSON_parse : jstring -> Exn JsValue)
  (JSON_stringify : JsValue -> JsValue) (text : jstring)
  (files : option (list MessageAttachment)) (w : World) (st : State) (t : jstring) :
  blank text = false -> isLoading st = false -> active_thread st = Some t ->
  hd_error (snd (sendMessage userId JSON_parse JSON_stringify text files w st))
  = Some (PostChat text t userId (or_empty files)).
Proof.
  intros Hb Hl Ht.
  rewrite (sendMessage_accepted userId JSON_parse JSON_stringify text files w st t
             Hb Hl Ht).
  unfold send_stream. stream_cases reader looped; reflexivity.
Qed.

(** X25. Files selected before any thread exists and the message sent
    after them go to the same thread. Without a thread,
    [uploadFilesAuto] creates one, reports it to the page and uploads
    to it; once the page has handled the report by
    [handleThreadCreatedFromUpload], an accepted send goes to that
    thread at once, without creating another. *)
Theorem upload_and_message_share_thread :
  forall (userId : jstring) (JSON_parse : jstring -> Exn JsValue)
         (JSON_stringify : JsValue -> JsValue)
         (threadId : option jstring) (fs : list InputArea.File)
         (sv : InputArea.Server) (area : InputArea.State) (th : Thread)
         (answer : option (list Thread)) (text : jstring)
         (files : option (list MessageAttachment)) (w : World) (st : State),
    InputArea.thread_given threadId = None ->
    InputArea.created sv = Some th ->
    nonEmpty (thread_id_of th) = true ->
    fs <> [] ->
    blank text = false -> isLoading st = false ->
    let tid := thread_id_of th in
    let opened := fst (Page.handleThreadCreatedFromUpload userId tid answer st) in
    (exists rest,
       snd (InputArea.uploadFilesAuto userId threadId fs sv area)
       = InputArea.CreateThread userId :: InputArea.ThreadCreated tid
         :: InputArea.UploadFiles fs userId tid :: rest)
    /\ currentThreadId opened = Some tid
    /\ hd_error (snd (sendMessage userId JSON_parse JSON_stringify text files w opened))
       = Some (PostChat text tid userId (or_empty files)).
Proof.
  intros userId JSON_parse JSON_stringify threadId fs sv area th answer text files w st
    Hnone Hcreated Hid Hfs Hb Hl tid opened.
  split; [|split].
  - unfold InputArea.uploadFilesAuto. destruct fs as [|f0 fs]; [now destruct Hfs|].
    rewrite Hnone, Hcreated. cbn [snd]. unfold InputArea.upload_to.
    destruct (InputArea.uploaded sv); cbn [snd]; eexists; reflexivity.
  - subst opened. unfold Page.handleThreadCreatedFromUpload.
    now destruct answer.
  - apply send_to_current; [exact Hb| |].
    + subst opened. unfold Page.handleThreadCreatedFromUpload. now destruct answer.
    + subst opened tid. unfold Page.handleThreadCreatedFromUpload, active_thread.
      destruct answer;
        cbn [refreshThreads fst selectThread currentThreadId setCurrentThreadId
             setThreads];
        now rewrite Hid.
Qed.

Lemma upload_and_message_share_thread_witness :
  let sv := SampleFiles.server (Some [SampleFiles.stored "a.pdf" "k1"]) in
  let opened :=
    fst (Page.handleThreadCreatedFromUpload Sample.USER (str "thread-9") None initial) in
  snd (InputArea.uploadFilesAuto Sample.USER None [SampleFiles.pdf "a.pdf" 10] sv
         InputArea.initial)
  = [InputArea.CreateThread Sample.USER; InputArea.ThreadCreated (str "thread-9");
     InputArea.UploadFiles [SampleFiles.pdf "a.pdf" 10] Sample.USER (str "thread-9");
     InputArea.PollLater [str "a.pdf"] (str "thread-9")]
  /\ hd_error (snd (Sample.send "hi" (Sample.world Sample.hello) opened))
     = Some (PostChat (str "hi") (str "thread-9") Sample.USER []).
Proof.
  intros sv opened. split; [vm_compute; reflexivity|].
  exact (proj2 (proj2
           (upload_and_message_share_thread Sample.USER Json.parse Json.stringify None
              [SampleFiles.pdf "a.pdf" 10] sv InputArea.initial (Sample.thread "thread-9")
              None (str "hi") None (Sample.world Sample.hello) initial
              eq_refl eq_refl eq_refl ltac:(discriminate) eq_refl eq_refl))).
Defined.
(** X26. A click on an item of the timeline panel. When the selected
    checkpoint carries the id of the item, the click clears the
    selection and, on a thread, asks for the messages of the thread;
    otherwise it selects the checkpoint of the item and displays its
    messages without any request. A second click on the same item,
    from a state without selection whose display is the Message table
    of the thread, the rows arriving again, gives back that state, one
    request having been made. *)
Theorem panel_click_toggles :
  forall (c : Checkpoint) (answer : option (list Message)) (st : State),
    let clicked :=
      selectCheckpoint (TimelinePanel.onSelect (selectedCheckpoint st) c) answer st in
    (forall s,
       selectedCheckpoint st = Some s -> checkpoint_id s = checkpoint_id c ->
       selectedCheckpoint (fst clicked) = None
       /\ forall t, active_thread st = Some t -> snd clicked = [GetMessages t])
    /\ (selectedCheckpoint st = None
        \/ (exists s, selectedCheckpoint st = Some s
                      /\ checkpoint_id s <> checkpoint_id c) ->
        selectedCheckpoint (fst clicked) = Some c
        /\ snd clicked = []
        /\ messages (fst clicked)
           = checkpoint_messages_from (checkpoint_id c) 0 (cp_messages c))
    /\ (forall t rows,
          active_thread st = Some t -> selectedCheckpoint st = None ->
          messages st = map message_of_row rows ->
          let again :=
            selectCheckpoint
              (TimelinePanel.onSelect (selectedCheckpoint (fst clicked)) c)
              (Some rows) (fst clicked) in
          fst again = st /\ snd clicked ++ snd again = [GetMessages t]).
Proof.
  intros c answer st clicked. subst clicked.
  unfold TimelinePanel.onSelect, TimelinePanel.isSelected.
  split; [|split].
  - intros s Hs Hid. rewrite Hs, Hid, jeqb_refl. unfold selectCheckpoint.
    destruct (active_thread st) as [t|]; cbn [fst snd].
    + split; [now destruct answer|]. intros t' Ht. now injection Ht as ->.
    + split; [reflexivity|]. intros t' Ht. discriminate Ht.
  - intros [Hnone | [s [Hs Hid]]].
    + rewrite Hnone. now repeat split.
    + rewrite Hs. apply jeqb_neq in Hid. rewrite Hid. now repeat split.
  - intros t rows Ht Hnone Hrows. rewrite Hnone.
    cbn [selectCheckpoint fst snd selectedCheckpoint setMessages setSelectedCheckpoint].
    rewrite jeqb_refl. unfold selectCheckpoint.
    match goal with
    | |- context [active_thread ?s] =>
        change (active_thread s) with (active_thread st)
    end.
    rewrite Ht. cbn [loadMessages fst snd app]. split; [|reflexivity].
    destruct st as [ms il ths cur ps cps sel ihl shown]. cbn in *. now subst.
Qed.

Lemma panel_click_toggles_witness :
  let clicked :=
    selectCheckpoint (TimelinePanel.onSelect (selectedCheckpoint Sample.live) Sample.cp0)
      None Sample.live in
  let again :=
    selectCheckpoint
      (TimelinePanel.onSelect (selectedCheckpoint (fst clicked)) Sample.cp0)
      (Some Sample.table) (fst clicked) in
  active_thread Sample.live = Some Sample.THREAD
  /\ selectedCheckpoint Sample.live = None
  /\ messages Sample.live = map message_of_row Sample.table
  /\ selectedCheckpoint (fst clicked) = Some Sample.cp0
  /\ fst again = Sample.live
  /\ snd clicked ++ snd again = [GetMessages Sample.THREAD].
Proof.
  intros clicked again.
  split; [reflexivity|]. split; [reflexivity|]. split; [reflexivity|].
  split; [reflexivity|].
  exact (proj2 (proj2 (panel_click_toggles Sample.cp0 None Sample.live))
           Sample.THREAD Sample.table eq_refl eq_refl eq_refl).
Defined.
